(** * ArtiPop: generate an image through Replicate, tag it, archive it on S3

    A shallow embedding of [main.py].  Python values are modelled as follows.

    - [int] is [Z] (unbounded), [float] is an IEEE binary64 [PrimFloat.float];
      [str(x)] of a float is the interpreter's shortest round-trip printer and
      is taken from the environment ([str_float]).
    - [str] is [string], one [ascii] per character (code points below 256);
      [bytes] is [list byte].
    - a [dict] is a [gmap string _]; the PNG text chunks collected by
      [PngInfo.add_text] are an ordered list of pairs.
    - everything outside the process (environment variables, the Replicate
      client, HTTP, Pillow's codec, the wall clock, boto3) is a field of
      [env]; the local filesystem, the number of clock reads and the trace of
      observable actions are the mutable [world].
    - a function that can raise runs in the monad [M]: it maps a world to a
      [result] and the world it leaves behind (the effects performed before
      an exception stay). *)

From Stdlib Require Import ZArith Znumtheory Ascii String List Lia.
From Stdlib Require Import Floats.PrimFloat.
From stdpp Require Import base option list gmap strings pretty.

Local Open Scope Z_scope.
Local Open Scope string_scope.

(** ** Python strings *)

Module PyStr.

(** [str(n)] for an [int]. *)
Definition str_int (n : Z) : string := pretty n.

(** [s.startswith(p)]. *)
Fixpoint startswith (p s : string) : bool :=
  match p, s with
  | EmptyString, _ => true
  | String a p', String b s' => if decide (a = b) then startswith p' s' else false
  | String _ _, EmptyString => false
  end.

(** [needle in hay]. *)
Fixpoint contains (needle hay : string) : bool :=
  startswith needle hay ||
  match hay with
  | EmptyString => false
  | String _ hay' => contains needle hay'
  end.

(** [str.lower] on one character: A-Z, and the upper-case letters of the
    Latin-1 block (U+00C0..U+00DE without the multiplication sign). *)
Definition lower_char (c : ascii) : ascii :=
  let n := N_of_ascii c in
  if ((65 <=? n) && (n <=? 90))%N
     || ((192 <=? n) && (n <=? 222) && negb (n =? 215))%N
  then ascii_of_N (n + 32) else c.

Fixpoint lower (s : string) : string :=
  match s with
  | EmptyString => EmptyString
  | String c s' => String (lower_char c) (lower s')
  end.

(** [s[:n]]. *)
Fixpoint slice_to (n : nat) (s : string) : string :=
  match n, s with
  | O, _ => EmptyString
  | S _, EmptyString => EmptyString
  | S n', String c s' => String c (slice_to n' s')
  end.

(** Left padding with ["0"] up to width [w], as [%02d] and [%04d] do for a
    non-negative number. *)
Definition zfill (w : nat) (s : string) : string :=
  String.concat "" (replicate (w - String.length s) "0") +:+ s.

(** [s.split(sep)] for a one-character separator: the pieces between the
    separators, empty pieces included. *)
Fixpoint split (sep : ascii) (s : string) : list string :=
  match s with
  | EmptyString => [EmptyString]
  | String c s' =>
      if decide (c = sep) then EmptyString :: split sep s'
      else match split sep s' with
           | piece :: rest => String c piece :: rest
           | [] => [String c EmptyString]
           end
  end.

End PyStr.
Export PyStr.

(** ** Values, exceptions, results *)

Definition bytes := list Byte.byte.

(** The values stored in the job description. *)
Inductive pyval :=
| VStr (s : string)
| VInt (n : Z)
| VFloat (x : float).

(** Exceptions.  [Exc cls msg] is an instance of a subclass of [Exception]
    named [cls] with [str(e) = msg]; [ClientError] is botocore's, with
    [e.response['Error']['Code']]; [KeyboardInterrupt] derives from
    [BaseException] only. *)
Inductive exn :=
| Exc (cls msg : string)
| ClientError (code msg : string)
| KeyboardInterrupt.

Definition is_Exception (e : exn) : bool :=
  match e with KeyboardInterrupt => false | _ => true end.

(** [str(e)]. *)
Definition str_exn (e : exn) : string :=
  match e with
  | Exc _ msg => msg
  | ClientError _ msg => msg
  | KeyboardInterrupt => ""
  end.

Inductive result (A : Type) :=
| Ok (a : A)
| Raise (e : exn).
Arguments Ok {A} a.
Arguments Raise {A} e.

(** What [client.run] may hand back. *)
#[warnings="-register-all"]
Inductive pyobj :=
| FileOutput (read : result bytes)   (* an object with a [read()] method,
                                        and what calling it gives *)
| PyStr (s : string)             (* a [str] *)
| PyList (items : list pyobj)    (* a [list] *)
| PyOther (ty : string).         (* anything else; [ty] is [str(type(o))] *)

(** [hasattr(o, "read")]. *)
Definition has_read (o : pyobj) : bool :=
  match o with FileOutput _ => true | _ => false end.

(** [str(type(o))]. *)
Definition type_repr (o : pyobj) : string :=
  match o with
  | FileOutput _ => "<class 'replicate.helpers.FileOutput'>"
  | PyStr _ => "<class 'str'>"
  | PyList _ => "<class 'list'>"
  | PyOther ty => ty
  end.

(** [a // b] on integers. *)
Definition floordiv (a b : Z) : result Z :=
  if decide (b = 0) then Raise (Exc "ZeroDivisionError" "integer division or modulo by zero")
  else Ok (a `div` b).


(** ** The clock *)

Record datetime := {
  year : Z; month : Z; day : Z;
  hour : Z; minute : Z; second : Z; microsecond : Z;
}.

(** A calendar date whose [%Y] has four digits. *)
Definition valid_date (d : datetime) : Prop :=
  1000 <= year d <= 9999 /\ 1 <= month d <= 12 /\ 1 <= day d <= 31.

Definition same_date (a b : datetime) : Prop :=
  year a = year b /\ month a = month b /\ day a = day b.

(** [%Y], [%m], [%d] of [strftime].  The C library prints the year as it
    is, without padding; month and day take two digits. *)
Definition strftime_Y (d : datetime) : string := str_int (year d).
Definition strftime_m (d : datetime) : string := zfill 2 (str_int (month d)).
Definition strftime_d (d : datetime) : string := zfill 2 (str_int (day d)).

(** [d.strftime("%Y-%m-%d")]. *)
Definition strftime_Ymd (d : datetime) : string :=
  strftime_Y d +:+ "-" +:+ strftime_m d +:+ "-" +:+ strftime_d d.

(** [d.isoformat()]: the fraction is printed only when it is not zero. *)
Definition isoformat (d : datetime) : string :=
  zfill 4 (str_int (year d)) +:+ "-" +:+ strftime_m d +:+ "-" +:+ strftime_d d +:+
  "T" +:+ zfill 2 (str_int (hour d)) +:+ ":" +:+
  zfill 2 (str_int (minute d)) +:+ ":" +:+ zfill 2 (str_int (second d)) +:+
  (if decide (microsecond d = 0) then ""
   else "." +:+ zfill 6 (str_int (microsecond d))).

(** ** pathlib *)

Module Path.

(** The components of a POSIX path: empty pieces and ["."] are dropped. *)
Definition parts (p : string) : list string :=
  filter (fun x => x <> "" /\ x <> ".") (split "/" p).

(** [Path(p).name]: the last component, or [""] when there is none. *)
Definition name (p : string) : string := List.last (parts p) "".

(** [str(Path("/tmp") / n)] for a single component [n] (or [""]). *)
Definition tmp_joinpath (n : string) : string :=
  if decide (n = "") then "/tmp" else "/tmp/" +:+ n.

(** The last dot of [s]: what stands before it, and the rest from that dot
    on. *)
Fixpoint rpartition_dot (s : string) : option (string * string) :=
  match s with
  | EmptyString => None
  | String c s' =>
      match rpartition_dot s' with
      | Some (stem, ext) => Some (String c stem, ext)
      | None => if Ascii.eqb c "." then Some (EmptyString, s) else None
      end
  end.

Fixpoint only_dots (s : string) : bool :=
  match s with
  | EmptyString => true
  | String c s' => Ascii.eqb c "." && only_dots s'
  end.

(** [os.path.splitext(p)[1]]: the last component from its last dot on, or
    [""] when it has no dot or only dots before that one. *)
Definition splitext_ext (p : string) : string :=
  match rpartition_dot (List.last (split "/" p) "") with
  | Some (stem, ext) => if only_dots stem then "" else ext
  | None => ""
  end.

End Path.

(** ** The world around the program *)

(** A decoded image, and the file Pillow writes for it. *)
Record image := { im_size : Z * Z; im_pixels : bytes }.
Record file := { f_image : image; f_text : list (string * string) }.

(** The [requests] response. *)
Record response := { status_code : Z; reason : string; content : bytes }.

(** [ExtraArgs] of [upload_file]. *)
Record extra_args := {
  ContentType : string;
  Metadata : gmap string string;
  CacheControl : string;
}.

(** What the run does that can be observed from outside, oldest first. *)
Inductive event :=
| LogInfo (msg : string)
| LogError (msg : string)
| ProviderRun (model : string) (input : gmap string pyval)
| HttpGet (url : string)
| FileWrite (path : string) (f : file)
| FileUnlink (path : string)
| S3Upload (local_path bucket key : string) (extra : extra_args).

Record world := {
  fs : gmap string file;     (* the local filesystem, by path *)
  ticks : nat;               (* calls of [datetime.now()] so far *)
  trace : list event;
}.

(** The collaborators.  [clock n] is what the [n]-th call of
    [datetime.now()] returns. *)
Record env := {
  getenv : string -> option string;
  str_float : float -> string;
  clock : nat -> datetime;
  client_run : string -> gmap string pyval -> result pyobj;
  requests_get : string -> result response;
  Image_open : bytes -> result image;
  Image_save : image -> string -> list (string * string) -> option exn;
  boto3_client : option string -> option exn;
  s3_upload_file : string -> string -> string -> extra_args -> option exn;
  stdout_write : list N -> option exn;
}.

(** ** The monad of effects and exceptions *)

Definition M (A : Type) : Type := world -> result A * world.

Definition ret {A} (a : A) : M A := fun w => (Ok a, w).
Definition raise {A} (e : exn) : M A := fun w => (Raise e, w).
Definition bind {A B} (m : M A) (k : A -> M B) : M B :=
  fun w => match m w with
           | (Ok a, w') => k a w'
           | (Raise e, w') => (Raise e, w')
           end.

Notation "x <- m ;; k" := (bind m (fun x => k))
  (at level 100, m at next level, right associativity).
Notation "m ;;; k" := (bind m (fun _ => k))
  (at level 100, right associativity).

Definition lift {A} (r : result A) : M A := fun w => (r, w).
Definition lift_err (o : option exn) : M unit :=
  fun w => match o with Some e => (Raise e, w) | None => (Ok tt, w) end.

Definition emit (ev : event) : M unit :=
  fun w => (Ok tt, {| fs := fs w; ticks := ticks w; trace := trace w ++ [ev] |}).
Definition log_info (msg : string) : M unit := emit (LogInfo msg).
Definition log_error (msg : string) : M unit := emit (LogError msg).

(** [datetime.now()]. *)
Definition now (E : env) : M datetime :=
  fun w => (Ok (clock E (ticks w)),
            {| fs := fs w; ticks := S (ticks w); trace := trace w |}).

(** [try: m  except Exception as e: h e]. *)
Definition try_except_Exception {A} (m : M A) (h : exn -> M A) : M A :=
  fun w => match m w with
           | (Raise e, w') => if is_Exception e then h e w' else (Raise e, w')
           | r => r
           end.

(** [try: m  except ClientError as e: h code e]. *)
Definition try_except_ClientError {A} (m : M A) (h : string -> exn -> M A) : M A :=
  fun w => match m w with
           | (Raise (ClientError code msg), w') => h code (ClientError code msg) w'
           | r => r
           end.

(** Truth value of an optional [str] and of an optional [int]. *)
Definition truthy_str (o : option string) : bool :=
  match o with Some s => negb (String.eqb s "") | None => false end.
Definition truthy_int (o : option Z) : bool :=
  match o with Some n => negb (Z.eqb n 0) | None => false end.

(** ** main.py *)

Definition MODEL_ID : string := "stability-ai/stable-diffusion-3.5-large".

Definition get_replicate_token (E : env) : M string :=
  let token := getenv E "REPLICATE_API_TOKEN" in
  if truthy_str token then ret (default "" token)
  else raise (Exc "ValueError"
    "Replicate API token not found. Set REPLICATE_API_TOKEN in your .env file or environment.").

(** The aspect-ratio string of lines 77-79. *)
Definition aspect_ratio (width height : Z) : result string :=
  let g := Z.gcd (Z.max width 1) (Z.max height 1) in
  match floordiv width g, floordiv height g with
  | Ok a, Ok b => Ok (str_int a +:+ ":" +:+ str_int b)
  | Raise e, _ => Raise e
  | _, Raise e => Raise e
  end.

(** The job description of lines 77-89.  [steps] is a parameter of the
    enclosing function and is carried along here. *)
Definition job_description (prompt : string) (steps : Z) (guidance : float)
    (seed : option Z) (width height : Z) (output_format : string)
  : result (gmap string pyval) :=
  match aspect_ratio width height with
  | Raise e => Raise e
  | Ok ar =>
      let inputs : gmap string pyval :=
        <["output_format" := VStr output_format]>
          (<["cfg" := VFloat guidance]> (<["prompt" := VStr prompt]> ∅)) in
      let inputs :=
        match seed with Some s => <["seed" := VInt s]> inputs | None => inputs end in
      let inputs :=
        if String.eqb ar "1:1" then inputs else <["aspect_ratio" := VStr ar]> inputs in
      Ok inputs
  end.

(** [inputs.get('aspect_ratio', '1:1')] inside an f-string. *)
Definition shown_aspect_ratio (inputs : gmap string pyval) : string :=
  match inputs !! "aspect_ratio" with
  | Some (VStr s) => s
  | _ => "1:1"
  end.

(** Lines 96-106: from the provider's return value to the decoded image. *)
Definition normalize_output (E : env) (out : pyobj) : M image :=
  fo <- match out with
        | PyList [] => raise (Exc "IndexError" "list index out of range")
        | PyList (x :: _) => ret x
        | _ => ret out
        end ;;
  data <- match fo with
          | FileOutput read => lift read
          | PyStr url =>
              emit (HttpGet url) ;;;
              r <- lift (requests_get E url) ;;
              (* r.raise_for_status() *)
              (if ((400 <=? status_code r) && (status_code r <? 600))%Z
               then raise (Exc "HTTPError"
                      (str_int (status_code r) +:+
                       (if (status_code r <? 500)%Z then " Client Error: " else " Server Error: ")
                       +:+ reason r +:+ " for url: " +:+ url))
               else ret tt) ;;;
              ret (content r)
          | _ => raise (Exc "RuntimeError" ("Unexpected output type: " +:+ type_repr fo))
          end ;;
  lift (Image_open E data).

(** Lines 107-113: the handler of the [try] block. *)
Definition on_generation_error {A} (e : exn) : M A :=
  let msg := str_exn e in
  if contains "404" msg then
    log_error "Model slug not found: use 'stability-ai/stable-diffusion-3.5-large'" ;;;
    raise e
  else if contains "401" msg || contains "unauthorized" (lower msg) then
    raise (Exc "ValueError" "Invalid Replicate token (REPLICATE_API_TOKEN).")
  else raise e.

Definition generate_image_with_replicate (E : env) (prompt : string) (steps : Z)
    (guidance : float) (seed : option Z) (width height : Z) (output_format : string)
  : M image :=
  _token <- get_replicate_token E ;;
  inputs <- lift (job_description prompt steps guidance seed width height output_format) ;;
  log_info ("Generating with cfg=" +:+ str_float E guidance +:+ ", aspect_ratio="
            +:+ shown_aspect_ratio inputs) ;;;
  try_except_Exception
    (emit (ProviderRun MODEL_ID inputs) ;;;
     out <- lift (client_run E MODEL_ID inputs) ;;
     normalize_output E out)
    on_generation_error.

Definition create_filename_with_date (E : env) (prefix : string) : M string :=
  t <- now E ;;
  let timestamp := strftime_Ymd t in
  ret (prefix +:+ "_" +:+ timestamp +:+ ".png").

Definition create_s3_key_organized (E : env) (base_path : string) : M string :=
  t <- now E ;;
  let year := strftime_Y t in
  let month := strftime_m t in
  let day := strftime_d t in
  filename <- create_filename_with_date E "sd3" ;;
  ret (base_path +:+ "/" +:+ year +:+ "/" +:+ month +:+ "/" +:+ day +:+ "/" +:+ filename).

(** [PngInfo.add_text]: one more text chunk, after those already there. *)
Definition add_text (metadata : list (string * string)) (key value : string)
  : list (string * string) :=
  (metadata ++ [(key, value)])%list.

(** The text chunks of the [PngInfo], in the order [add_text] received them. *)
Definition add_metadata_to_image (E : env) (img : image) (prompt : string)
    (steps : Z) (guidance : float) (seed : option Z)
  : M (image * list (string * string)) :=
  let metadata : list (string * string) := [] in
  let metadata := add_text metadata "prompt" prompt in
  let metadata := add_text metadata "steps" (str_int steps) in
  let metadata := add_text metadata "guidance_scale" (str_float E guidance) in
  let metadata :=
    if truthy_int seed then add_text metadata "seed" (str_int (default 0 seed))
    else metadata in
  t <- now E ;;
  let metadata := add_text metadata "generated_at" (isoformat t) in
  let metadata := add_text metadata "model" "stable-diffusion-3.5-large" in
  let metadata := add_text metadata "generator" "replicate-client" in
  ret (img, metadata).

(** The dictionary [upload_to_s3] returns. *)
Record upload_result := {
  r_s3_uri : string;
  r_public_url : string;
  r_key : string;
  r_filename : string;
  r_bucket : string;
  r_region : string;
  r_is_public : bool;
  r_generated_at : string;
  r_prompt : string;
  r_metadata : gmap string string;
}.

Definition upload_to_s3 (E : env) (local_path bucket key prompt : string)
    (steps : Z) (guidance : float) (seed : option Z) (region : option string)
    (public : bool)
  : M upload_result :=
  lift_err (boto3_client E region) ;;;
  let region := if truthy_str region then default "" region else "eu-central-1" in
  t <- now E ;;
  let s3_metadata : gmap string string :=
    <["generator" := "replicate-client"]>
      (<["model" := "stable-diffusion-3.5-large"]>
        (<["generated-at" := isoformat t]>
          (<["guidance" := str_float E guidance]>
            (<["steps" := str_int steps]>
              (<["prompt" := slice_to 1024 prompt]> ∅))))) in
  let s3_metadata :=
    if truthy_int seed then <["seed" := str_int (default 0 seed)]> s3_metadata
    else s3_metadata in
  let extra := {| ContentType := "image/png";
                  Metadata := s3_metadata;
                  CacheControl := "public, max-age=31536000" |} in
  try_except_ClientError
    (log_info ("Uploading to s3://" +:+ bucket +:+ "/" +:+ key) ;;;
     emit (S3Upload local_path bucket key extra) ;;;
     lift_err (s3_upload_file E local_path bucket key extra) ;;;
     let s3_uri := "s3://" +:+ bucket +:+ "/" +:+ key in
     let public_url :=
       "https://" +:+ bucket +:+ ".s3." +:+ region +:+ ".amazonaws.com/" +:+ key in
     t' <- now E ;;
     let result := {| r_s3_uri := s3_uri;
                      r_public_url := public_url;
                      r_key := key;
                      r_filename := Path.name key;
                      r_bucket := bucket;
                      r_region := region;
                      r_is_public := public;
                      r_generated_at := isoformat t';
                      r_prompt := prompt;
                      r_metadata := s3_metadata |} in
     log_info ("Upload successful: " +:+ s3_uri) ;;;
     (if public then log_info ("Public URL: " +:+ public_url) else ret tt) ;;;
     ret result)
    (fun error_code e =>
       (if String.eqb error_code "NoSuchBucket" then
          log_error ("Bucket '" +:+ bucket +:+ "' does not exist")
        else if String.eqb error_code "AccessDenied" then
          log_error "Access denied. Check AWS credentials and bucket permissions"
        else log_error ("S3 upload failed: " +:+ str_exn e)) ;;;
       raise e).

(** The parsed command line; [a_bucket] and [a_region] already hold their
    defaults from the environment. *)
Record args := {
  a_bucket : option string;
  a_prompt : string;
  a_key : option string;
  a_organized : bool;
  a_steps : Z;
  a_guidance : float;
  a_seed : option Z;
  a_width : Z;
  a_height : Z;
  a_region : option string;
  a_public : bool;
}.

(** Lines 286-294: the storage key. *)
Definition determine_s3_key (E : env) (a : args) : M string :=
  if truthy_str (a_key a) then ret (default "" (a_key a))
  else if a_organized a then create_s3_key_organized E "images"
  else create_filename_with_date E "sd3".

(** Pillow chooses the writer by the suffix of the path, lower-cased: its
    table maps [.png] and [.apng] to the PNG writer, the only one that
    stores the [pnginfo] chunks. *)
Definition saved_as_png (path : string) : bool :=
  let ext := lower (Path.splitext_ext path) in
  String.eqb ext ".png" || String.eqb ext ".apng".

(** [img.save(tmp_path, pnginfo=png_metadata)].  Whether Pillow knows the
    suffix at all, and whether the writer takes the image, is the
    collaborator [Image_save] (an unknown suffix raises ValueError there);
    a writer other than the PNG one ignores [pnginfo], and the file then
    holds no text chunk. *)
Definition save_image (E : env) (img : image) (path : string)
    (meta : list (string * string)) : M unit :=
  fun w => match Image_save E img path meta with
           | Some e => (Raise e, w)
           | None =>
               let f := {| f_image := img;
                           f_text := if saved_as_png path then meta else [] |} in
               (Ok tt, {| fs := <[path := f]> (fs w); ticks := ticks w;
                          trace := trace w ++ [FileWrite path f] |})
           end.

(** [tmp_path.unlink()]. *)
Definition unlink (path : string) : M unit :=
  fun w => match fs w !! path with
           | None => (Raise (Exc "FileNotFoundError"
                        ("[Errno 2] No such file or directory: '" +:+ path +:+ "'")), w)
           | Some _ => (Ok tt, {| fs := delete path (fs w); ticks := ticks w;
                                  trace := trace w ++ [FileUnlink path] |})
           end.

(** Line 297: [Path("/tmp") / Path(s3_key).name]. *)
Definition tmp_path_of (s3_key : string) : string :=
  Path.tmp_joinpath (Path.name s3_key).

(** Text for standard output, as code points: the summary holds characters
    above 255. *)
Definition utext (s : string) : list N := N_of_ascii <$> list_ascii_of_string s.

(** [print(text)]: the line goes to standard output, which is not part of
    the trace; what the stream raises for it (UnicodeEncodeError where it
    cannot encode a character, OSError) is the collaborator [stdout_write]. *)
Definition print (E : env) (text : list N) : M unit := lift_err (stdout_write E text).

(** ["="*60]. *)
Definition rule : string := String.concat "" (replicate 60 "=").

(** Lines 319 to 336: the summary.  The characters above 255 are the check
    mark button (U+2705), the folder (U+1F4C1), the page (U+1F4C4), the
    calendar (U+1F4C5), the globe (U+1F310) and the light bulb (U+1F4A1). *)
Definition print_summary (E : env) (result : upload_result) (public : bool) : M unit :=
  print E (utext (String "010" "" +:+ rule)) ;;;
  print E (9989%N :: utext " IMAGE GENERATED AND UPLOADED SUCCESSFULLY") ;;;
  print E (utext rule) ;;;
  print E (128193%N :: utext (" S3 URI:      " +:+ r_s3_uri result)) ;;;
  print E (128196%N :: utext (" Filename:    " +:+ r_filename result)) ;;;
  print E (128197%N :: utext (" Generated:   " +:+ r_generated_at result)) ;;;
  (if public then
     print E (127760%N :: utext (" Public URL:  " +:+ r_public_url result)) ;;;
     print E (utext (String "010" "") ++ 128161%N :: utext " You can share this URL directly!")
   else
     print E (utext (String "010" "") ++
              128161%N :: utext " Image is private. Use --public flag for public access.") ;;;
     print E (utext "   Or configure bucket policy for public reads.")) ;;;
  print E (utext (rule +:+ String "010" "")) ;;;
  (* Return only the main URL for script automation *)
  print E (utext (r_s3_uri result)).

(** The body of the [try] in [main], up to [return 0]. *)
Definition main_body (E : env) (a : args) : M Z :=
  _token <- get_replicate_token E ;;
  (* the "token found" line starts with a check mark, a character outside
     the alphabet of [string]; it is left out of the trace *)
  img <- generate_image_with_replicate E (a_prompt a) (a_steps a) (a_guidance a)
           (a_seed a) (a_width a) (a_height a) "png" ;;
  im <- add_metadata_to_image E img (a_prompt a) (a_steps a) (a_guidance a) (a_seed a) ;;
  let '(img, png_metadata) := im in
  s3_key <- determine_s3_key E a ;;
  let tmp_path := tmp_path_of s3_key in
  save_image E img tmp_path png_metadata ;;;
  log_info ("Image saved temporarily to " +:+ tmp_path) ;;;
  result <- upload_to_s3 E tmp_path (default "" (a_bucket a)) s3_key (a_prompt a)
              (a_steps a) (a_guidance a) (a_seed a) (a_region a) (a_public a) ;;
  unlink tmp_path ;;;
  log_info "Temporary file deleted" ;;;
  print_summary E result (a_public a) ;;;
  ret 0.

(** [main()]: the exit status and the world it leaves.  A missing bucket ends
    the process through [parser.error] with status 2. *)
Definition main (E : env) (a : args) (w : world) : Z * world :=
  if negb (truthy_str (a_bucket a)) then (2, w)
  else
    let w := {| fs := fs w; ticks := ticks w;
                trace := (trace w ++ [LogInfo ("Using bucket: " +:+ default "" (a_bucket a))] ++
                  (if truthy_str (a_region a) then []
                   else [LogInfo "No region via args/env; will fall back to eu-central-1 inside S3 client"]))%list |} in
    match main_body E a w with
    | (Ok code, w') => (code, w')
    | (Raise KeyboardInterrupt, w') =>
        (130, {| fs := fs w'; ticks := ticks w'; trace := trace w' ++ [LogInfo "Interrupted by user"] |})
    | (Raise e, w') =>
        (1, {| fs := fs w'; ticks := ticks w';
               trace := trace w' ++ [LogError ("Fatal error: " +:+ str_exn e)] |})
    end.

(** ** Start-up: the environment file and the shims (lines 3 to 38)

    The process environment [os.environ] is a [gmap string string].  What an
    assignment to it raises (an illegal name, an embedded null) is decided
    by the operating system interface and is the parameter [putenv]; what a
    path names is a [path_state]. *)

(** What a path names, as [path.exists()] and [path.read_text()] find it:
    nothing ([exists()] is false); something [exists()] cannot reach, the
    OSError being one it does not ignore (a name too long, a directory that
    may not be searched); or a file, with the outcome of reading it as
    text. *)
Inductive path_state :=
| Missing
| Unreachable (e : exn)
| Present (content : result string).

(** The line boundaries of [str.splitlines] among the code points below
    256: LF, VT, FF, CR, FS, GS, RS and NEL. *)
Definition is_linebreak (c : ascii) : bool :=
  let n := N_of_ascii c in
  (((10 <=? n) && (n <=? 13)) || ((28 <=? n) && (n <=? 30)) || (n =? 133))%N.

(** [s.splitlines()]: the lines without their terminators; CR LF counts as
    one terminator, and a terminator at the very end opens no further line.
    [cur] is the part of the current line read so far. *)
Fixpoint splitlines_from (cur : string) (s : string) : list string :=
  match s with
  | EmptyString => if decide (cur = "") then [] else [cur]
  | String c s' =>
      if is_linebreak c then
        match s' with
        | String c' s'' =>
            if Ascii.eqb c "013" && Ascii.eqb c' "010"
            then cur :: splitlines_from "" s''
            else cur :: splitlines_from "" s'
        | EmptyString => [cur]
        end
      else splitlines_from (cur +:+ String c "") s'
  end.
Definition splitlines (s : string) : list string := splitlines_from "" s.

(** The characters [str.strip()] removes: [str.isspace] below 256. *)
Definition is_space (c : ascii) : bool :=
  let n := N_of_ascii c in
  (((9 <=? n) && (n <=? 13)) || ((28 <=? n) && (n <=? 32)) || (n =? 133) || (n =? 160))%N.

(** [s.lstrip(..)], [s.rstrip(..)], [s.strip(..)] for the characters that
    pass [drop]. *)
Fixpoint lstrip_by (drop : ascii -> bool) (s : string) : string :=
  match s with
  | EmptyString => EmptyString
  | String c s' => if drop c then lstrip_by drop s' else s
  end.
Fixpoint rstrip_by (drop : ascii -> bool) (s : string) : string :=
  match s with
  | EmptyString => EmptyString
  | String c s' =>
      match rstrip_by drop s' with
      | EmptyString => if drop c then EmptyString else String c EmptyString
      | rest => String c rest
      end
  end.
Definition strip_by (drop : ascii -> bool) (s : string) : string :=
  rstrip_by drop (lstrip_by drop s).

(** [s.strip()] and [s.strip(c)] for a one-character argument. *)
Definition strip (s : string) : string := strip_by is_space s.
Definition strip_char (c : ascii) (s : string) : string := strip_by (Ascii.eqb c) s.

(** [s.split(sep, 1)] when [sep] occurs: what is before and after the first
    occurrence; [None] when it does not occur (the list then has one
    element). *)
Fixpoint split_once (sep : ascii) (s : string) : option (string * string) :=
  match s with
  | EmptyString => None
  | String c s' =>
      if Ascii.eqb c sep then Some (EmptyString, s')
      else match split_once sep s' with
           | Some (k, v) => Some (String c k, v)
           | None => None
           end
  end.

(** [os.environ[k] = v] and [os.environ.setdefault(k, v)]. *)
Definition environ_set (putenv : string -> string -> option exn) (k v : string)
    (environ : gmap string string) : result unit * gmap string string :=
  match putenv k v with
  | Some e => (Raise e, environ)
  | None => (Ok tt, <[k := v]> environ)
  end.
Definition environ_setdefault (putenv : string -> string -> option exn) (k v : string)
    (environ : gmap string string) : result unit * gmap string string :=
  match environ !! k with
  | Some _ => (Ok tt, environ)
  | None => environ_set putenv k v environ
  end.

(** The loop of [_load_env_file] over the lines of the file. *)
Fixpoint load_env_lines (putenv : string -> string -> option exn) (lines : list string)
    (environ : gmap string string) : result unit * gmap string string :=
  match lines with
  | [] => (Ok tt, environ)
  | raw :: rest =>
      let line := strip raw in
      if String.eqb line "" || startswith "#" line || negb (contains "=" line)
      then load_env_lines putenv rest environ
      else
        match split_once "=" line with
        | None => (Raise (Exc "ValueError" "not enough values to unpack (expected 2, got 1)"),
                   environ)
        | Some (k, v) =>
            let k := strip k in
            let v := strip_char "'" (strip_char "034" (strip v)) in
            (* don't overwrite if already set in the environment *)
            match environ_setdefault putenv k v environ with
            | (Ok _, environ') => load_env_lines putenv rest environ'
            | (Raise e, environ') => (Raise e, environ')
            end
        end
  end.

(** [_load_env_file(path)]; [file] is what [path] names.  The test of
    line 15 stands before the [try]: what it raises is not caught. *)
Definition _load_env_file (putenv : string -> string -> option exn)
    (file : path_state) (environ : gmap string string)
  : result unit * gmap string string :=
  match file with
  | Unreachable e => (Raise e, environ)
  | Missing => (Ok tt, environ)
  | Present content =>
      let attempt :=
        match content with
        | Raise e => (Raise e, environ)
        | Ok text => load_env_lines putenv (splitlines text) environ
        end in
      match attempt with
      | (Raise e, environ') =>
          (* fail soft *)
          if is_Exception e then (Ok tt, environ') else (Raise e, environ')
      | finished => finished
      end
  end.

(** [os.getenv(k)] as a truth value, and [os.getenv(k, d)]. *)
Definition getenv_truthy (environ : gmap string string) (k : string) : bool :=
  truthy_str (environ !! k).
Definition getenv_default (environ : gmap string string) (k d : string) : string :=
  default d (environ !! k).

(** The compatibility shims of lines 35 to 38. *)
Definition compatibility_shims (putenv : string -> string -> option exn)
    (environ : gmap string string) : result unit * gmap string string :=
  let step1 :=
    if getenv_truthy environ "HF_TOKEN" && negb (getenv_truthy environ "HUGGINGFACE_HUB_TOKEN")
    then environ_set putenv "HUGGINGFACE_HUB_TOKEN" (default "" (environ !! "HF_TOKEN")) environ
    else (Ok tt, environ) in
  match step1 with
  | (Raise e, environ') => (Raise e, environ')
  | (Ok _, environ') =>
      if getenv_truthy environ' "AWS_DEFAULT_REGION" && negb (getenv_truthy environ' "AWS_REGION")
      then environ_set putenv "AWS_REGION" (default "" (environ' !! "AWS_DEFAULT_REGION")) environ'
      else (Ok tt, environ')
  end.

(** What the module does when it is loaded, before [main] is called:
    lines 3, 31 and 32, and the shims.  [files] says what each path names. *)
Definition startup (putenv : string -> string -> option exn)
    (files : string -> path_state) (environ : gmap string string)
  : result unit * gmap string string :=
  match environ_setdefault putenv "HF_HOME" "/opt/hf-cache" environ with
  | (Raise e, environ') => (Raise e, environ')
  | (Ok _, environ1) =>
      let _ENV_FILE := getenv_default environ1 "ENV_FILE" "secrets.env" in
      match _load_env_file putenv (files _ENV_FILE) environ1 with
      | (Raise e, environ') => (Raise e, environ')
      | (Ok _, environ2) => compatibility_shims putenv environ2
      end
  end.

(** The collaborators of [E], with the environment variables read from
    [environ]. *)
Definition with_environ (E : env) (environ : gmap string string) : env :=
  {| getenv := fun k => environ !! k;
     str_float := str_float E; clock := clock E; client_run := client_run E;
     requests_get := requests_get E; Image_open := Image_open E;
     Image_save := Image_save E; boto3_client := boto3_client E;
     s3_upload_file := s3_upload_file E;
     stdout_write := stdout_write E |}.

(** ** A concrete environment

    A run on 2025-10-13 in which every collaborator answers: the provider
    returns one stream, the codec accepts it, the bucket takes the object.
    The variants below change one collaborator each. *)

Module Sample.

Definition t0 : datetime :=
  {| year := 2025; month := 10; day := 13;
     hour := 14; minute := 30; second := 52; microsecond := 0 |}.

Definition png : bytes := [Byte.x89; Byte.x50; Byte.x4e; Byte.x47].
Definition png' : bytes := [Byte.x89; Byte.x50; Byte.x4e; Byte.x47; Byte.x00].

Definition decode (data : bytes) : result image :=
  match data with
  | [] => Raise (Exc "UnidentifiedImageError" "cannot identify image file")
  | _ => Ok {| im_size := (1024, 1024); im_pixels := data |}
  end.

Definition E : env :=
  {| getenv := fun k => if String.eqb k "REPLICATE_API_TOKEN" then Some "r8_token" else None;
     str_float := fun _ => "3.5";
     clock := fun _ => t0;
     client_run := fun _ _ => Ok (FileOutput (Ok png));
     requests_get := fun _ => Ok {| status_code := 200; reason := "OK"; content := png |};
     Image_open := decode;
     Image_save := fun _ _ _ => None;
     boto3_client := fun _ => None;
     s3_upload_file := fun _ _ _ _ => None;
     stdout_write := fun _ => None |}.

(** The provider answers with [out]. *)
Definition E_out (out : result pyobj) : env :=
  {| getenv := getenv E; str_float := str_float E; clock := clock E;
     client_run := fun _ _ => out;
     requests_get := requests_get E; Image_open := Image_open E;
     Image_save := Image_save E; boto3_client := boto3_client E;
     s3_upload_file := s3_upload_file E;
     stdout_write := stdout_write E |}.

(** The standard output answers the write of a text with [out]. *)
Definition E_stdout (out : list N -> option exn) : env :=
  {| getenv := getenv E; str_float := str_float E; clock := clock E;
     client_run := client_run E;
     requests_get := requests_get E; Image_open := Image_open E;
     Image_save := Image_save E; boto3_client := boto3_client E;
     s3_upload_file := s3_upload_file E;
     stdout_write := out |}.

(** A standard output whose encoding has no globe: the line of the public
    URL cannot be written. *)
Definition no_globe (text : list N) : option exn :=
  if existsb (N.eqb 127760) text
  then Some (Exc "UnicodeEncodeError" "'charmap' codec can't encode character")
  else None.

(** The storage service refuses the object with [e]. *)
Definition E_upload_fails (e : exn) : env :=
  {| getenv := getenv E; str_float := str_float E; clock := clock E;
     client_run := client_run E;
     requests_get := requests_get E; Image_open := Image_open E;
     Image_save := Image_save E; boto3_client := boto3_client E;
     s3_upload_file := fun _ _ _ _ => Some e;
     stdout_write := stdout_write E |}.

Definition a : args :=
  {| a_bucket := Some "artipop"; a_prompt := "a red fox";
     a_key := None; a_organized := false;
     a_steps := 28; a_guidance := 3.5%float; a_seed := None;
     a_width := 1024; a_height := 1024;
     a_region := None; a_public := false |}.

Definition with_key (k : option string) (organized : bool) : args :=
  {| a_bucket := a_bucket a; a_prompt := a_prompt a;
     a_key := k; a_organized := organized;
     a_steps := a_steps a; a_guidance := a_guidance a; a_seed := a_seed a;
     a_width := a_width a; a_height := a_height a;
     a_region := a_region a; a_public := a_public a |}.

Definition w0 : world := {| fs := ∅; ticks := 0; trace := [] |}.

End Sample.

(** An environment file, and two behaviours of the assignment to
    [os.environ]: one that accepts every name, one that refuses the empty
    name. *)
Module SampleEnv.
Definition nl : string := String "010" "".
Definition dq : string := String "034" "".
Definition text : string :=
  "# secrets" +:+ nl +:+
  "REPLICATE_API_TOKEN = 'r8_file'" +:+ nl +:+
  nl +:+
  "S3_BUCKET=" +:+ dq +:+ "artipop" +:+ dq +:+ nl +:+
  "HF_TOKEN=hf_abc" +:+ nl +:+
  "REPLICATE_API_TOKEN=second" +:+ nl.
Definition broken : string :=
  "A=1" +:+ nl +:+ "=oops" +:+ nl +:+ "B=2" +:+ nl.
Definition putenv_ok : string -> string -> option exn := fun _ _ => None.
Definition putenv_strict : string -> string -> option exn :=
  fun k _ => if String.eqb k "" then Some (Exc "ValueError" "illegal environment variable name")
             else None.
Definition files (content : string) : string -> path_state :=
  fun p => if String.eqb p "secrets.env" then Present (Ok content) else Missing.
End SampleEnv.

(** ** A run on a disk that is not empty

    The sample command line, started where a picture sits in a home
    directory and an older run has left its file in /tmp. *)

Module SampleRun.
Definition old : file :=
  {| f_image := {| im_size := (8, 8); im_pixels := [Byte.x00] |}; f_text := [] |}.
Definition w : world :=
  {| fs := <["/home/ada/fox.png" := old]> (<["/tmp/sd3_2025-10-13.png" := old]> ∅);
     ticks := 0; trace := [] |}.
Definition events : list event := trace (main Sample.E Sample.a w).2.

(** The provider answers with a URL, and fetching it gives [status]. *)
Definition url : string := "https://replicate.delivery/out/fox.png".

(** The provider call is interrupted from the keyboard. *)
Definition E_interrupted : env := Sample.E_out (Raise KeyboardInterrupt).


(** Midnight passes between the first read of the clock and the next. *)
Definition late : datetime :=
  {| year := 2025; month := 12; day := 31;
     hour := 23; minute := 59; second := 59; microsecond := 999990 |}.
Definition early : datetime :=
  {| year := 2026; month := 1; day := 1;
     hour := 0; minute := 0; second := 0; microsecond := 15 |}.
Definition E_midnight : env :=
  {| getenv := getenv Sample.E; str_float := str_float Sample.E;
     clock := fun n => match n with O => late | _ => early end;
     client_run := client_run Sample.E; requests_get := requests_get Sample.E;
     Image_open := Image_open Sample.E; Image_save := Image_save Sample.E;
     boto3_client := boto3_client Sample.E; s3_upload_file := s3_upload_file Sample.E;
     stdout_write := stdout_write Sample.E |}.
End SampleRun.

(** ** Vocabulary of the statements *)

(** The decimal digit [n], and numbers written on two and four digits. *)
Definition digit (n : Z) : ascii := ascii_of_N (48 + Z.to_N n).
Definition dec2 (n : Z) : string :=
  String (digit (n `div` 10)) (String (digit (n `mod` 10)) "").
Definition dec4 (n : Z) : string :=
  String (digit (n `div` 1000)) (String (digit ((n `div` 100) `mod` 10)) (dec2 (n `mod` 100))).

(** [YYYY-MM-DD]. *)
Definition date_text (d : datetime) : string :=
  dec4 (year d) +:+ "-" +:+ dec2 (month d) +:+ "-" +:+ dec2 (day d).

(** Every read of the clock falls on the calendar date of [d]. *)
Definition today (E : env) (d : datetime) : Prop :=
  valid_date d /\ forall n, same_date (clock E n) d.

(** Every character of [s] passes the test [P]. *)
Fixpoint all_chars (P : ascii -> bool) (s : string) : bool :=
  match s with
  | EmptyString => true
  | String c s' => P c && all_chars P s'
  end.

Definition is_digit (c : ascii) : bool :=
  ((48 <=? N_of_ascii c) && (N_of_ascii c <=? 57))%N.

(** A file name: not empty, not ["."], and without a slash. *)
Definition no_slash (s : string) : bool :=
  all_chars (fun c => negb (Ascii.eqb c "/")) s.
Definition file_name (s : string) : Prop :=
  no_slash s = true /\ s <> "" /\ s <> ".".

(** The three ways of naming the stored object, as the specification words
    them: the key given on the command line, the key organized by date, the
    flat dated key. *)
Definition flat_key (d : datetime) : string := "sd3_" +:+ date_text d +:+ ".png".
Definition organized_key (d : datetime) : string :=
  "images/" +:+ dec4 (year d) +:+ "/" +:+ dec2 (month d) +:+ "/" +:+ dec2 (day d)
  +:+ "/" +:+ flat_key d.
Definition expected_key (a : args) (d : datetime) : string :=
  match a_key a with
  | Some k => if decide (k = "") then
                if a_organized a then organized_key d else flat_key d
              else k
  | None => if a_organized a then organized_key d else flat_key d
  end.

(** The values stored under [k] in a list of text chunks, in order. *)
Definition text_values (k : string) (meta : list (string * string)) : list string :=
  (filter (fun kv => kv.1 = k) meta).*2.

(** What the metadata carry for a seed: nothing for [None] and for [0]. *)
Definition seed_text (seed : option Z) : option string :=
  match seed with
  | Some n => if decide (n = 0) then None else Some (str_int n)
  | None => None
  end.

(** What the text chunks of the saved image, and the metadata of the stored
    object, must hold for a prompt, a step count and a seed. *)
Definition png_text_ok (prompt : string) (steps : Z) (seed : option Z)
    (meta : list (string * string)) : Prop :=
  text_values "prompt" meta = [prompt] /\
  text_values "steps" meta = [str_int steps] /\
  text_values "seed" meta = option_list (seed_text seed).
Definition mirror_ok (prompt : string) (steps : Z) (seed : option Z)
    (md : gmap string string) : Prop :=
  md !! "prompt" = Some (slice_to 1024 prompt) /\
  md !! "steps" = Some (str_int steps) /\
  md !! "seed" = seed_text seed.

(** The job descriptions handed to the provider, and the calls of
    [upload_file], along a trace. *)
Definition sent_jobs (tr : list event) : list (gmap string pyval) :=
  omap (fun ev => match ev with ProviderRun _ input => Some input | _ => None end) tr.
Definition uploads (tr : list event) : list (string * string * extra_args) :=
  omap (fun ev => match ev with
                  | S3Upload p _ k x => Some (p, k, x)
                  | _ => None
                  end) tr.


(** The three shapes of a provider answer that carry the payload [data]:
    a stream, a list of one stream, a URL (here [url]). *)
Inductive one_payload (data : bytes) (url : string) : pyobj -> Prop :=
| bare_stream : one_payload data url (FileOutput (Ok data))
| listed_stream : one_payload data url (PyList [FileOutput (Ok data)])
| url_string : one_payload data url (PyStr url).

(** The answers from which the code resolves the payload [data]: [data]
    as a stream or behind [url], alone or first in a list. *)
Inductive resolves_to (data : bytes) (url : string) : pyobj -> Prop :=
| r_stream : resolves_to data url (FileOutput (Ok data))
| r_url : resolves_to data url (PyStr url)
| r_first_stream rest : resolves_to data url (PyList (FileOutput (Ok data) :: rest))
| r_first_url rest : resolves_to data url (PyList (PyStr url :: rest)).

(** [GET url] succeeds with the body [data]. *)
Definition get_gives (E : env) (url : string) (data : bytes) : Prop :=
  exists r, requests_get E url = Ok r /\ content r = data /\
            ((400 <=? status_code r) && (status_code r <? 600))%Z = false.

(** The element the code looks at: the head of a list, the value itself
    otherwise. *)
Definition first_element (out : pyobj) : option pyobj :=
  match out with
  | PyList [] => None
  | PyList (x :: _) => Some x
  | _ => Some out
  end.
Definition stream_or_str (o : pyobj) : bool :=
  match o with FileOutput _ | PyStr _ => true | _ => false end.

(** [E] with the provider's answer replaced. *)
Definition with_output (E : env) (out : result pyobj) : env :=
  {| getenv := getenv E; str_float := str_float E; clock := clock E;
     client_run := fun _ _ => out;
     requests_get := requests_get E; Image_open := Image_open E;
     Image_save := Image_save E; boto3_client := boto3_client E;
     s3_upload_file := s3_upload_file E;
     stdout_write := stdout_write E |}.

(** The message test of lines 109 and 111. *)
Definition says_404 (msg : string) : bool := contains "404" msg.
Definition says_401 (msg : string) : bool :=
  contains "401" msg || contains "unauthorized" (lower msg).

(** [m], started in any world, appends events that satisfy [P] to the trace,
    and when it returns a value, the value satisfies [Q]. *)
Definition spec {A} (m : M A) (P : event -> Prop) (Q : A -> Prop) : Prop :=
  forall w, exists evs,
    trace (m w).2 = (trace w ++ evs)%list /\ Forall P evs /\
    forall a, (m w).1 = Ok a -> Q a.

(** [P] lets log lines, HTTP requests and file removals through. *)
Definition quiet (P : event -> Prop) : Prop :=
  (forall m, P (LogInfo m)) /\ (forall m, P (LogError m)) /\
  (forall u, P (HttpGet u)) /\ (forall p, P (FileUnlink p)).

(** What each event of a run with the command line [a] must satisfy, when
    the storage keys the run may derive are those in [keys]. *)
Definition run_ok (a : args) (keys : string -> Prop) (ev : event) : Prop :=
  match ev with
  | ProviderRun model input =>
      model = MODEL_ID /\
      job_description (a_prompt a) (a_steps a) (a_guidance a) (a_seed a)
        (a_width a) (a_height a) "png" = Ok input
  | FileWrite path f =>
      (exists key, keys key /\ path = tmp_path_of key) /\
      if saved_as_png path
      then png_text_ok (a_prompt a) (a_steps a) (a_seed a) (f_text f)
      else f_text f = []
  | S3Upload local_path bucket key extra =>
      keys key /\ local_path = tmp_path_of key /\
      mirror_ok (a_prompt a) (a_steps a) (a_seed a) (Metadata extra)
  | _ => True
  end.

(** [m] leaves the local filesystem as it found it. *)
Definition keeps_fs {A} (m : M A) : Prop := forall w, fs (m w).2 = fs w.

(** No event of the list is a call of [upload_file]. *)
Definition no_upload (ev : event) : Prop :=
  match ev with S3Upload _ _ _ _ => False | _ => True end.

(** How a computation that prints the summary ends: it returns [x], or
    raises what standard output raised for one of the lines. *)
Definition printed {A} (E : env) (x : A) (r : result A) : Prop :=
  r = Ok x \/ exists e text, stdout_write E text = Some e /\ r = Raise e.

(** How a run that started in [w0] can end, seen from the temporary file:
    either [upload_file] was never called and the run failed, or it was
    called once, for the file written at [/tmp/<name of the key>]; then the
    file is removed when the call succeeded, the run returning 0 unless the
    summary could not be printed, and the run fails with the file still in
    place when the call raised. *)
Definition cleanup_outcome (E : env) (a : args) (w0 : world) (r : result Z * world) : Prop :=
  exists evs, trace r.2 = (trace w0 ++ evs)%list /\
    ((uploads evs = [] /\ exists e, r.1 = Raise e) \/
     exists key extra f,
       FileWrite (tmp_path_of key) f ∈ evs /\
       uploads evs = [(tmp_path_of key, key, extra)] /\
       match s3_upload_file E (tmp_path_of key) (default "" (a_bucket a)) key extra with
       | None => printed E 0 r.1 /\ fs r.2 = delete (tmp_path_of key) (fs w0)
       | Some e => r.1 = Raise e /\ fs r.2 = <[tmp_path_of key := f]> (fs w0)
       end).


(** What a line of the environment file assigns, if anything: the key and
    the value, cleaned as the loader cleans them. *)
Definition env_entry (raw : string) : option (string * string) :=
  let line := strip raw in
  if String.eqb line "" || startswith "#" line then None
  else match split_once "=" line with
       | Some (k, v) => Some (strip k, strip_char "'" (strip_char "034" (strip v)))
       | None => None
       end.

(** The value of the first line that assigns [k]. *)
Fixpoint first_entry (k : string) (lines : list string) : option string :=
  match lines with
  | [] => None
  | raw :: rest =>
      match env_entry raw with
      | Some (k', v) => if decide (k' = k) then Some v else first_entry k rest
      | None => first_entry k rest
      end
  end.

(** The first and the last character of a string. *)
Definition first_char (s : string) : option ascii :=
  match s with String c _ => Some c | EmptyString => None end.
Fixpoint last_char (s : string) : option ascii :=
  match s with
  | EmptyString => None
  | String c EmptyString => Some c
  | String _ s' => last_char s'
  end.

(** [drop] holds of neither end of [s]. *)
Definition clean_ends (drop : ascii -> bool) (s : string) : Prop :=
  (forall c, first_char s = Some c -> drop c = false) /\
  (forall c, last_char s = Some c -> drop c = false).

(** The kinds of action a run performs on the world. *)
Definition is_provider_run (ev : event) : bool :=
  match ev with ProviderRun _ _ => true | _ => false end.
Definition is_http_get (ev : event) : bool :=
  match ev with HttpGet _ => true | _ => false end.
Definition is_file_write (ev : event) : bool :=
  match ev with FileWrite _ _ => true | _ => false end.
Definition is_upload (ev : event) : bool :=
  match ev with S3Upload _ _ _ _ => true | _ => false end.
Definition is_unlink (ev : event) : bool :=
  match ev with FileUnlink _ => true | _ => false end.

(** [m] performs no action of the kind [kind], and at most one. *)
Definition none_of (kind : event -> bool) {A} (m : M A) : Prop :=
  spec m (fun ev => kind ev = false) (fun _ => True).
Definition at_most_one (kind : event -> bool) {A} (m : M A) : Prop :=
  forall w, exists evs,
    trace (m w).2 = (trace w ++ evs)%list /\ (length (filter (fun ev => kind ev = true) evs) <= 1)%nat.

(** How many events of a kind a list holds. *)
Definition count_of (kind : event -> bool) (evs : list event) : nat :=
  length (filter (fun ev => kind ev = true) evs).

(** The local filesystem after an event, and after a list of events: a
    write stores the file, a removal deletes it, nothing else counts. *)
Definition fs_step (disk : gmap string file) (ev : event) : gmap string file :=
  match ev with
  | FileWrite p f => <[p := f]> disk
  | FileUnlink p => delete p disk
  | _ => disk
  end.
Definition fs_after (disk : gmap string file) (evs : list event) : gmap string file :=
  foldl fs_step disk evs.

(** The path of the local file an event needs: [upload_file] reads it, a
    removal deletes it. *)
Definition file_used (ev : event) : option string :=
  match ev with
  | S3Upload p _ _ _ | FileUnlink p => Some p
  | _ => None
  end.

(** Along [evs], starting from [disk], every upload and every removal names
    a path that holds a file at that moment. *)
Fixpoint finds_files (disk : gmap string file) (evs : list event) : Prop :=
  match evs with
  | [] => True
  | ev :: rest =>
      match file_used ev with
      | Some p => is_Some (disk !! p)
      | None => True
      end /\ finds_files (fs_step disk ev) rest
  end.

(** An event that neither touches the filesystem nor uploads; an event of
    [upload_to_s3] called for the file at [path]; an event that changes no
    file outside /tmp. *)
Definition inert (ev : event) : Prop :=
  match ev with
  | FileWrite _ _ | FileUnlink _ | S3Upload _ _ _ _ => False
  | _ => True
  end.
Definition uploading (path : string) (ev : event) : Prop :=
  match ev with
  | FileWrite _ _ | FileUnlink _ => False
  | S3Upload p _ _ _ => p = path
  | _ => True
  end.
Definition under_tmp (p : string) : bool :=
  String.eqb p "/tmp" || startswith "/tmp/" p.
Definition tmp_only (ev : event) : Prop :=
  match ev with
  | FileWrite p _ | FileUnlink p => under_tmp p = true
  | _ => True
  end.

(** How the events [evs] of a run stand with the filesystem.  Replayed from
    an empty disk, so that only the files of the run itself count: each
    upload and each removal finds its file; no file outside /tmp is touched;
    when the run got as far as the removal ([removed]) nothing it wrote is
    left, and otherwise every file it wrote is still there. *)
Definition tidy (removed : bool) (evs : list event) : Prop :=
  finds_files ∅ evs /\ Forall tmp_only evs /\
  if removed then fs_after ∅ evs = ∅
  else forall p f, FileWrite p f ∈ evs -> fs_after ∅ evs !! p = Some f.

Definition is_ok {A} (r : result A) : bool :=
  match r with Ok _ => true | Raise _ => false end.

(** Along [evs], [upload_file] was called and returned. *)
Definition uploaded (E : env) (a : args) (evs : list event) : Prop :=
  exists p k x, (p, k, x) ∈ uploads evs /\
    s3_upload_file E p (default "" (a_bucket a)) k x = None.

(** A computation started in [w0] ends in [r]: the filesystem it leaves is
    the one its file events produce, its events are tidy, and it got as far
    as the removal exactly when [upload_file] returned, which it did in
    every run that returns. *)
Definition disk_outcome {A} (E : env) (a : args) (w0 : world) (r : result A * world)
  : Prop :=
  exists evs removed, trace r.2 = (trace w0 ++ evs)%list /\
    fs r.2 = fs_after (fs w0) evs /\ tidy removed evs /\
    (is_ok r.1 = true -> removed = true) /\
    (removed = true <-> uploaded E a evs).

(** The command line [a] with the [--public] flag set to [b]. *)
Definition with_public (a : args) (b : bool) : args :=
  {| a_bucket := a_bucket a; a_prompt := a_prompt a; a_key := a_key a;
     a_organized := a_organized a; a_steps := a_steps a; a_guidance := a_guidance a;
     a_seed := a_seed a; a_width := a_width a; a_height := a_height a;
     a_region := a_region a; a_public := b |}.

(** An event that is a log line. *)
Definition is_log (ev : event) : bool :=
  match ev with LogInfo _ | LogError _ => true | _ => false end.

(** Two worlds that differ by log lines at most. *)
Definition same_but_logs (w w' : world) : Prop :=
  fs w = fs w' /\ ticks w = ticks w' /\
  filter (fun ev => is_log ev = false) (trace w) =
  filter (fun ev => is_log ev = false) (trace w').

(** Two outcomes whose worlds differ by log lines at most, and whose results
    are the same once the standard output accepts every text. *)
Definition same_when_printed {A} (E : env) (r r' : A * world) : Prop :=
  same_but_logs r.2 r'.2 /\
  ((forall text, stdout_write E text = None) -> r.1 = r'.1).

(** [m] does not read the clock. *)
Definition keeps_ticks {A} (m : M A) : Prop := forall w, ticks (m w).2 = ticks w.

(** How many times the choice of the storage key reads the clock. *)
Definition key_reads (a : args) : nat :=
  if truthy_str (a_key a) then 0 else if a_organized a then 2 else 1.

(** [key] is the storage key chosen at the [n]-th read of the clock. *)
Definition derived_key (E : env) (a : args) (n : nat) (key : string) : Prop :=
  forall w, ticks w = n -> (determine_s3_key E a w).1 = Ok key.

(** What a computation that started in [w0] owes to the clock, when the run
    it belongs to started at the [n]-th read: the stamp of an image written
    as PNG comes from that read (a file of another format has no text at
    all), the stamp of the object uploaded from the read after the key was
    chosen, and a computation that returns has read the clock twice more;
    the key, chosen at the read after the first, names the file written and
    the object uploaded. *)
Definition stamps_outcome (E : env) (a : args) (n : nat) (w0 : world)
    (r : result Z * world) : Prop :=
  exists evs, trace r.2 = (trace w0 ++ evs)%list /\
    (forall p f, FileWrite p f ∈ evs ->
       if saved_as_png p
       then text_values "generated_at" (f_text f) = [isoformat (clock E n)]
       else f_text f = []) /\
    (forall p k x, (p, k, x) ∈ uploads evs ->
       Metadata x !! "generated-at" = Some (isoformat (clock E (n + 1 + key_reads a)))) /\
    (is_ok r.1 = true -> ticks r.2 = (n + 3 + key_reads a)%nat) /\
    (forall p f, FileWrite p f ∈ evs ->
       exists key, derived_key E a (S n) key /\ p = tmp_path_of key) /\
    (forall p k x, (p, k, x) ∈ uploads evs ->
       derived_key E a (S n) k /\ p = tmp_path_of k).

(** The bytes a provider answer carries: those of the stream it holds
    first, or the body of the response to fetching the URL it holds first,
    when the status of that response is no HTTP error. *)
Definition payload_of (E : env) (out : pyobj) (data : bytes) : Prop :=
  first_element out = Some (FileOutput (Ok data)) \/
  exists url r,
    first_element out = Some (PyStr url) /\ requests_get E url = Ok r /\
    ~ (400 <= status_code r < 600) /\ content r = data.

(** [img] is what the codec makes of the payload the provider returned for
    the job of the command line [a]. *)
Definition generated_by (E : env) (a : args) (img : image) : Prop :=
  exists input out data,
    job_description (a_prompt a) (a_steps a) (a_guidance a) (a_seed a)
      (a_width a) (a_height a) "png" = Ok input /\
    client_run E MODEL_ID input = Ok out /\
    payload_of E out data /\ Image_open E data = Ok img.

(** A file written holds such an image. *)
Definition writes_generated (E : env) (a : args) (ev : event) : Prop :=
  match ev with
  | FileWrite _ f => generated_by E a (f_image f)
  | _ => True
  end.

(** The names of the text chunks of the image, in the order of the file,
    and the names of the metadata of the stored object. *)
Definition png_keys (seed : option Z) : list string :=
  (["prompt"; "steps"; "guidance_scale"] ++
   (if truthy_int seed then ["seed"] else []) ++
   ["generated_at"; "model"; "generator"])%list.
Definition s3_keys (seed : option Z) : list string :=
  (["prompt"; "steps"; "guidance"; "generated-at"; "model"; "generator"] ++
   (if truthy_int seed then ["seed"] else []))%list.

(** The layout of the text chunks [meta] and of the upload arguments
    [extra], for a guidance written as the text [shown]. *)
Definition png_layout (seed : option Z) (shown : string) (meta : list (string * string))
  : Prop :=
  meta.*1 = png_keys seed /\
  text_values "guidance_scale" meta = [shown] /\
  text_values "model" meta = ["stable-diffusion-3.5-large"] /\
  text_values "generator" meta = ["replicate-client"].
Definition s3_layout (seed : option Z) (shown : string) (extra : extra_args) : Prop :=
  (forall k, is_Some (Metadata extra !! k) <-> k ∈ s3_keys seed) /\
  Metadata extra !! "guidance" = Some shown /\
  Metadata extra !! "model" = Some "stable-diffusion-3.5-large" /\
  Metadata extra !! "generator" = Some "replicate-client" /\
  ContentType extra = "image/png" /\
  CacheControl extra = "public, max-age=31536000".

(** What the events of a run with the command line [a] must satisfy for
    the layout. *)
Definition layout_ok (E : env) (a : args) (ev : event) : Prop :=
  match ev with
  | FileWrite p f =>
      if saved_as_png p
      then png_layout (a_seed a) (str_float E (a_guidance a)) (f_text f)
      else f_text f = []
  | S3Upload _ _ _ extra => s3_layout (a_seed a) (str_float E (a_guidance a)) extra
  | _ => True
  end.

(** * Properties *)

(** ** The logic of [spec] *)

Section SpecRules.
Context {A B : Type} (P : event -> Prop).

Lemma spec_ret (a : A) (Q : A -> Prop) : Q a -> spec (ret a) P Q.
Proof.
  intros Ha w. exists []. simpl. rewrite app_nil_r.
  repeat split; [constructor|]. by intros ? [= <-].
Qed.

Lemma spec_raise (e : exn) (Q : A -> Prop) : spec (raise e) P Q.
Proof.
  intros w. exists []. simpl. rewrite app_nil_r.
  repeat split; [constructor|]. by intros ? [=].
Qed.

Lemma spec_lift (r : result A) (Q : A -> Prop) :
  (forall a, r = Ok a -> Q a) -> spec (lift r) P Q.
Proof.
  intros Hr w. exists []. simpl. rewrite app_nil_r.
  repeat split; [constructor|]. done.
Qed.

Lemma spec_bind (m : M A) (k : A -> M B) (Q1 : A -> Prop) (Q : B -> Prop) :
  spec m P Q1 -> (forall a, Q1 a -> spec (k a) P Q) -> spec (bind m k) P Q.
Proof.
  intros Hm Hk w. unfold bind.
  destruct (Hm w) as (evs & Htr & Hall & Hq).
  destruct (m w) as [[a|e] w1]; simpl in *.
  - destruct (Hk a (Hq a eq_refl) w1) as (evs' & Htr' & Hall' & Hq').
    exists (evs ++ evs')%list. rewrite Htr', Htr, app_assoc.
    repeat split; [by apply Forall_app|done].
  - exists evs. repeat split; [done..|]. by intros ? [=].
Qed.

Lemma spec_weaken (m : M A) (Q1 Q : A -> Prop) :
  spec m P Q1 -> (forall a, Q1 a -> Q a) -> spec m P Q.
Proof.
  intros Hm HQ w. destruct (Hm w) as (evs & ? & ? & Hq).
  exists evs. repeat split; [done..|]. intros a Ha. by apply HQ, Hq.
Qed.

Lemma spec_try_except_Exception (m : M A) (h : exn -> M A) (Q : A -> Prop) :
  spec m P Q -> (forall e, spec (h e) P Q) -> spec (try_except_Exception m h) P Q.
Proof.
  intros Hm Hh w. unfold try_except_Exception.
  destruct (Hm w) as (evs & Htr & Hall & Hq).
  destruct (m w) as [[a|e] w1]; simpl in *.
  - exists evs. repeat split; [done..|]. by intros ? [= <-]; apply Hq.
  - destruct (is_Exception e).
    + destruct (Hh e w1) as (evs' & Htr' & Hall' & Hq').
      exists (evs ++ evs')%list. rewrite Htr', Htr, app_assoc.
      repeat split; [by apply Forall_app|done].
    + exists evs. repeat split; [done..|]. by intros ? [=].
Qed.

Lemma spec_try_except_ClientError (m : M A) (h : string -> exn -> M A) (Q : A -> Prop) :
  spec m P Q -> (forall c e, spec (h c e) P Q) -> spec (try_except_ClientError m h) P Q.
Proof.
  intros Hm Hh w. unfold try_except_ClientError.
  destruct (Hm w) as (evs & Htr & Hall & Hq).
  destruct (m w) as [[a|e] w1]; simpl in *.
  - exists evs. repeat split; [done..|]. by intros ? [= <-]; apply Hq.
  - destruct e as [cls msg|code msg|].
    + exists evs. repeat split; [done..|]. by intros ? [=].
    + destruct (Hh code (ClientError code msg) w1) as (evs' & Htr' & Hall' & Hq').
      exists (evs ++ evs')%list. rewrite Htr', Htr, app_assoc.
      repeat split; [by apply Forall_app|done].
    + exists evs. repeat split; [done..|]. by intros ? [=].
Qed.

End SpecRules.

Lemma spec_lift_err (P : event -> Prop) (o : option exn) :
  spec (lift_err o) P (fun _ => True).
Proof.
  intros w. exists []. unfold lift_err. rewrite app_nil_r.
  destruct o; simpl; repeat split; constructor.
Qed.

Lemma spec_emit (P : event -> Prop) (ev : event) :
  P ev -> spec (emit ev) P (fun _ => True).
Proof.
  intros Hev w. exists [ev]. simpl. repeat split. by constructor.
Qed.

Lemma spec_now (P : event -> Prop) (E : env) :
  spec (now E) P (fun t => exists n, t = clock E n).
Proof.
  intros w. exists []. simpl. rewrite app_nil_r.
  repeat split; [constructor|]. intros ? [= <-]. eauto.
Qed.

Lemma spec_save_image (P : event -> Prop) E img path meta :
  P (FileWrite path {| f_image := img;
                       f_text := if saved_as_png path then meta else [] |}) ->
  spec (save_image E img path meta) P (fun _ => True).
Proof.
  intros Hev w. unfold save_image. destruct (Image_save E img path meta); simpl.
  - exists []. rewrite app_nil_r. repeat split. constructor.
  - eexists [_]. repeat split. by constructor.
Qed.

Lemma spec_unlink (P : event -> Prop) path :
  P (FileUnlink path) -> spec (unlink path) P (fun _ => True).
Proof.
  intros Hev w. unfold unlink. destruct (fs w !! path); simpl.
  - eexists [_]. repeat split. by constructor.
  - exists []. rewrite app_nil_r. repeat split. constructor.
Qed.

Ltac spec_leaf :=
  first [ apply spec_lift_err | apply spec_emit | apply spec_now
        | apply spec_save_image | apply spec_unlink ].

(** One step through a computation.  A bind leaves the postcondition of
    its first part open, unless that part branches (then it is [True]); an
    open postcondition is settled by the leaf that meets it; a tail is
    weakened to the postcondition asked for. *)
Ltac spec_step :=
  lazymatch goal with
  | |- spec (bind (if _ then _ else _) _) _ _ =>
      eapply spec_bind with (Q1 := fun _ => True); [|intros ? _]
  | |- spec (bind (match _ with _ => _ end) _) _ _ =>
      eapply spec_bind with (Q1 := fun _ => True); [|intros ? _]
  | |- spec (bind _ _) _ _ => eapply spec_bind; [|intros ? ?]
  | |- spec (ret ?a) _ ?Q =>
      tryif is_evar Q
      then first [ apply (spec_ret _ a (fun x => x = a) eq_refl)
                 | apply (spec_ret _ a (fun _ => True) I) ]
      else apply spec_ret
  | |- spec (raise _) _ _ => apply spec_raise
  | |- spec (lift ?r) _ ?Q =>
      tryif is_evar Q
      then first [ apply (spec_lift _ r (fun a => r = Ok a) (fun _ H => H))
                 | apply (spec_lift _ r (fun _ => True) (fun _ _ => I)) ]
      else apply spec_lift
  | |- spec (if ?b then _ else _) _ _ => destruct b eqn:?
  | |- spec (match ?x with _ => _ end) _ _ => destruct x eqn:?
  | |- spec _ _ ?Q => tryif is_evar Q then spec_leaf
                      else (eapply spec_weaken; [spec_leaf|])
  end.

(** ** Strings *)




(** ** The metadata builders *)

Lemma text_values_app k l1 l2 :
  text_values k (l1 ++ l2) = (text_values k l1 ++ text_values k l2)%list.
Proof. unfold text_values. by rewrite filter_app, fmap_app. Qed.

Lemma text_values_add_text k meta key value :
  text_values k (add_text meta key value) =
  (text_values k meta ++ (if decide (key = k) then [value] else []))%list.
Proof.
  unfold add_text. rewrite text_values_app. f_equal.
  unfold text_values. rewrite filter_cons. simpl. by case_decide.
Qed.

Lemma truthy_int_seed_text seed :
  seed_text seed = if truthy_int seed then Some (str_int (default 0 seed)) else None.
Proof.
  destruct seed as [n|]; simpl; [|done].
  case_decide as Hn; [by subst|]. by apply Z.eqb_neq in Hn as ->.
Qed.

Lemma add_metadata_to_image_spec P E img prompt steps guidance seed :
  spec (add_metadata_to_image E img prompt steps guidance seed) P
       (fun r => r.1 = img /\ png_text_ok prompt steps seed r.2).
Proof.
  unfold add_metadata_to_image. repeat spec_step.
  split; [done|]. unfold png_text_ok. simpl.
  rewrite truthy_int_seed_text.
  destruct (truthy_int seed); rewrite !text_values_add_text; simpl;
    repeat case_decide; done.
Qed.

(** ** Decimal numerals *)

Ltac div_lia := zify; Z.to_euclidean_division_equations; lia.

Lemma all_chars_app P s1 s2 :
  all_chars P (s1 +:+ s2) = all_chars P s1 && all_chars P s2.
Proof.
  induction s1 as [|c s1 IH]; [done|].
  change (String c s1 +:+ s2) with (String c (s1 +:+ s2)).
  simpl. by rewrite IH, andb_assoc.
Qed.

Lemma all_chars_impl (P Q : ascii -> bool) s :
  (forall c, P c = true -> Q c = true) -> all_chars P s = true -> all_chars Q s = true.
Proof.
  intros HPQ. induction s as [|c s IH]; simpl; [done|].
  rewrite !andb_true_iff. intros [Hc Hs]. auto.
Qed.

(** A property of the ten digits is checked on each of them. *)
Lemma below_ten (P : Z -> Prop) n :
  0 <= n < 10 -> Forall P (Z.of_nat <$> seq 0 10) -> P n.
Proof.
  intros Hn Hall. rewrite Forall_forall in Hall. apply Hall.
  apply list_elem_of_fmap. exists (Z.to_nat n). split; [lia|].
  apply elem_of_seq. lia.
Qed.

Ltac by_digit n :=
  pattern n; apply below_ten; [done|]; repeat (constructor; [reflexivity|]); constructor.

Lemma pretty_N_char_digit (x : N) :
  (x < 10)%N -> pretty_N_char x = digit (Z.of_N x).
Proof.
  intros Hx. rewrite <- (N2Z.id x) at 1.
  assert (0 <= Z.of_N x < 10) as Hn by lia. revert Hn.
  generalize (Z.of_N x). intros n Hn. by_digit n.
Qed.

Lemma digit_is_digit n : 0 <= n < 10 -> is_digit (digit n) = true.
Proof. intros Hn. by_digit n. Qed.

(** One digit leaves the accumulator loop of the printer. *)
Lemma pretty_N_go_unroll (x : N) s :
  (0 < x)%N ->
  pretty_N_go x s = pretty_N_go (x `div` 10) (String (digit (Z.of_N x `mod` 10)) s).
Proof.
  intros Hx. rewrite pretty_N_go_step by done. do 2 f_equal.
  rewrite pretty_N_char_digit by (apply N.mod_lt; lia). f_equal. div_lia.
Qed.

Lemma pretty_N_go_digits (x : N) s :
  all_chars is_digit s = true -> all_chars is_digit (pretty_N_go x s) = true.
Proof.
  revert s. induction (N.lt_wf_0 x) as [x _ IH]. intros s Hs.
  destruct (decide (x = 0)%N) as [->|Hx]; [done|].
  rewrite pretty_N_go_unroll by lia. apply IH; [div_lia|].
  simpl. rewrite Hs, digit_is_digit; [done|div_lia].
Qed.

Lemma str_int_digits n : 0 <= n -> all_chars is_digit (str_int n) = true.
Proof.
  intros Hn. unfold str_int, pretty, pretty_Z. destruct n as [|p|p]; [done| |lia].
  unfold pretty, pretty_positive, pretty, pretty_N.
  rewrite decide_False by done. by apply pretty_N_go_digits.
Qed.

Lemma str_int_small n :
  0 <= n < 10 -> str_int n = String (digit n) "".
Proof. intros Hn. by_digit n. Qed.

Lemma str_int_pos_go n : 0 < n -> str_int n = pretty_N_go (Z.to_N n) "".
Proof.
  intros Hn. unfold str_int, pretty, pretty_Z. destruct n as [|p|p]; [lia| |lia].
  unfold pretty, pretty_positive, pretty, pretty_N.
  by rewrite decide_False by done.
Qed.

Lemma str_int_dec2 n : 10 <= n < 100 -> str_int n = dec2 n.
Proof.
  intros Hn. rewrite str_int_pos_go by lia.
  rewrite 2!pretty_N_go_unroll by div_lia.
  replace ((Z.to_N n `div` 10) `div` 10)%N with 0%N by div_lia.
  rewrite pretty_N_go_0. unfold dec2.
  repeat (apply (f_equal2 String); [apply (f_equal digit); div_lia|]). done.
Qed.

Lemma str_int_dec4 n : 1000 <= n < 10000 -> str_int n = dec4 n.
Proof.
  intros Hn. rewrite str_int_pos_go by lia.
  rewrite 4!pretty_N_go_unroll by div_lia.
  replace ((((Z.to_N n `div` 10) `div` 10) `div` 10) `div` 10)%N with 0%N by div_lia.
  rewrite pretty_N_go_0. unfold dec4, dec2.
  repeat (apply (f_equal2 String); [apply (f_equal digit); div_lia|]). done.
Qed.

Lemma zfill_dec2 n : 0 <= n < 100 -> zfill 2 (str_int n) = dec2 n.
Proof.
  intros Hn. destruct (decide (n < 10)) as [Hs|Hs].
  - rewrite str_int_small by lia. unfold zfill, dec2. simpl.
    replace (n `div` 10) with 0 by div_lia.
    by replace (n `mod` 10) with n by div_lia.
  - by rewrite str_int_dec2 by lia.
Qed.

Lemma strftime_Ymd_date_text d : valid_date d -> strftime_Ymd d = date_text d.
Proof.
  intros (Hy & Hm & Hd). unfold strftime_Ymd, strftime_Y, strftime_m, strftime_d, date_text.
  by rewrite str_int_dec4, !zfill_dec2 by lia.
Qed.

Lemma same_date_strftime a b :
  same_date a b ->
  strftime_Y a = strftime_Y b /\ strftime_m a = strftime_m b /\
  strftime_d a = strftime_d b /\ strftime_Ymd a = strftime_Ymd b.
Proof.
  intros (Hy & Hm & Hd). unfold strftime_Ymd, strftime_Y, strftime_m, strftime_d.
  by rewrite Hy, Hm, Hd.
Qed.

(** ** The aspect ratio and the job description *)

Lemma gcd_guard_pos w h : 0 < Z.gcd (Z.max w 1) (Z.max h 1).
Proof.
  pose proof (Z.gcd_nonneg (Z.max w 1) (Z.max h 1)).
  destruct (decide (Z.gcd (Z.max w 1) (Z.max h 1) = 0)) as [H0|]; [|lia].
  apply Z.gcd_eq_0_l in H0. lia.
Qed.

Lemma aspect_ratio_total w h :
  let g := Z.gcd (Z.max w 1) (Z.max h 1) in
  aspect_ratio w h = Ok (str_int (w `div` g) +:+ ":" +:+ str_int (h `div` g)).
Proof.
  intros g. unfold aspect_ratio, floordiv. fold g.
  pose proof (gcd_guard_pos w h). by rewrite !decide_False by (subst g; lia).
Qed.

Lemma aspect_ratio_pos w h :
  0 < w -> 0 < h ->
  aspect_ratio w h =
  Ok (str_int (w `div` Z.gcd w h) +:+ ":" +:+ str_int (h `div` Z.gcd w h)).
Proof.
  intros Hw Hh. rewrite aspect_ratio_total.
  by rewrite !Z.max_l by lia.
Qed.

Lemma aspect_ratio_scale w h k :
  0 < w -> 0 < h -> 0 < k -> (k | w) -> (k | h) ->
  aspect_ratio (w `div` k) (h `div` k) = aspect_ratio w h.
Proof.
  intros Hw Hh Hk [a ->] [b ->].
  rewrite !Z.div_mul by lia.
  assert (0 < a) by nia. assert (0 < b) by nia.
  rewrite !aspect_ratio_pos by nia.
  rewrite (Z.mul_comm a k), (Z.mul_comm b k).
  rewrite Z.gcd_mul_mono_l_nonneg by lia.
  assert (0 < Z.gcd a b).
  { pose proof (Z.gcd_nonneg a b).
    destruct (decide (Z.gcd a b = 0)) as [Hg|]; [|lia].
    apply Z.gcd_eq_0_l in Hg. lia. }
  by rewrite !Z.div_mul_cancel_l by lia.
Qed.

Lemma job_description_total prompt steps guidance seed w h fmt :
  exists input, job_description prompt steps guidance seed w h fmt = Ok input.
Proof.
  unfold job_description. rewrite aspect_ratio_total. eauto.
Qed.

Lemma job_description_lookup prompt steps guidance seed w h fmt ar input :
  aspect_ratio w h = Ok ar ->
  job_description prompt steps guidance seed w h fmt = Ok input ->
  input !! "prompt" = Some (VStr prompt) /\
  input !! "cfg" = Some (VFloat guidance) /\
  input !! "output_format" = Some (VStr fmt) /\
  input !! "seed" = VInt <$> seed /\
  input !! "aspect_ratio" = (if decide (ar = "1:1") then None else Some (VStr ar)) /\
  forall k, k ∉ ["prompt"; "cfg"; "output_format"; "seed"; "aspect_ratio"] ->
            input !! k = None.
Proof.
  unfold job_description. intros -> [= <-].
  destruct (String.eqb_spec ar "1:1") as [->|Hne], seed as [s|]; simpl;
    rewrite ?decide_True, ?decide_False by done;
    repeat split; try by simplify_map_eq.
  all: intros k Hk; repeat (apply not_elem_of_cons in Hk as [? Hk]);
    by simplify_map_eq.
Qed.

(** ** One specification per function *)

Lemma upload_to_s3_spec P E local_path bucket key prompt steps guidance seed region public :
  quiet P ->
  (forall extra, mirror_ok prompt steps seed (Metadata extra) ->
                 P (S3Upload local_path bucket key extra)) ->
  spec (upload_to_s3 E local_path bucket key prompt steps guidance seed region public) P
       (fun r => r_prompt r = prompt /\ r_key r = key /\
                 mirror_ok prompt steps seed (r_metadata r)).
Proof.
  intros (Hi & He & _ & _) Hup. unfold upload_to_s3.
  spec_step; [spec_step|]. spec_step; [spec_step|].
  match goal with |- context [Build_extra_args _ ?md _] =>
    assert (mirror_ok prompt steps seed md) as Hmd end.
  { unfold mirror_ok. rewrite truthy_int_seed_text.
    destruct (truthy_int seed); by simplify_map_eq. }
  apply spec_try_except_ClientError.
  - repeat spec_step; auto.
  - intros c e. repeat spec_step; auto.
Qed.

Lemma get_replicate_token_spec P E : spec (get_replicate_token E) P (fun _ => True).
Proof. unfold get_replicate_token. by repeat spec_step. Qed.

Lemma normalize_output_spec P E out :
  quiet P -> spec (normalize_output E out) P (fun _ => True).
Proof.
  intros (Hi & He & Hu & _). unfold normalize_output.
  repeat spec_step; auto.
Qed.

Lemma on_generation_error_spec {A} P e :
  quiet P -> spec (@on_generation_error A e) P (fun _ => True).
Proof.
  intros (Hi & He & Hu & _). unfold on_generation_error.
  repeat spec_step; auto.
Qed.

Lemma generate_image_with_replicate_spec P E prompt steps guidance seed width height fmt :
  quiet P ->
  (forall input, job_description prompt steps guidance seed width height fmt = Ok input ->
                 P (ProviderRun MODEL_ID input)) ->
  spec (generate_image_with_replicate E prompt steps guidance seed width height fmt) P
       (fun _ => True).
Proof.
  intros HP Hjob. unfold generate_image_with_replicate.
  spec_step; [apply get_replicate_token_spec|].
  spec_step; [spec_step|].
  spec_step; [spec_step; apply HP|].
  apply spec_try_except_Exception.
  - spec_step; [spec_step; auto|].
  spec_step; [spec_step|].
    by apply normalize_output_spec.
  - intros e. by apply on_generation_error_spec.
Qed.

Lemma print_summary_spec P E result public :
  spec (print_summary E result public) P (fun _ => True).
Proof. unfold print_summary, print. by repeat spec_step. Qed.

Lemma run_ok_quiet a keys : quiet (run_ok a keys).
Proof. by repeat split. Qed.

Lemma main_body_spec E a keys :
  spec (determine_s3_key E a) (run_ok a keys) keys ->
  spec (main_body E a) (run_ok a keys) (fun _ => True).
Proof.
  intros Hkey. pose proof (run_ok_quiet a keys) as Hq. unfold main_body.
  spec_step; [apply get_replicate_token_spec|].
  spec_step; [by apply generate_image_with_replicate_spec|].
  eapply spec_bind; [apply add_metadata_to_image_spec|].
  intros [img meta] [_ Hpng]. simpl in Hpng.
  eapply spec_bind; [exact Hkey|]. intros key Hk.
  spec_step; [spec_step; split; [by exists key|by destruct (saved_as_png _)]|].
  spec_step; [by spec_step|].
  spec_step; [by apply upload_to_s3_spec|].
  spec_step; [by spec_step|].
  spec_step; [by spec_step|].
  spec_step; [apply print_summary_spec|].
  by spec_step.
Qed.

Lemma main_trace E a keys w :
  spec (determine_s3_key E a) (run_ok a keys) keys ->
  exists evs, trace (main E a w).2 = (trace w ++ evs)%list /\ Forall (run_ok a keys) evs.
Proof.
  intros Hkey. unfold main. destruct (truthy_str (a_bucket a)); simpl.
  2: { exists []. by rewrite app_nil_r. }
  match goal with |- context [main_body E a ?w1] =>
    destruct (main_body_spec E a keys Hkey w1) as (evs & Htr & Hall & _);
    destruct (main_body E a w1) as [[code|e] w2] end; simpl in *.
  - eexists. rewrite Htr, <- !app_assoc. split; [done|].
    apply Forall_app. split; [|done]. destruct (truthy_str (a_region a)); by repeat constructor.
  - destruct e; simpl; eexists; rewrite Htr, <- !app_assoc; (split; [done|]);
      repeat (apply Forall_app; split); try done;
      destruct (truthy_str (a_region a)); by repeat constructor.
Qed.
(** ** Paths *)

Lemma split_nonempty sep s : split sep s <> [].
Proof.
  destruct s as [|c s]; simpl; [done|].
  case_decide; [done|]. by destruct (split sep s).
Qed.

Lemma split_app_sep sep a b :
  split sep (a +:+ String sep b) = (split sep a ++ split sep b)%list.
Proof.
  induction a as [|c a IH].
  - change ("" +:+ String sep b) with (String sep b). simpl.
    by rewrite decide_True.
  - change (String c a +:+ String sep b) with (String c (a +:+ String sep b)).
    simpl. case_decide; [by rewrite IH|].
    rewrite IH. pose proof (split_nonempty sep a).
    by destruct (split sep a).
Qed.

Lemma split_no_sep sep s :
  all_chars (fun c => negb (Ascii.eqb c sep)) s = true -> split sep s = [s].
Proof.
  induction s as [|c s IH]; simpl; [done|].
  rewrite andb_true_iff, negb_true_iff, Ascii.eqb_neq. intros [Hc Hs].
  by rewrite decide_False, IH by done.
Qed.

Lemma last_app_singleton {A} (l : list A) x d : List.last (l ++ [x]) d = x.
Proof. apply List.last_last. Qed.

Lemma name_join dir base :
  file_name base -> Path.name (dir +:+ "/" +:+ base) = base.
Proof.
  intros (Hs & Hne & Hdot). unfold Path.name, Path.parts.
  change (dir +:+ "/" +:+ base) with (dir +:+ String "/" base).
  rewrite split_app_sep, (split_no_sep _ base) by done.
  rewrite filter_app, filter_cons_True, filter_nil by done.
  apply last_app_singleton.
Qed.

Lemma name_base base : file_name base -> Path.name base = base.
Proof.
  intros (Hs & Hne & Hdot). unfold Path.name, Path.parts.
  rewrite (split_no_sep _ base) by done.
  by rewrite filter_cons_True, filter_nil by done.
Qed.

Lemma tmp_path_of_join dir base :
  file_name base -> tmp_path_of (dir +:+ "/" +:+ base) = "/tmp/" +:+ base.
Proof.
  intros Hb. unfold tmp_path_of. rewrite name_join by done.
  destruct Hb as (_ & Hne & _). unfold Path.tmp_joinpath. by rewrite decide_False.
Qed.

Lemma tmp_path_of_base base :
  file_name base -> tmp_path_of base = "/tmp/" +:+ base.
Proof.
  intros Hb. unfold tmp_path_of. rewrite name_base by done.
  destruct Hb as (_ & Hne & _). unfold Path.tmp_joinpath. by rewrite decide_False.
Qed.

Lemma digit_no_slash n : 0 <= n < 10 -> negb (Ascii.eqb (digit n) "/") = true.
Proof. intros Hn. by_digit n. Qed.

Lemma dec2_no_slash n : 0 <= n < 100 -> no_slash (dec2 n) = true.
Proof.
  intros Hn. unfold no_slash, dec2. simpl.
  by rewrite !digit_no_slash by div_lia.
Qed.

Lemma dec4_no_slash n : 0 <= n < 10000 -> no_slash (dec4 n) = true.
Proof.
  intros Hn. unfold no_slash, dec4, dec2. simpl.
  by rewrite !digit_no_slash by div_lia.
Qed.

Lemma flat_key_file_name d : valid_date d -> file_name (flat_key d).
Proof.
  intros (Hy & Hm & Hd). unfold file_name, flat_key, date_text. repeat split; [|done..].
  unfold no_slash. rewrite !all_chars_app.
  fold (no_slash (dec4 (year d))) (no_slash (dec2 (month d))) (no_slash (dec2 (day d))).
  by rewrite dec4_no_slash, !dec2_no_slash by lia.
Qed.
(** ** The storage key *)

Lemma truthy_str_Some k : k <> "" -> truthy_str (Some k) = true.
Proof. intros Hk. simpl. by destruct (String.eqb_spec k ""). Qed.

Lemma truthy_str_false o : truthy_str o = false -> o = None \/ o = Some "".
Proof.
  destruct o as [k|]; simpl; [|by left].
  destruct (String.eqb_spec k ""); [subst; by right|done].
Qed.

Lemma determine_s3_key_explicit E a k w :
  a_key a = Some k -> k <> "" -> determine_s3_key E a w = (Ok k, w).
Proof.
  intros Hk Hne. unfold determine_s3_key. by rewrite Hk, truthy_str_Some.
Qed.

(** The key built from two reads of the clock: the directories come from
    the first, the file name from the second. *)
Lemma create_s3_key_organized_reads E base w :
  (create_s3_key_organized E base w).1 =
  Ok (base +:+ "/" +:+ strftime_Y (clock E (ticks w)) +:+ "/" +:+
      strftime_m (clock E (ticks w)) +:+ "/" +:+ strftime_d (clock E (ticks w)) +:+
      "/" +:+ "sd3" +:+ "_" +:+ strftime_Ymd (clock E (S (ticks w))) +:+ ".png").
Proof. done. Qed.

Lemma create_filename_with_date_today E d prefix w :
  today E d ->
  (create_filename_with_date E prefix w).1 = Ok (prefix +:+ "_" +:+ date_text d +:+ ".png").
Proof.
  intros [Hv Hd]. unfold create_filename_with_date, bind, now, ret. simpl.
  destruct (same_date_strftime _ _ (Hd (ticks w))) as (_ & _ & _ & ->).
  by rewrite strftime_Ymd_date_text.
Qed.

Lemma create_s3_key_organized_today E d w :
  today E d -> (create_s3_key_organized E "images" w).1 = Ok (organized_key d).
Proof.
  intros [Hv Hd]. rewrite create_s3_key_organized_reads.
  destruct (same_date_strftime _ _ (Hd (ticks w))) as (-> & -> & -> & _).
  destruct (same_date_strftime _ _ (Hd (S (ticks w)))) as (_ & _ & _ & ->).
  rewrite strftime_Ymd_date_text by done.
  destruct Hv as (Hy & Hm & Hday).
  unfold strftime_Y, strftime_m, strftime_d.
  by rewrite str_int_dec4, !zfill_dec2 by lia.
Qed.

Lemma determine_s3_key_today E a d w :
  today E d -> (determine_s3_key E a w).1 = Ok (expected_key a d).
Proof.
  intros Hd. unfold determine_s3_key, expected_key.
  destruct (truthy_str (a_key a)) eqn:Hk.
  - destruct (a_key a) as [k|]; [|done]. simpl in *.
    destruct (String.eqb_spec k ""); [done|]. by rewrite decide_False.
  - apply truthy_str_false in Hk as [->| ->]; simpl;
      (destruct (a_organized a);
       [by apply create_s3_key_organized_today
       |by apply (create_filename_with_date_today E d "sd3")]).
Qed.

Lemma determine_s3_key_trace E a w : trace (determine_s3_key E a w).2 = trace w.
Proof.
  unfold determine_s3_key. destruct (truthy_str (a_key a)); [done|].
  by destruct (a_organized a).
Qed.

Lemma determine_s3_key_spec_any P E a :
  spec (determine_s3_key E a) P (fun _ => True).
Proof.
  intros w. exists []. by rewrite determine_s3_key_trace, app_nil_r.
Qed.

Lemma determine_s3_key_spec_today P E a d :
  today E d -> spec (determine_s3_key E a) P (eq (expected_key a d)).
Proof.
  intros Hd w. exists []. rewrite determine_s3_key_trace, app_nil_r.
  repeat split; [done|]. intros k. rewrite (determine_s3_key_today E a d) by done.
  by intros [= <-].
Qed.

Lemma append_assoc (x y z : string) : (x +:+ y) +:+ z = x +:+ (y +:+ z).
Proof.
  induction x as [|c x IH]; [done|].
  change ((String c x +:+ y) +:+ z) with (String c ((x +:+ y) +:+ z)).
  by rewrite IH.
Qed.

Lemma expected_key_dated a d :
  truthy_str (a_key a) = false ->
  exists dir, (expected_key a d = flat_key d \/ expected_key a d = dir +:+ "/" +:+ flat_key d).
Proof.
  intros Hk. unfold expected_key.
  apply truthy_str_false in Hk as [->| ->]; simpl;
    (destruct (a_organized a); [|exists ""; by left]).
  all: exists ("images/" +:+ dec4 (year d) +:+ "/" +:+ dec2 (month d) +:+ "/" +:+ dec2 (day d));
    right; unfold organized_key; by rewrite !append_assoc.
Qed.

(** ** Response normalization *)

Lemma one_payload_resolves data url out :
  one_payload data url out -> resolves_to data url out.
Proof. intros []; constructor. Qed.

Lemma normalize_output_resolves E data url out w :
  get_gives E url data -> resolves_to data url out ->
  (normalize_output E out w).1 = Image_open E data.
Proof.
  intros (r & Hget & Hc & Hst) Hout. unfold normalize_output.
  destruct Hout; unfold bind, ret, lift, emit, raise; simpl;
    rewrite ?Hget, ?Hst, ?Hc; simpl; by destruct (Image_open E data).
Qed.

Lemma normalize_output_other E out fo w :
  first_element out = Some fo -> stream_or_str fo = false ->
  normalize_output E out w =
  (Raise (Exc "RuntimeError" ("Unexpected output type: " +:+ type_repr fo)), w).
Proof.
  intros Hfo Hs. unfold normalize_output.
  destruct out as [data|s|[|x l]|ty]; simplify_eq/=; try done.
  by destruct fo.
Qed.

Lemma normalize_output_empty E w :
  normalize_output E (PyList []) w =
  (Raise (Exc "IndexError" "list index out of range"), w).
Proof. done. Qed.

(** ** The handler of provider errors *)

Lemma on_generation_error_raises {A} e w :
  exists e', (@on_generation_error A e w).1 = Raise e'.
Proof.
  unfold on_generation_error.
  destruct (contains "404" (str_exn e)); [by eexists|].
  destruct (_ || _); by eexists.
Qed.

Lemma try_except_raises {A} (m : M A) h w e :
  (m w).1 = Raise e ->
  (forall e1 w1, exists e', (h e1 w1).1 = Raise e') ->
  exists e', (try_except_Exception m h w).1 = Raise e'.
Proof.
  intros Hm Hh. unfold try_except_Exception.
  destruct (m w) as [[a|e1] w1]; simplify_eq/=.
  destruct (is_Exception e); [apply Hh|by eexists].
Qed.

Lemma token_present E w :
  truthy_str (getenv E "REPLICATE_API_TOKEN") = true ->
  get_replicate_token E w = (Ok (default "" (getenv E "REPLICATE_API_TOKEN")), w).
Proof. intros Ht. unfold get_replicate_token. by rewrite Ht. Qed.

(** A run of the generation step with the token present, as the [try]
    block started in the world after the first log line. *)
Lemma generate_unfold E prompt steps guidance seed width height fmt w input :
  truthy_str (getenv E "REPLICATE_API_TOKEN") = true ->
  job_description prompt steps guidance seed width height fmt = Ok input ->
  generate_image_with_replicate E prompt steps guidance seed width height fmt w =
  try_except_Exception
    (emit (ProviderRun MODEL_ID input) ;;;
     out <- lift (client_run E MODEL_ID input) ;;
     normalize_output E out)
    on_generation_error
    {| fs := fs w; ticks := ticks w;
       trace := trace w ++ [LogInfo ("Generating with cfg=" +:+ str_float E guidance
                                     +:+ ", aspect_ratio=" +:+ shown_aspect_ratio input)] |}.
Proof.
  intros Ht Hjob. unfold generate_image_with_replicate.
  unfold bind at 1. rewrite token_present by done.
  unfold bind at 1, lift at 1. rewrite Hjob.
  by unfold bind at 1, log_info, emit.
Qed.
Lemma on_generation_error_result {A} e w :
  (@on_generation_error A e w).1 =
  if says_404 (str_exn e) then Raise e
  else if says_401 (str_exn e)
       then Raise (Exc "ValueError" "Invalid Replicate token (REPLICATE_API_TOKEN).")
       else Raise e.
Proof.
  unfold on_generation_error, says_404, says_401.
  destruct (contains "404" (str_exn e)); [done|].
  by destruct (_ || _).
Qed.


(** The outcome of the [try] block depends on the outcome of its body only. *)
Lemma try_generation_result {A} (m m' : M A) w w' :
  (m w).1 = (m' w').1 ->
  (try_except_Exception m on_generation_error w).1 =
  (try_except_Exception m' on_generation_error w').1.
Proof.
  intros Hm. unfold try_except_Exception.
  destruct (m w) as [[a|e] w1], (m' w') as [[a'|e'] w1']; simplify_eq/=; [done|].
  destruct (is_Exception e'); [|done].
  by rewrite !on_generation_error_result.
Qed.

Lemma try_generation_ok {A} (m : M A) w a :
  (m w).1 = Ok a -> (try_except_Exception m on_generation_error w).1 = Ok a.
Proof.
  intros Hm. unfold try_except_Exception.
  by destruct (m w) as [[a'|e] w1]; simplify_eq/=.
Qed.

Lemma provider_answer_result E input w :
  ((emit (ProviderRun MODEL_ID input) ;;;
    out <- lift (client_run E MODEL_ID input) ;; normalize_output E out) w).1 =
  match client_run E MODEL_ID input with
  | Ok out => (normalize_output E out
                 {| fs := fs w; ticks := ticks w;
                    trace := trace w ++ [ProviderRun MODEL_ID input] |}).1
  | Raise e => Raise e
  end.
Proof. unfold bind, emit, lift. simpl. by destruct (client_run E MODEL_ID input). Qed.

Lemma generate_no_token E prompt steps guidance seed width height fmt w :
  truthy_str (getenv E "REPLICATE_API_TOKEN") = false ->
  generate_image_with_replicate E prompt steps guidance seed width height fmt w =
  (Raise (Exc "ValueError"
     "Replicate API token not found. Set REPLICATE_API_TOKEN in your .env file or environment."),
   w).
Proof.
  intros Ht. unfold generate_image_with_replicate, bind, get_replicate_token.
  by rewrite Ht.
Qed.

(** Two answers with the same normalization give the same outcome. *)
Lemma generate_same_outcome E prompt steps guidance seed width height fmt w out out' :
  (forall w1, (normalize_output E out w1).1 = (normalize_output E out' w1).1) ->
  (generate_image_with_replicate (with_output E (Ok out))
     prompt steps guidance seed width height fmt w).1 =
  (generate_image_with_replicate (with_output E (Ok out'))
     prompt steps guidance seed width height fmt w).1.
Proof.
  intros Hn.
  destruct (truthy_str (getenv E "REPLICATE_API_TOKEN")) eqn:Ht.
  - destruct (job_description_total prompt steps guidance seed width height fmt)
      as [input Hjob].
    rewrite !(generate_unfold _ _ _ _ _ _ _ _ _ input) by done.
    apply try_generation_result.
    rewrite !provider_answer_result. apply Hn.
  - by rewrite !generate_no_token.
Qed.

Lemma generate_decoded E prompt steps guidance seed width height fmt w out img :
  truthy_str (getenv E "REPLICATE_API_TOKEN") = true ->
  (forall w1, (normalize_output E out w1).1 = Ok img) ->
  (generate_image_with_replicate (with_output E (Ok out))
     prompt steps guidance seed width height fmt w).1 = Ok img.
Proof.
  intros Ht Hn.
  destruct (job_description_total prompt steps guidance seed width height fmt)
    as [input Hjob].
  rewrite (generate_unfold _ _ _ _ _ _ _ _ _ input) by done.
  apply try_generation_ok. rewrite provider_answer_result. apply Hn.
Qed.

Lemma generate_fails E prompt steps guidance seed width height fmt w out e :
  (forall w1, (normalize_output E out w1).1 = Raise e) ->
  exists e', (generate_image_with_replicate (with_output E (Ok out))
                prompt steps guidance seed width height fmt w).1 = Raise e'.
Proof.
  intros Hn.
  destruct (truthy_str (getenv E "REPLICATE_API_TOKEN")) eqn:Ht.
  - destruct (job_description_total prompt steps guidance seed width height fmt)
      as [input Hjob].
    rewrite (generate_unfold _ _ _ _ _ _ _ _ _ input) by done.
    eapply try_except_raises.
    + rewrite provider_answer_result. apply Hn.
    + intros e1 w1. apply on_generation_error_raises.
  - rewrite generate_no_token by done. by eexists.
Qed.


(** ** The temporary file *)

Section KeepsRules.
Context {A B : Type}.

Lemma keeps_ret (a : A) : keeps_fs (ret a).
Proof. done. Qed.
Lemma keeps_raise (e : exn) : keeps_fs (@raise A e).
Proof. done. Qed.
Lemma keeps_lift (r : result A) : keeps_fs (lift r).
Proof. done. Qed.
Lemma keeps_bind (m : M A) (k : A -> M B) :
  keeps_fs m -> (forall a, keeps_fs (k a)) -> keeps_fs (bind m k).
Proof.
  intros Hm Hk w. unfold bind. specialize (Hm w).
  destruct (m w) as [[a|e] w1]; simpl in *; [|done]. by rewrite Hk.
Qed.
Lemma keeps_try_except_Exception (m : M A) h :
  keeps_fs m -> (forall e, keeps_fs (h e)) -> keeps_fs (try_except_Exception m h).
Proof.
  intros Hm Hh w. unfold try_except_Exception. specialize (Hm w).
  destruct (m w) as [[a|e] w1]; simpl in *; [done|].
  destruct (is_Exception e); [|done]. by rewrite Hh.
Qed.
Lemma keeps_try_except_ClientError (m : M A) h :
  keeps_fs m -> (forall c e, keeps_fs (h c e)) -> keeps_fs (try_except_ClientError m h).
Proof.
  intros Hm Hh w. unfold try_except_ClientError. specialize (Hm w).
  destruct (m w) as [[a|[cls msg|code msg|]] w1]; simpl in *; try done.
  by rewrite Hh.
Qed.
End KeepsRules.

Lemma keeps_lift_err o : keeps_fs (lift_err o).
Proof. intros w. unfold lift_err. by destruct o. Qed.
Lemma keeps_emit ev : keeps_fs (emit ev).
Proof. done. Qed.
Lemma keeps_now E : keeps_fs (now E).
Proof. done. Qed.

Ltac keeps_step :=
  lazymatch goal with
  | |- keeps_fs (bind _ _) => apply keeps_bind; [|intros ?]
  | |- keeps_fs (if ?b then _ else _) => destruct b
  | |- keeps_fs (match ?x with _ => _ end) => destruct x
  | |- keeps_fs _ =>
      first [ apply keeps_ret | apply keeps_raise | apply keeps_lift
            | apply keeps_lift_err | apply keeps_emit | apply keeps_now
            | apply keeps_try_except_Exception; [|intros ?]
            | apply keeps_try_except_ClientError; [|intros ? ?] ]
  end.

Lemma generate_keeps_fs E prompt steps guidance seed width height fmt :
  keeps_fs (generate_image_with_replicate E prompt steps guidance seed width height fmt).
Proof.
  unfold generate_image_with_replicate, get_replicate_token, normalize_output,
    on_generation_error, log_info, log_error.
  repeat keeps_step.
Qed.

Lemma add_metadata_keeps_fs E img prompt steps guidance seed :
  keeps_fs (add_metadata_to_image E img prompt steps guidance seed).
Proof. unfold add_metadata_to_image. repeat keeps_step. Qed.

Lemma determine_s3_key_keeps_fs E a : keeps_fs (determine_s3_key E a).
Proof.
  unfold determine_s3_key, create_s3_key_organized, create_filename_with_date.
  repeat keeps_step.
Qed.

Lemma upload_to_s3_keeps_fs E local_path bucket key prompt steps guidance seed region public :
  keeps_fs (upload_to_s3 E local_path bucket key prompt steps guidance seed region public).
Proof. unfold upload_to_s3, log_info, log_error. repeat keeps_step. Qed.

Lemma no_upload_quiet : quiet no_upload.
Proof. by repeat split. Qed.

Lemma uploads_app l1 l2 : uploads (l1 ++ l2) = (uploads l1 ++ uploads l2)%list.
Proof. apply omap_app. Qed.

Lemma no_upload_uploads evs : Forall no_upload evs -> uploads evs = [].
Proof.
  induction 1 as [|ev evs Hev _ IH]; [done|].
  by destruct ev.
Qed.

(** What a call of [upload_to_s3] leaves: either the client could not be
    built and nothing was sent, or [upload_file] was called once and decides
    the outcome. *)
Lemma upload_to_s3_outcome E local_path bucket key prompt steps guidance seed region public w :
  let r := upload_to_s3 E local_path bucket key prompt steps guidance seed region public w in
  exists evs, trace r.2 = (trace w ++ evs)%list /\
    ((uploads evs = [] /\ exists e, r.1 = Raise e) \/
     exists extra, uploads evs = [(local_path, key, extra)] /\
       match s3_upload_file E local_path bucket key extra with
       | None => exists res, r.1 = Ok res
       | Some e => r.1 = Raise e
       end).
Proof.
  cbv zeta. unfold upload_to_s3, bind at 1, lift_err at 1.
  generalize (slice_to 1024 prompt). intros short.
  destruct (boto3_client E region) as [e|]; simpl.
  { exists []. rewrite app_nil_r. split; [done|]. left. eauto. }
  unfold try_except_ClientError, bind, emit, log_info, log_error, lift_err, now, ret, raise.
  simpl.
  match goal with |- context [s3_upload_file E local_path bucket key ?x] =>
    set (extra := x) end.
  destruct (s3_upload_file E local_path bucket key extra) as [e|] eqn:Hup; simpl.
  - destruct e as [cls msg|code msg|]; simpl.
    + eexists. rewrite <- !app_assoc. split; [done|]. right. exists extra.
      by rewrite Hup.
    + destruct (String.eqb code "NoSuchBucket"), (String.eqb code "AccessDenied");
        simpl; eexists; rewrite <- !app_assoc; (split; [done|]); right; exists extra;
        by rewrite Hup.
    + eexists. rewrite <- !app_assoc. split; [done|]. right. exists extra.
      by rewrite Hup.
  - destruct public; simpl; eexists; rewrite <- !app_assoc; (split; [done|]);
      right; exists extra; rewrite Hup; eauto.
Qed.

Lemma cleanup_outcome_raise E a w e : cleanup_outcome E a w (Raise e, w).
Proof. exists []. rewrite app_nil_r. split; [done|]. left. eauto. Qed.

Lemma cleanup_outcome_prefix E a w0 w1 evs1 r :
  fs w1 = fs w0 -> trace w1 = (trace w0 ++ evs1)%list -> Forall no_upload evs1 ->
  cleanup_outcome E a w1 r -> cleanup_outcome E a w0 r.
Proof.
  intros Hfs Htr Hno (evs & Htr' & Hcases).
  exists (evs1 ++ evs)%list. rewrite Htr', Htr, app_assoc. split; [done|].
  rewrite uploads_app, (no_upload_uploads evs1), Hfs in * by done.
  destruct Hcases as [?|(key & extra & f & Hin & Hrest)]; [by left|right].
  exists key, extra, f. split; [|done]. apply elem_of_app. by right.
Qed.

Lemma cleanup_outcome_bind {A} E a (m : M A) (k : A -> M Z) w :
  spec m no_upload (fun _ => True) -> keeps_fs m ->
  (forall x w1, cleanup_outcome E a w1 (k x w1)) ->
  cleanup_outcome E a w (bind m k w).
Proof.
  intros Hm Hfs Hk. unfold bind.
  destruct (Hm w) as (evs1 & Htr & Hno & _). specialize (Hfs w).
  destruct (m w) as [[x|e] w1]; simpl in *.
  - by eapply cleanup_outcome_prefix.
  - eapply cleanup_outcome_prefix; [done..|]. apply cleanup_outcome_raise.
Qed.

Lemma print_summary_outcome E result public w :
  exists r, print_summary E result public w = (r, w) /\ printed E tt r.
Proof.
  unfold print_summary, print, bind, lift_err.
  destruct public;
    repeat (match goal with
            | |- context [match stdout_write E ?t with _ => _ end] =>
                destruct (stdout_write E t) eqn:?
            end; [eexists; split; [done|]; right; eauto|]);
    eexists; (split; [done|]); by left.
Qed.

Lemma print_then_return E result public w :
  exists r, (print_summary E result public ;;; ret 0) w = (r, w) /\ printed E 0 r.
Proof.
  unfold bind at 1.
  destruct (print_summary_outcome E result public w) as (r & -> & [->|(e & t & Ht & ->)]).
  - eexists. split; [done|]. by left.
  - eexists. split; [done|]. right. eauto.
Qed.

Lemma main_body_cleanup E a w : cleanup_outcome E a w (main_body E a w).
Proof.
  pose proof no_upload_quiet as Hq. unfold main_body.
  apply cleanup_outcome_bind;
    [apply get_replicate_token_spec|unfold get_replicate_token; repeat keeps_step|].
  intros _ w1. clear w.
  apply cleanup_outcome_bind;
    [by apply generate_image_with_replicate_spec|apply generate_keeps_fs|].
  intros img0 w2. clear w1.
  apply cleanup_outcome_bind;
    [eapply spec_weaken; [apply add_metadata_to_image_spec|done]
    |apply add_metadata_keeps_fs|].
  intros [img meta] w3. clear w2.
  apply cleanup_outcome_bind;
    [apply determine_s3_key_spec_any|apply determine_s3_key_keeps_fs|].
  intros key w. clear w3.
  unfold bind at 1, save_image.
  destruct (Image_save E img (tmp_path_of key) meta) as [e|];
    [apply cleanup_outcome_raise|].
  unfold bind at 1, log_info at 1, emit. cbn [fst snd fs ticks trace].
  match goal with |- context [FileWrite _ ?f0] => set (f := f0) end.
  match goal with |- cleanup_outcome _ _ _ (bind _ _ ?w1) => set (w' := w1) end.
  unfold bind at 1.
  pose proof (upload_to_s3_keeps_fs E (tmp_path_of key) (default "" (a_bucket a)) key
                (a_prompt a) (a_steps a) (a_guidance a) (a_seed a) (a_region a)
                (a_public a) w') as Hfs.
  destruct (upload_to_s3_outcome E (tmp_path_of key) (default "" (a_bucket a)) key
              (a_prompt a) (a_steps a) (a_guidance a) (a_seed a) (a_region a)
              (a_public a) w') as (evs & Htr & Hcases).
  destruct (upload_to_s3 _ _ _ _ _ _ _ _ _ _ w') as [[res|e] w4];
    cbn [fst snd] in Hfs, Htr, Hcases |- *.
  - destruct Hcases as [[_ [e [=]]]|(extra & Hup & Hcall)].
    destruct (s3_upload_file E _ _ _ extra) as [e|] eqn:Hs3;
      [done|clear Hcall].
    unfold bind at 1, unlink. rewrite Hfs. subst w'. cbn [fs].
    rewrite lookup_insert_eq. unfold bind at 1, log_info, emit. cbn [fs ticks trace].
    match goal with |- cleanup_outcome _ _ _ (bind _ _ ?w1) =>
      destruct (print_then_return E res (a_public a) w1) as (r & -> & Hr) end.
    eexists. cbn [fst snd trace]. rewrite Htr. cbn [trace]. rewrite <- !app_assoc.
    split; [done|].
    right. exists key, extra, f. rewrite !uploads_app, Hup, Hs3.
    split; [apply list_elem_of_here|].
    split; [done|]. split; [done|]. cbn [fs]. by rewrite delete_insert_eq.
  - eexists. cbn [fst snd]. rewrite Htr. subst w'. cbn [trace]. rewrite <- !app_assoc.
    split; [done|].
    destruct Hcases as [[Hup [e' [= ->]]]|(extra & Hup & Hcall)].
    + left. rewrite !uploads_app. simpl. rewrite Hup. eauto.
    + right. exists key, extra, f. rewrite !uploads_app. simpl. rewrite Hup.
      split; [apply list_elem_of_here|]. split; [done|].
      destruct (s3_upload_file E _ _ _ extra) as [e'|]; [|by destruct Hcall].
      simplify_eq. split; [done|]. by rewrite Hfs.
Qed.

(** ** Runs of [main] *)

Lemma elem_of_sent_jobs x evs :
  x ∈ sent_jobs evs -> exists model, ProviderRun model x ∈ evs.
Proof.
  unfold sent_jobs. rewrite list_elem_of_omap. intros (ev & Hin & Hev).
  destruct ev; simplify_eq. eauto.
Qed.

Lemma elem_of_uploads p k x evs :
  (p, k, x) ∈ uploads evs -> exists bucket, S3Upload p bucket k x ∈ evs.
Proof.
  unfold uploads. rewrite list_elem_of_omap. intros (ev & Hin & Hev).
  destruct ev; simplify_eq. eauto.
Qed.

(** Every run, whatever the collaborators answer: the jobs sent, the files
    written and the objects uploaded are those of the command line. *)
Lemma main_run_facts E a keys w :
  spec (determine_s3_key E a) (run_ok a keys) keys ->
  exists evs, trace (main E a w).2 = (trace w ++ evs)%list /\
    (forall x, x ∈ sent_jobs evs ->
       job_description (a_prompt a) (a_steps a) (a_guidance a) (a_seed a)
         (a_width a) (a_height a) "png" = Ok x) /\
    (forall path f, FileWrite path f ∈ evs ->
       (exists key, keys key /\ path = tmp_path_of key) /\
       if saved_as_png path
       then png_text_ok (a_prompt a) (a_steps a) (a_seed a) (f_text f)
       else f_text f = []) /\
    (forall p k x, (p, k, x) ∈ uploads evs ->
       keys k /\ p = tmp_path_of k /\
       mirror_ok (a_prompt a) (a_steps a) (a_seed a) (Metadata x)).
Proof.
  intros Hkey. destruct (main_trace E a keys w Hkey) as (evs & Htr & Hall).
  exists evs. split; [done|]. rewrite Forall_forall in Hall. split; [|split].
  - intros x [model Hin]%elem_of_sent_jobs. by destruct (Hall _ Hin).
  - intros path f Hin. apply (Hall _ Hin).
  - intros p k x [bucket Hin]%elem_of_uploads. apply (Hall _ Hin).
Qed.

Lemma main_run_facts_any E a w :
  exists evs, trace (main E a w).2 = (trace w ++ evs)%list /\
    (forall x, x ∈ sent_jobs evs ->
       job_description (a_prompt a) (a_steps a) (a_guidance a) (a_seed a)
         (a_width a) (a_height a) "png" = Ok x) /\
    (forall path f, FileWrite path f ∈ evs ->
       (exists key, path = tmp_path_of key) /\
       if saved_as_png path
       then png_text_ok (a_prompt a) (a_steps a) (a_seed a) (f_text f)
       else f_text f = []) /\
    (forall p k x, (p, k, x) ∈ uploads evs ->
       p = tmp_path_of k /\
       mirror_ok (a_prompt a) (a_steps a) (a_seed a) (Metadata x)).
Proof.
  destruct (main_run_facts E a (fun _ => True) w) as (evs & Htr & Hj & Hw & Hu).
  { apply determine_s3_key_spec_any. }
  exists evs. split; [done|]. split; [done|]. split.
  - intros path f Hin. destruct (Hw _ _ Hin) as [(key & _ & ->) Hpng].
    split; [by exists key|done].
  - intros p k x Hin. by destruct (Hu _ _ _ Hin) as (_ & ? & ?).
Qed.

Lemma main_run_facts_today E a d w :
  today E d ->
  exists evs, trace (main E a w).2 = (trace w ++ evs)%list /\
    (forall path f, FileWrite path f ∈ evs -> path = tmp_path_of (expected_key a d)) /\
    (forall p k x, (p, k, x) ∈ uploads evs ->
       k = expected_key a d /\ p = tmp_path_of (expected_key a d)).
Proof.
  intros Hd.
  destruct (main_run_facts E a (eq (expected_key a d)) w) as (evs & Htr & Hj & Hw & Hu).
  { by apply determine_s3_key_spec_today. }
  exists evs. split; [done|]. split.
  - intros path f Hin. by destruct (Hw _ _ Hin) as [(key & <- & ->) _].
  - intros p k x Hin. by destruct (Hu _ _ _ Hin) as (<- & ? & _).
Qed.

(** The exit status and the temporary file, for every run. *)
Lemma main_cleanup E a w :
  exists evs, trace (main E a w).2 = (trace w ++ evs)%list /\
    ((uploads evs = [] /\ (main E a w).1 <> 0) \/
     exists key extra f,
       FileWrite (tmp_path_of key) f ∈ evs /\
       uploads evs = [(tmp_path_of key, key, extra)] /\
       match s3_upload_file E (tmp_path_of key) (default "" (a_bucket a)) key extra with
       | None => ((main E a w).1 = 0 \/
                  exists e text, stdout_write E text = Some e /\
                    (main E a w).1 = (if is_Exception e then 1 else 130)) /\
                 fs (main E a w).2 !! tmp_path_of key = None
       | Some e => (main E a w).1 = (if is_Exception e then 1 else 130) /\
                   fs (main E a w).2 !! tmp_path_of key = Some f
       end).
Proof.
  unfold main. destruct (truthy_str (a_bucket a)); simpl.
  2: { exists []. rewrite app_nil_r. split; [done|]. by left. }
  match goal with |- context [main_body E a ?w0] => set (w1 := w0) end.
  assert (cleanup_outcome E a w (main_body E a w1)) as (evs & Htr & Hcases).
  { eapply (cleanup_outcome_prefix E a w w1); [done|done| |apply main_body_cleanup].
    destruct (truthy_str (a_region a)); by repeat constructor. }
  destruct (main_body E a w1) as [[code|e] w2]; simpl in *.
  - exists evs. split; [done|].
    destruct Hcases as [[_ [e [=]]]|(key & extra & f & Hin & Hup & Hcall)].
    right. exists key, extra, f. split; [done|]. split; [done|].
    destruct (s3_upload_file E _ _ _ extra) as [e|]; destruct Hcall as [Hr Hfs];
      [done|].
    rewrite Hfs, lookup_delete_eq. split; [|done]. left.
    by destruct Hr as [[= ->]|(e & t & _ & [=])].
  - set (final := match e with
                  | KeyboardInterrupt => LogInfo "Interrupted by user"
                  | _ => LogError ("Fatal error: " +:+ str_exn e)
                  end).
    exists (evs ++ [final])%list. split.
    { rewrite app_assoc, <- Htr. by destruct e. }
    rewrite uploads_app, (no_upload_uploads [final]), app_nil_r
      by (by destruct e; repeat constructor).
    destruct Hcases as [[Hup _]|(key & extra & f & Hin & Hup & Hcall)];
      [left; split; [done|]; by destruct e|right].
    exists key, extra, f. split; [apply elem_of_app; by left|]. split; [done|].
    destruct (s3_upload_file E _ _ _ extra) as [e'|]; destruct Hcall as [Hr Hfs].
    + simplify_eq. destruct e'; simpl; by rewrite Hfs, lookup_insert_eq.
    + destruct Hr as [[=]|(e' & t & Ht & [= ->])].
      split; [right; exists e', t; split; [done|]; by destruct e'|].
      destruct e'; simpl; by rewrite Hfs, lookup_delete_eq.
Qed.

Lemma str_int_inj a b : str_int a = str_int b -> a = b.
Proof. apply (inj (pretty : Z -> string)). Qed.

Lemma str_int_neg p : str_int (Z.neg p) = String "-" (str_int (Z.pos p)).
Proof. done. Qed.

(** The only way to print ["1:1"] is from the pair (1, 1). *)
Lemma ratio_one_one a b :
  str_int a +:+ ":" +:+ str_int b = "1:1" -> a = 1 /\ b = 1.
Proof.
  intros Heq.
  assert (str_int a = "1" /\ str_int b = "1") as [Ha Hb].
  { destruct a as [|p|p].
    - change (String "0" (":" +:+ str_int b) = "1:1") in Heq. discriminate.
    - pose proof (str_int_digits (Z.pos p) ltac:(lia)) as Hd.
      destruct (str_int (Z.pos p)) as [|c [|c' s]].
      + change (String ":" (str_int b) = "1:1") in Heq. discriminate.
      + change (String c (String ":" (str_int b)) = "1:1") in Heq.
        by injection Heq as -> ->.
      + change (String c (String c' (s +:+ ":" +:+ str_int b)) = "1:1") in Heq.
        injection Heq as -> -> _. discriminate.
    - rewrite str_int_neg in Heq.
      change (String "-" (str_int (Z.pos p) +:+ ":" +:+ str_int b) = "1:1") in Heq.
      discriminate. }
  split; by apply str_int_inj.
Qed.

Lemma sent_jobs_app l1 l2 : sent_jobs (l1 ++ l2) = (sent_jobs l1 ++ sent_jobs l2)%list.
Proof. apply omap_app. Qed.

(** The jobs a call of the generation step sends are the job description
    of its arguments. *)
Lemma generate_sent_jobs E prompt steps guidance seed width height fmt w :
  exists evs,
    trace (generate_image_with_replicate E prompt steps guidance seed width height fmt w).2
    = (trace w ++ evs)%list /\
    forall x, x ∈ sent_jobs evs ->
              job_description prompt steps guidance seed width height fmt = Ok x.
Proof.
  destruct (generate_image_with_replicate_spec
              (fun ev => match ev with
                         | ProviderRun _ x =>
                             job_description prompt steps guidance seed width height fmt = Ok x
                         | _ => True
                         end)
              E prompt steps guidance seed width height fmt) with w
    as (evs & Htr & Hall & _); [by repeat split|done|].
  exists evs. split; [done|]. rewrite Forall_forall in Hall.
  intros x [model Hin]%elem_of_sent_jobs. apply (Hall _ Hin).
Qed.

(** C3. For positive width and height the job description holds the prompt,
    the guidance under "cfg", the output format, the seed exactly when one is
    given and the aspect ratio exactly when it is not "1:1" (which is exactly
    when the image is not square), and nothing else; it is what the provider
    is called with.  The aspect ratio is width:height divided by their gcd,
    so it is in lowest terms and unchanged when both are divided by a common
    divisor. *)
Theorem C3_job_description E prompt steps guidance seed width height fmt w :
  0 < width -> 0 < height ->
  let g := Z.gcd width height in
  let ar := str_int (width `div` g) +:+ ":" +:+ str_int (height `div` g) in
  exists input,
    job_description prompt steps guidance seed width height fmt = Ok input /\
    (exists evs,
       trace (generate_image_with_replicate E prompt steps guidance seed
                width height fmt w).2 = (trace w ++ evs)%list /\
       forall x, x ∈ sent_jobs evs -> x = input) /\
    input !! "prompt" = Some (VStr prompt) /\
    input !! "cfg" = Some (VFloat guidance) /\
    input !! "output_format" = Some (VStr fmt) /\
    input !! "seed" = VInt <$> seed /\
    input !! "aspect_ratio" = (if decide (ar = "1:1") then None else Some (VStr ar)) /\
    (forall k, k ∉ ["prompt"; "cfg"; "output_format"; "seed"; "aspect_ratio"] ->
               input !! k = None) /\
    aspect_ratio width height = Ok ar /\
    Z.gcd (width `div` g) (height `div` g) = 1 /\
    (ar = "1:1" <-> width = height) /\
    (forall k, 0 < k -> (k | width) -> (k | height) ->
       aspect_ratio (width `div` k) (height `div` k) = aspect_ratio width height).
Proof.
  intros Hw Hh g ar.
  destruct (job_description_total prompt steps guidance seed width height fmt)
    as [input Hjob].
  pose proof (aspect_ratio_pos width height Hw Hh) as Har. fold g ar in Har.
  destruct (job_description_lookup _ _ _ _ _ _ _ _ _ Har Hjob)
    as (Hp & Hc & Hf & Hs & Ha & Hdom).
  assert (0 < g) as Hg.
  { subst g. pose proof (Z.gcd_nonneg width height).
    destruct (decide (Z.gcd width height = 0)) as [H0|]; [|lia].
    apply Z.gcd_eq_0_l in H0. lia. }
  exists input. split; [done|]. split.
  { destruct (generate_sent_jobs E prompt steps guidance seed width height fmt w)
      as (evs & Htr & Hsent).
    exists evs. split; [done|]. intros x Hx. apply Hsent in Hx. congruence. }
  do 6 (split; [done|]). split; [done|]. split; [|split].
  - apply Z.gcd_div_gcd; [lia|done].
  - split.
    + intros [H1 H2]%ratio_one_one.
      destruct (Z.gcd_divide_l width height) as [x Hx].
      destruct (Z.gcd_divide_r width height) as [y Hy].
      fold g in Hx, Hy. rewrite Hx, Z.div_mul in H1 by lia.
      rewrite Hy, Z.div_mul in H2 by lia. lia.
    + intros <-. subst ar g. rewrite Z.gcd_diag, Z.abs_eq by lia.
      by rewrite Z.div_same by lia.
  - intros k Hk Hkw Hkh. by apply aspect_ratio_scale.
Qed.

Lemma C3_job_description_witness :
  exists input,
    job_description "a red fox" 28 3.5%float (Some 7) 1920 1080 "png" = Ok input /\
    input !! "aspect_ratio" = Some (VStr "16:9") /\
    input !! "seed" = Some (VInt 7) /\
    aspect_ratio (1920 `div` 120) (1080 `div` 120) = aspect_ratio 1920 1080.
Proof.
  destruct (C3_job_description Sample.E "a red fox" 28 3.5%float (Some 7) 1920 1080 "png"
              Sample.w0 ltac:(lia) ltac:(lia))
    as (input & Hjob & _ & _ & _ & _ & Hseed & Har & _ & _ & _ & _ & Hscale).
  exists input. split; [exact Hjob|]. split; [exact Har|]. split; [exact Hseed|].
  apply Hscale; [lia|by exists 16|by exists 9].
Defined.
(** C4, as stated, fails: with width 0 and height 5 the normalizer raises
    nothing and returns a job description whose aspect ratio is "0:5". *)
Lemma C4_counterexample_zero_width :
  exists input,
    job_description "a red fox" 28 3.5%float None 0 5 "png" = Ok input /\
    input !! "aspect_ratio" = Some (VStr "0:5") /\
    input !! "prompt" = Some (VStr "a red fox").
Proof.
  destruct (job_description_total "a red fox" 28 3.5%float None 0 5 "png")
    as [input Hjob].
  exists input. split; [done|].
  assert (aspect_ratio 0 5 = Ok "0:5") as Har by (vm_compute; reflexivity).
  by destruct (job_description_lookup _ _ _ _ _ _ _ _ _ Har Hjob)
    as (? & _ & _ & _ & ? & _).
Qed.

(** C4, amended. A width or height that is not positive is not rejected:
    each dimension is raised to 1 for the gcd only, so the divisor [g] is
    positive, no division fails, and a job description is returned; its
    aspect ratio, always present, is made of the quotients of the dimensions
    as given by [g]. *)
Theorem C4_non_positive_dimensions prompt steps guidance seed width height fmt :
  width <= 0 \/ height <= 0 ->
  let g := Z.gcd (Z.max width 1) (Z.max height 1) in
  0 < g /\
  exists input,
    job_description prompt steps guidance seed width height fmt = Ok input /\
    input !! "aspect_ratio" =
      Some (VStr (str_int (width `div` g) +:+ ":" +:+ str_int (height `div` g))) /\
    input !! "prompt" = Some (VStr prompt) /\
    input !! "cfg" = Some (VFloat guidance) /\
    input !! "output_format" = Some (VStr fmt) /\
    input !! "seed" = VInt <$> seed.
Proof.
  intros Hneg g. pose proof (gcd_guard_pos width height) as Hg. fold g in Hg.
  split; [done|].
  destruct (job_description_total prompt steps guidance seed width height fmt)
    as [input Hjob].
  pose proof (aspect_ratio_total width height) as Har. cbv zeta in Har. fold g in Har.
  destruct (job_description_lookup _ _ _ _ _ _ _ _ _ Har Hjob)
    as (Hp & Hc & Hf & Hs & Ha & _).
  exists input. repeat (split; [done|]). split; [|done].
  rewrite Ha. rewrite decide_False; [done|].
  intros [H1 H2]%ratio_one_one.
  assert (0 <= width `div` g -> 0 <= width) by (intros; div_lia).
  assert (0 <= height `div` g -> 0 <= height) by (intros; div_lia).
  assert (width `div` g = 1 -> 0 < width) by (intros; div_lia).
  assert (height `div` g = 1 -> 0 < height) by (intros; div_lia).
  lia.
Qed.

Lemma C4_non_positive_dimensions_witness :
  exists input,
    job_description "a red fox" 28 3.5%float None (-4) 6 "png" = Ok input /\
    input !! "aspect_ratio" = Some (VStr "-4:6").
Proof.
  destruct (C4_non_positive_dimensions "a red fox" 28 3.5%float None (-4) 6 "png"
              ltac:(lia)) as (_ & input & Hjob & Har & _).
  exists input. split; [exact Hjob|exact Har].
Defined.


(** C2, as stated, fails: a list of two streams is none of the three shapes,
    yet it is no error; the first stream is decoded and the second one is
    never looked at. *)
Lemma C2_counterexample_two_streams :
  let out := PyList [FileOutput (Ok Sample.png); FileOutput (Ok Sample.png')] in
  (forall data url, ~ one_payload data url out) /\
  (generate_image_with_replicate (Sample.E_out (Ok out))
     "a red fox" 28 3.5%float None 1024 1024 "png" Sample.w0).1
  = Ok {| im_size := (1024, 1024); im_pixels := Sample.png |}.
Proof.
  split.
  - intros data url Hshape. inversion Hshape.
  - vm_compute. reflexivity.
Qed.

(** C2, amended. The payload is resolved from the provider's value itself,
    or from the first element when the value is a list (what follows the
    first element is ignored).  A stream holding [data], and a URL string
    whose GET succeeds with [data], whether bare or first in a list, all
    give the outcome of decoding [data], hence the same image.  When the
    element looked at is neither a stream nor a string, normalization raises
    a RuntimeError naming its type, and the generation step fails. *)
Theorem C2_response_normalization E prompt steps guidance seed width height fmt
    data url out out' w :
  get_gives E url data ->
  resolves_to data url out -> resolves_to data url out' ->
  (forall w1, (normalize_output E out w1).1 = Image_open E data) /\
  (generate_image_with_replicate (with_output E (Ok out))
     prompt steps guidance seed width height fmt w).1 =
  (generate_image_with_replicate (with_output E (Ok out'))
     prompt steps guidance seed width height fmt w).1 /\
  (forall img, truthy_str (getenv E "REPLICATE_API_TOKEN") = true ->
               Image_open E data = Ok img ->
     (generate_image_with_replicate (with_output E (Ok out))
        prompt steps guidance seed width height fmt w).1 = Ok img) /\
  (forall other fo, first_element other = Some fo -> stream_or_str fo = false ->
     (forall w1, normalize_output E other w1 =
        (Raise (Exc "RuntimeError" ("Unexpected output type: " +:+ type_repr fo)), w1)) /\
     exists e, (generate_image_with_replicate (with_output E (Ok other))
                  prompt steps guidance seed width height fmt w).1 = Raise e).
Proof.
  intros Hget Hout Hout'.
  split; [|split; [|split]].
  - intros w1. by apply (normalize_output_resolves E data url).
  - apply generate_same_outcome. intros w1.
    by rewrite !(normalize_output_resolves E data url).
  - intros img Ht Himg. apply generate_decoded; [done|].
    intros w1. by rewrite (normalize_output_resolves E data url).
  - intros other fo Hfo Hs. split.
    + intros w1. by apply normalize_output_other.
    + eapply generate_fails. intros w1.
      by rewrite (normalize_output_other E other fo).
Qed.

Lemma C2_response_normalization_witness :
  (generate_image_with_replicate
     (with_output Sample.E (Ok (PyStr "https://replicate.delivery/out-0.png")))
     "a red fox" 28 3.5%float None 1024 1024 "png" Sample.w0).1 =
  (generate_image_with_replicate
     (with_output Sample.E (Ok (PyList [FileOutput (Ok Sample.png)])))
     "a red fox" 28 3.5%float None 1024 1024 "png" Sample.w0).1.
Proof.
  refine (proj1 (proj2
    (C2_response_normalization Sample.E "a red fox" 28 3.5%float None 1024 1024 "png"
       Sample.png "https://replicate.delivery/out-0.png"
       (PyStr "https://replicate.delivery/out-0.png") (PyList [FileOutput (Ok Sample.png)])
       Sample.w0 _ (r_url _ _) (r_first_stream _ _ [])))).
  eexists. split; [reflexivity|]. split; reflexivity.
Defined.


Lemma trace_suffix_unique (tr evs evs' : list event) :
  (tr ++ evs)%list = (tr ++ evs')%list -> evs = evs'.
Proof. apply app_inv_head. Qed.

(** ** Runs that return *)

Lemma bind_ok_inv {A B} (m : M A) (k : A -> M B) w c :
  (bind m k w).1 = Ok c ->
  exists x w1, m w = (Ok x, w1) /\ bind m k w = k x w1.
Proof.
  unfold bind. destruct (m w) as [[x|e] w1]; [|done]. intros _. by exists x, w1.
Qed.

Lemma provider_answer_trace E input w :
  exists evs,
    trace ((emit (ProviderRun MODEL_ID input) ;;;
            out <- lift (client_run E MODEL_ID input) ;;
            normalize_output E out) w).2
    = (trace w ++ ProviderRun MODEL_ID input :: evs)%list.
Proof.
  unfold bind at 1, emit.
  match goal with |- context [bind (lift ?r) ?k ?w1] =>
    assert (spec (bind (lift r) k) (fun _ => True) (fun _ => True)) as Hs
      by (eapply spec_bind; [apply (spec_lift _ _ (fun _ => True)); done|];
          intros out _; by apply normalize_output_spec);
    destruct (Hs w1) as (evs & Htr & _)
  end.
  exists evs. rewrite Htr. cbn [trace]. by rewrite <- app_assoc.
Qed.

(** A generation step that returns has called the provider with the job
    description of its arguments. *)
Lemma generate_ok_sent E prompt steps guidance seed width height fmt w img :
  (generate_image_with_replicate E prompt steps guidance seed width height fmt w).1 = Ok img ->
  exists input evs,
    job_description prompt steps guidance seed width height fmt = Ok input /\
    trace (generate_image_with_replicate E prompt steps guidance seed width height fmt w).2
    = (trace w ++ evs)%list /\
    ProviderRun MODEL_ID input ∈ evs.
Proof.
  destruct (truthy_str (getenv E "REPLICATE_API_TOKEN")) eqn:Ht.
  2: { by rewrite generate_no_token. }
  destruct (job_description_total prompt steps guidance seed width height fmt)
    as [input Hjob].
  rewrite (generate_unfold _ _ _ _ _ _ _ _ _ input) by done.
  unfold try_except_Exception.
  match goal with |- context [bind (emit ?ev) ?k ?w1] =>
    destruct (provider_answer_trace E input w1) as (evs & Htr);
    destruct (bind (emit ev) k w1) as [[img'|e] w2]
  end; cbn [fst snd trace] in *.
  - intros _. exists input. eexists. split; [done|]. rewrite Htr, <- !app_assoc.
    split; [done|]. apply elem_of_app. right. apply list_elem_of_here.
  - destruct (is_Exception e); [|done].
    destruct (@on_generation_error_raises image e w2) as [e' He']. congruence.
Qed.

(** A computation whose every event would have to satisfy an absurd
    predicate leaves the trace as it is. *)
Lemma spec_silent {A} (m : M A) (Q : A -> Prop) w :
  spec m (fun _ => False) Q -> trace (m w).2 = trace w.
Proof.
  intros Hm. destruct (Hm w) as (evs & -> & Hall & _).
  destruct Hall as [|ev evs [] _]. apply app_nil_r.
Qed.

(** A run of the body of [main] that returns has done everything, in
    order: the provider was called with the job of the command line, the
    image was written to the temporary path of the key, uploaded from there
    under that key, and removed. *)
Lemma main_body_ok E a w code :
  (main_body E a w).1 = Ok code ->
  code = 0 /\
  exists evs input key f x,
    trace (main_body E a w).2 = (trace w ++ evs)%list /\
    job_description (a_prompt a) (a_steps a) (a_guidance a) (a_seed a)
      (a_width a) (a_height a) "png" = Ok input /\
    ProviderRun MODEL_ID input ∈ evs /\
    FileWrite (tmp_path_of key) f ∈ evs /\
    uploads evs = [(tmp_path_of key, key, x)] /\
    s3_upload_file E (tmp_path_of key) (default "" (a_bucket a)) key x = None /\
    FileUnlink (tmp_path_of key) ∈ evs.
Proof.
  unfold main_body. intros H.
  (* the token *)
  destruct (bind_ok_inv _ _ _ _ H) as (tok & w1 & Htok & Heq).
  rewrite Heq in H |- *. clear Heq.
  assert (trace w1 = trace w) as Htr1.
  { replace w1 with (get_replicate_token E w).2 by (by rewrite Htok).
    apply (spec_silent _ (fun _ => True)), get_replicate_token_spec. }
  (* the image *)
  destruct (bind_ok_inv _ _ _ _ H) as (img0 & w2 & Hgen & Heq).
  rewrite Heq in H |- *. clear Heq.
  destruct (generate_ok_sent E (a_prompt a) (a_steps a) (a_guidance a) (a_seed a)
              (a_width a) (a_height a) "png" w1 img0) as (input & evs1 & Hjob & Htr2 & Hsent).
  { by rewrite Hgen. }
  rewrite Hgen in Htr2. cbn [snd] in Htr2.
  assert (uploads evs1 = []) as Hnone.
  { destruct (generate_image_with_replicate_spec no_upload E (a_prompt a) (a_steps a)
                (a_guidance a) (a_seed a) (a_width a) (a_height a) "png"
                no_upload_quiet (fun _ _ => I) w1) as (evs1' & Htr' & Hno & _).
    rewrite Hgen in Htr'. cbn [snd] in Htr'. rewrite Htr2 in Htr'.
    apply app_inv_head in Htr' as ->. by apply no_upload_uploads. }
  (* its text chunks *)
  destruct (bind_ok_inv _ _ _ _ H) as ([img meta] & w3 & Hmeta & Heq).
  rewrite Heq in H |- *. clear Heq.
  assert (trace w3 = trace w2) as Htr3.
  { replace w3 with (add_metadata_to_image E img0 (a_prompt a) (a_steps a) (a_guidance a)
                       (a_seed a) w2).2 by (by rewrite Hmeta).
    eapply spec_silent, add_metadata_to_image_spec. }
  (* the key *)
  destruct (bind_ok_inv _ _ _ _ H) as (key & w4 & Hkey & Heq).
  rewrite Heq in H |- *. clear Heq.
  assert (trace w4 = trace w3) as Htr4.
  { replace w4 with (determine_s3_key E a w3).2 by (by rewrite Hkey).
    apply determine_s3_key_trace. }
  (* the file *)
  destruct (bind_ok_inv _ _ _ _ H) as ([] & w5 & Hsave & Heq).
  rewrite Heq in H |- *. clear Heq.
  unfold save_image in Hsave.
  destruct (Image_save E img (tmp_path_of key) meta); [done|].
  match type of Hsave with context [FileWrite _ ?f0] => set (f := f0) in Hsave end.
  assert (trace w5 = (trace w4 ++ [FileWrite (tmp_path_of key) f])%list) as Htr5
    by (by injection Hsave as <-).
  assert (fs w5 !! tmp_path_of key = Some f) as Hfs5
    by (injection Hsave as <-; cbn [fs]; by rewrite lookup_insert_eq).
  destruct (bind_ok_inv _ _ _ _ H) as ([] & w6 & Hlog & Heq).
  rewrite Heq in H |- *. clear Heq.
  assert (trace w6 = (trace w5 ++
            [LogInfo ("Image saved temporarily to " +:+ tmp_path_of key)])%list
          /\ fs w6 = fs w5) as [Htr6 Hfs6]
    by (by injection Hlog as <-).
  (* the upload *)
  destruct (bind_ok_inv _ _ _ _ H) as (res & w7 & Hup & Heq).
  rewrite Heq in H |- *. clear Heq.
  pose proof (upload_to_s3_keeps_fs E (tmp_path_of key) (default "" (a_bucket a)) key
                (a_prompt a) (a_steps a) (a_guidance a) (a_seed a) (a_region a)
                (a_public a) w6) as Hfs7.
  destruct (upload_to_s3_outcome E (tmp_path_of key) (default "" (a_bucket a)) key
              (a_prompt a) (a_steps a) (a_guidance a) (a_seed a) (a_region a)
              (a_public a) w6) as (evs2 & Htr7 & Hcases).
  rewrite Hup in Hfs7, Htr7, Hcases. cbn [fst snd] in Hfs7, Htr7, Hcases.
  destruct Hcases as [[_ [e [=]]]|(x & Hx & Hcall)].
  destruct (s3_upload_file E _ _ _ x) as [e|] eqn:Hs3; [done|]. clear Hcall.
  (* the removal *)
  destruct (bind_ok_inv _ _ _ _ H) as ([] & w8 & Hunl & Heq).
  rewrite Heq in H |- *. clear Heq.
  unfold unlink in Hunl. rewrite Hfs7, Hfs6, Hfs5 in Hunl.
  assert (trace w8 = (trace w7 ++ [FileUnlink (tmp_path_of key)])%list) as Htr8
    by (by injection Hunl as <-).
  destruct (bind_ok_inv _ _ _ _ H) as ([] & w9 & Hlog' & Heq).
  rewrite Heq in H |- *. clear Heq.
  assert (trace w9 = (trace w8 ++ [LogInfo "Temporary file deleted"])%list) as Htr9
    by (by injection Hlog' as <-).
  (* the summary *)
  destruct (print_then_return E res (a_public a) w9) as (r & Hr & Hprinted).
  rewrite Hr in H |- *. cbn [fst snd] in H |- *. subst r.
  destruct Hprinted as [[= <-]|(e & t & _ & [=])]. split; [done|].
  exists (evs1 ++ [FileWrite (tmp_path_of key) f;
                   LogInfo ("Image saved temporarily to " +:+ tmp_path_of key)] ++
          evs2 ++ [FileUnlink (tmp_path_of key); LogInfo "Temporary file deleted"])%list,
    input, key, f, x.
  split; [rewrite Htr9, Htr8, Htr7, Htr6, Htr5, Htr4, Htr3, Htr2, Htr1; by simplify_list_eq|].
  split; [done|]. rewrite !elem_of_app, !uploads_app, Hx.
  split; [by left|]. split; [right; left; apply list_elem_of_here|].
  split; [|split; [done|]].
  - by rewrite Hnone.
  - right. right. right. apply list_elem_of_here.
Qed.

Lemma main_success E a w :
  (main E a w).1 = 0 ->
  exists evs input key f x,
    trace (main E a w).2 = (trace w ++ evs)%list /\
    job_description (a_prompt a) (a_steps a) (a_guidance a) (a_seed a)
      (a_width a) (a_height a) "png" = Ok input /\
    ProviderRun MODEL_ID input ∈ evs /\
    FileWrite (tmp_path_of key) f ∈ evs /\
    uploads evs = [(tmp_path_of key, key, x)] /\
    s3_upload_file E (tmp_path_of key) (default "" (a_bucket a)) key x = None /\
    FileUnlink (tmp_path_of key) ∈ evs.
Proof.
  unfold main. destruct (truthy_str (a_bucket a)); cbn [negb]; [|done].
  match goal with |- context [main_body E a ?w0] => set (w1 := w0) end.
  pose proof (main_body_ok E a w1) as Hok.
  destruct (main_body E a w1) as [[code|e] w2]; cbn [fst snd] in *.
  2: { by destruct e. }
  intros _. destruct (Hok code eq_refl) as (_ & evs & input & key & f & x & Htr & Hrest).
  set (start := ([LogInfo ("Using bucket: " +:+ default "" (a_bucket a))] ++
                 (if truthy_str (a_region a) then []
                  else [LogInfo "No region via args/env; will fall back to eu-central-1 inside S3 client"]))%list).
  assert (uploads start = []) as Hstart
    by (subst start; by destruct (truthy_str (a_region a))).
  exists (start ++ evs)%list, input, key, f, x.
  split; [rewrite Htr; subst w1 start; cbn [trace]; by rewrite <- !app_assoc|].
  destruct Hrest as (Hjob & Hsent & Hwrite & Hup & Hs3 & Hunl).
  rewrite uploads_app, Hstart, !elem_of_app. auto 10.
Qed.

(** ** Files saved as PNG *)

Lemma last_split_join dir base :
  no_slash base = true -> List.last (split "/" (dir +:+ "/" +:+ base)) "" = base.
Proof.
  intros Hs. change (dir +:+ "/" +:+ base) with (dir +:+ String "/" base).
  rewrite split_app_sep, (split_no_sep _ base) by done. apply last_app_singleton.
Qed.

Lemma rpartition_dot_suffix stem ext :
  all_chars (fun c => negb (Ascii.eqb c ".")) ext = true ->
  Path.rpartition_dot (stem +:+ String "." ext) = Some (stem, String "." ext).
Proof.
  intros Hext.
  assert (Path.rpartition_dot ext = None) as Hnone.
  { induction ext as [|c ext IH]; [done|]. simpl in *.
    apply andb_true_iff in Hext as [Hc Hext]. rewrite IH by done.
    by apply negb_true_iff in Hc as ->. }
  induction stem as [|c stem IH].
  - change ("" +:+ String "." ext) with (String "." ext). simpl. by rewrite Hnone.
  - change (String c stem +:+ String "." ext) with (String c (stem +:+ String "." ext)).
    simpl. by rewrite IH.
Qed.

(** A file in /tmp whose name is a stem with a letter in front, followed
    by [.png], goes to the PNG writer. *)
Lemma saved_as_png_name c stem :
  no_slash (String c stem) = true -> Ascii.eqb c "." = false ->
  saved_as_png ("/tmp/" +:+ String c stem +:+ ".png") = true.
Proof.
  intros Hs Hc. unfold saved_as_png, Path.splitext_ext.
  assert (no_slash (String c stem +:+ ".png") = true) as Hs'
    by (unfold no_slash in *; by rewrite all_chars_app, Hs).
  change ("/tmp/" +:+ String c stem +:+ ".png")
    with ("/tmp" +:+ "/" +:+ (String c stem +:+ ".png")).
  rewrite last_split_join by done.
  change (String c stem +:+ ".png") with (String c stem +:+ String "." "png").
  rewrite rpartition_dot_suffix by done.
  simpl. by rewrite Hc.
Qed.

Lemma flat_key_saved_as_png d :
  valid_date d -> saved_as_png ("/tmp/" +:+ flat_key d) = true.
Proof.
  intros Hd. destruct (flat_key_file_name d Hd) as (Hs & _ & _).
  unfold flat_key in *.
  change ("sd3_" +:+ date_text d +:+ ".png")
    with (String "s" ("d3_" +:+ date_text d) +:+ ".png") in *.
  apply saved_as_png_name; [|done].
  unfold no_slash in *. rewrite all_chars_app in Hs. by apply andb_true_iff in Hs as [? _].
Qed.

(** C1. Where the code departs from the claim: the storage service refuses
    the object (the bucket does not exist), [upload_file] raises, the run
    ends with status 1, and the image written to /tmp before the upload is
    still there. *)
Theorem C1_failed_upload_leaves_tmp_file :
  let E := Sample.E_upload_fails
             (ClientError "NoSuchBucket"
                "An error occurred (NoSuchBucket) when calling the PutObject operation") in
  let r := main E Sample.a Sample.w0 in
  r.1 = 1 /\
  (fst <$> uploads (trace r.2)) = [("/tmp/sd3_2025-10-13.png", "sd3_2025-10-13.png")] /\
  ~ (FileUnlink "/tmp/sd3_2025-10-13.png" ∈ trace r.2) /\
  exists f, fs r.2 !! "/tmp/sd3_2025-10-13.png" = Some f.
Proof.
  cbv zeta. split; [vm_compute; reflexivity|]. split; [vm_compute; reflexivity|].
  split.
  - intros Hin. apply list_elem_of_In in Hin. vm_compute in Hin.
    repeat (destruct Hin as [Hin|Hin]; [discriminate Hin|]). exact Hin.
  - eexists. vm_compute. reflexivity.
Qed.

(** The other exit path of the same run: the upload succeeds, the status is
    0 and the file is gone. *)
Example successful_upload_removes_tmp_file :
  let r := main Sample.E Sample.a Sample.w0 in
  r.1 = 0 /\
  (fst <$> uploads (trace r.2)) = [("/tmp/sd3_2025-10-13.png", "sd3_2025-10-13.png")] /\
  fs r.2 !! "/tmp/sd3_2025-10-13.png" = None.
Proof. cbv zeta. repeat split; vm_compute; reflexivity. Qed.
(** ** The environment file *)

Lemma split_once_contains sep s :
  contains (String sep "") s = true <-> is_Some (split_once sep s).
Proof.
  induction s as [|c s IH]; simpl.
  - split; [done|]. by intros [? ?].
  - destruct (Ascii.eqb_spec c sep) as [->|Hne].
    + rewrite decide_True by done. simpl. split; [by eexists|done].
    + rewrite decide_False by done. simpl. rewrite IH.
      destruct (split_once sep s) as [[k v]|]; split; intros [? ?]; by eexists.
Qed.

(** The loop, one line at a time, in terms of what the line assigns. *)
Lemma load_env_lines_cons putenv raw rest environ :
  load_env_lines putenv (raw :: rest) environ =
  match env_entry raw with
  | None => load_env_lines putenv rest environ
  | Some (k, v) =>
      match environ_setdefault putenv k v environ with
      | (Ok _, environ') => load_env_lines putenv rest environ'
      | (Raise e, environ') => (Raise e, environ')
      end
  end.
Proof.
  unfold env_entry. cbn [load_env_lines]. cbv zeta.
  generalize (strip raw). intros line.
  destruct (String.eqb line "") eqn:He; [done|].
  destruct (startswith "#" line) eqn:Hc; [done|]. cbn [orb negb].
  destruct (contains "=" line) eqn:Heq; cbn [negb].
  - apply split_once_contains in Heq as [[k v] ->]. done.
  - destruct (split_once "=" line) as [[k v]|] eqn:Hs; [|done].
    assert (contains "=" line = true) as Hcon
      by (apply split_once_contains; rewrite Hs; by eexists).
    congruence.
Qed.

Lemma environ_setdefault_keeps putenv k v environ k0 v0 :
  environ !! k0 = Some v0 ->
  (environ_setdefault putenv k v environ).2 !! k0 = Some v0.
Proof.
  intros Hk0. unfold environ_setdefault, environ_set.
  destruct (environ !! k) eqn:Hk; [done|].
  destruct (putenv k v); simpl; [done|].
  rewrite lookup_insert_ne; [done|]. congruence.
Qed.

Lemma load_env_lines_keeps putenv lines environ k0 v0 :
  environ !! k0 = Some v0 ->
  (load_env_lines putenv lines environ).2 !! k0 = Some v0.
Proof.
  revert environ. induction lines as [|raw rest IH]; intros environ Hk0; [done|].
  rewrite load_env_lines_cons. destruct (env_entry raw) as [[k v]|]; [|by apply IH].
  pose proof (environ_setdefault_keeps putenv k v environ k0 v0 Hk0) as Hkeep.
  destruct (environ_setdefault putenv k v environ) as [[[]|e] environ']; simpl in *;
    [by apply IH|done].
Qed.

Lemma load_env_file_result putenv file environ :
  (_load_env_file putenv file environ).2 =
  match file with
  | Present (Ok text) => (load_env_lines putenv (splitlines text) environ).2
  | _ => environ
  end.
Proof.
  unfold _load_env_file. destruct file as [|e0|[text|e]]; simpl;
    [done|done| |by destruct (is_Exception e)].
  destruct (load_env_lines putenv (splitlines text) environ) as [[[]|e] environ']; [done|].
  by destruct (is_Exception e).
Qed.

Lemma load_env_lines_from putenv lines environ k v :
  (load_env_lines putenv lines environ).2 !! k = Some v ->
  environ !! k = Some v \/ exists raw, raw ∈ lines /\ env_entry raw = Some (k, v).
Proof.
  revert environ. induction lines as [|raw rest IH]; intros environ Hk; [by left|].
  rewrite load_env_lines_cons in Hk.
  destruct (env_entry raw) as [[k' v']|] eqn:Hentry.
  - unfold environ_setdefault, environ_set in Hk.
    destruct (environ !! k') eqn:Hk'.
    { destruct (IH _ Hk) as [?|(raw' & Hin & Hraw')]; [by left|right].
      exists raw'. split; [by apply list_elem_of_further|done]. }
    destruct (putenv k' v'); simpl in Hk; [by left|].
    destruct (IH _ Hk) as [Hins|(raw' & Hin & Hraw')].
    + destruct (decide (k' = k)) as [->|Hne].
      * rewrite lookup_insert_eq in Hins. simplify_eq. right.
        exists raw. split; [apply list_elem_of_here|done].
      * rewrite lookup_insert_ne in Hins by done. by left.
    + right. exists raw'. split; [by apply list_elem_of_further|done].
  - destruct (IH _ Hk) as [?|(raw' & Hin & Hraw')]; [by left|right].
    exists raw'. split; [by apply list_elem_of_further|done].
Qed.

Lemma load_env_lines_first putenv lines environ :
  (forall k v, putenv k v = None) ->
  (load_env_lines putenv lines environ).1 = Ok tt /\
  forall k, (load_env_lines putenv lines environ).2 !! k =
            match environ !! k with
            | Some v => Some v
            | None => first_entry k lines
            end.
Proof.
  intros Hput. revert environ. induction lines as [|raw rest IH]; intros environ.
  { split; [done|]. intros k. simpl. by destruct (environ !! k). }
  rewrite load_env_lines_cons. simpl.
  destruct (env_entry raw) as [[k' v']|] eqn:Hentry; [|apply IH].
  unfold environ_setdefault, environ_set. rewrite Hput.
  destruct (environ !! k') eqn:Hk'; simpl.
  - destruct (IH environ) as [Hok Hlook]. split; [done|]. intros k. rewrite Hlook.
    destruct (environ !! k) eqn:Hk; [done|]. rewrite decide_False; [done|congruence].
  - destruct (IH (<[k':=v']> environ)) as [Hok Hlook]. split; [done|]. intros k.
    rewrite Hlook. destruct (decide (k' = k)) as [->|Hne].
    + by rewrite lookup_insert_eq, Hk'.
    + by rewrite lookup_insert_ne by done.
Qed.
Lemma lstrip_by_first drop s c :
  first_char (lstrip_by drop s) = Some c -> drop c = false.
Proof.
  induction s as [|a s IH]; simpl; [done|].
  destruct (drop a) eqn:Ha; [done|]. simpl. by intros [= <-].
Qed.

Lemma rstrip_by_last drop s c :
  last_char (rstrip_by drop s) = Some c -> drop c = false.
Proof.
  induction s as [|a s IH]; simpl; [done|].
  destruct (rstrip_by drop s) as [|b rest] eqn:Hr.
  - destruct (drop a) eqn:Ha; simpl; [done|]. by intros [= <-].
  - cbn [last_char]. exact IH.
Qed.

Lemma rstrip_by_first drop s c :
  (forall a, first_char s = Some a -> drop a = false) ->
  first_char (rstrip_by drop s) = Some c -> first_char s = Some c.
Proof.
  destruct s as [|a s]; simpl; [done|]. intros Ha.
  destruct (rstrip_by drop s) as [|b rest].
  - by rewrite (Ha a eq_refl).
  - done.
Qed.

Lemma strip_by_clean drop s : clean_ends drop (strip_by drop s).
Proof.
  unfold strip_by. split.
  - intros c Hc. apply rstrip_by_first in Hc.
    + by apply lstrip_by_first in Hc.
    + intros a. apply lstrip_by_first.
  - apply rstrip_by_last.
Qed.

Lemma split_once_key sep s k v :
  split_once sep s = Some (k, v) ->
  all_chars (fun c => negb (Ascii.eqb c sep)) k = true /\ s = k +:+ String sep v.
Proof.
  revert k. induction s as [|c s IH]; intros k; simpl; [done|].
  destruct (Ascii.eqb_spec c sep) as [->|Hne].
  - by intros [= <- <-].
  - destruct (split_once sep s) as [[k' v']|]; [|done]. intros [= <- <-].
    destruct (IH k' eq_refl) as [Hall ->]. simpl. rewrite Hall.
    split; [|done]. by apply Ascii.eqb_neq in Hne as ->.
Qed.

Lemma lstrip_by_all_chars P drop s :
  all_chars P s = true -> all_chars P (lstrip_by drop s) = true.
Proof.
  induction s as [|a s IH]; simpl; [done|].
  intros [Ha Hs]%andb_true_iff. destruct (drop a); [by apply IH|].
  simpl. by rewrite Ha, Hs.
Qed.

Lemma rstrip_by_all_chars P drop s :
  all_chars P s = true -> all_chars P (rstrip_by drop s) = true.
Proof.
  induction s as [|a s IH]; simpl; [done|].
  intros [Ha Hs]%andb_true_iff. specialize (IH Hs).
  destruct (rstrip_by drop s) as [|b rest].
  - destruct (drop a); simpl; [done|]. by rewrite Ha.
  - simpl in *. by rewrite Ha, IH.
Qed.

Lemma strip_by_all_chars P drop s :
  all_chars P s = true -> all_chars P (strip_by drop s) = true.
Proof. intros Hs. by apply rstrip_by_all_chars, lstrip_by_all_chars. Qed.

(** X1. Loading the environment file never overwrites or removes a variable
    that is already set, even one set to the empty string, whatever the file
    holds and whatever goes wrong.  No Exception raised while the file is
    read or a variable is assigned gets out; the one Exception that can get
    out is what the test for the file itself raises, since that test stands
    before the [try]; and when the file does not exist nothing is done. *)
Theorem X1_load_env_never_overwrites putenv file environ :
  (forall k v, environ !! k = Some v ->
               (_load_env_file putenv file environ).2 !! k = Some v) /\
  ((_load_env_file putenv file environ).1 = Ok tt \/
   exists e, (_load_env_file putenv file environ).1 = Raise e /\
             (file = Unreachable e \/ is_Exception e = false)) /\
  (file = Missing -> _load_env_file putenv file environ = (Ok tt, environ)) /\
  (forall e, file = Unreachable e ->
             _load_env_file putenv file environ = (Raise e, environ)).
Proof.
  split; [|split; [|split]].
  - intros k v Hk. rewrite load_env_file_result.
    destruct file as [|e0|[text|e]]; try done. by apply load_env_lines_keeps.
  - unfold _load_env_file. destruct file as [|e0|[text|e]]; simpl.
    + by left.
    + right. exists e0. split; [done|]. by left.
    + destruct (load_env_lines putenv (splitlines text) environ) as [[[]|e] environ'];
        [by left|].
      destruct (is_Exception e) eqn:He; [by left|right; exists e; auto].
    + destruct (is_Exception e) eqn:He; [by left|right; exists e; auto].
  - by intros ->.
  - by intros e ->.
Qed.

Lemma load_env_file_from putenv text environ k v :
  (_load_env_file putenv (Present (Ok text)) environ).2 !! k = Some v ->
  environ !! k = Some v \/
  exists raw key value,
    raw ∈ splitlines text /\
    split_once "=" (strip raw) = Some (key, value) /\
    startswith "#" (strip raw) = false /\
    k = strip key /\
    v = strip_char "'" (strip_char "034" (strip value)).
Proof.
  rewrite load_env_file_result. intros Hk.
  apply load_env_lines_from in Hk as [?|(raw & Hin & Hentry)]; [by left|right].
  unfold env_entry in Hentry.
  destruct (String.eqb (strip raw) "") eqn:He; [done|].
  destruct (startswith "#" (strip raw)) eqn:Hc; [done|]. simpl in Hentry.
  destruct (split_once "=" (strip raw)) as [[key value]|] eqn:Hs; [|done].
  simplify_eq. by exists raw, key, value.
Qed.

(** X2. Every variable found after loading either was there before, with
    the same value, or is assigned by a line of the file: the key is what
    stands before the first "=" of the line and the value what stands after
    it, both cleaned of outer white space, the value also of outer double
    and then single quotes. *)
Theorem X2_load_env_provenance putenv text environ k v :
  (_load_env_file putenv (Present (Ok text)) environ).2 !! k = Some v ->
  environ !! k = Some v \/
  exists raw key value,
    raw ∈ splitlines text /\
    split_once "=" (strip raw) = Some (key, value) /\
    startswith "#" (strip raw) = false /\
    k = strip key /\
    v = strip_char "'" (strip_char "034" (strip value)).
Proof. apply load_env_file_from. Qed.

Lemma X2_load_env_provenance_witness :
  exists raw key value,
    raw ∈ splitlines SampleEnv.text /\
    split_once "=" (strip raw) = Some (key, value) /\
    startswith "#" (strip raw) = false /\
    "S3_BUCKET" = strip key /\
    "artipop" = strip_char "'" (strip_char "034" (strip value)).
Proof.
  destruct (X2_load_env_provenance SampleEnv.putenv_ok SampleEnv.text ∅
              "S3_BUCKET" "artipop") as [Hold|Hnew].
  - vm_compute. reflexivity.
  - discriminate Hold.
  - exact Hnew.
Defined.

(** X3. What the loader stores is clean: a key holds no "=" and neither
    starts nor ends with white space, and a value neither starts nor ends
    with a single quote. *)
Theorem X3_load_env_entries_clean putenv text environ k v :
  (_load_env_file putenv (Present (Ok text)) environ).2 !! k = Some v ->
  environ !! k = None ->
  all_chars (fun c => negb (Ascii.eqb c "=")) k = true /\
  clean_ends is_space k /\
  clean_ends (Ascii.eqb "'") v.
Proof.
  intros Hk Hnew.
  apply load_env_file_from in Hk as [?|(raw & key & value & _ & Hs & _ & -> & ->)];
    [congruence|].
  apply split_once_key in Hs as [Hall _].
  split; [by apply strip_by_all_chars|]. split; apply strip_by_clean.
Qed.

Lemma X3_load_env_entries_clean_witness :
  all_chars (fun c => negb (Ascii.eqb c "=")) "REPLICATE_API_TOKEN" = true /\
  clean_ends is_space "REPLICATE_API_TOKEN" /\
  clean_ends (Ascii.eqb "'") "r8_file".
Proof.
  apply (X3_load_env_entries_clean SampleEnv.putenv_ok SampleEnv.text ∅).
  - vm_compute. reflexivity.
  - reflexivity.
Defined.

(** X4. When no assignment fails, loading gives each variable that was not
    set the value of the first line of the file that assigns it; later lines
    for the same key, comments, blank lines and lines without "=" change
    nothing, and set variables keep their value. *)
Theorem X4_load_env_first_wins putenv text environ :
  (forall k v, putenv k v = None) ->
  (_load_env_file putenv (Present (Ok text)) environ).1 = Ok tt /\
  forall k, (_load_env_file putenv (Present (Ok text)) environ).2 !! k =
            match environ !! k with
            | Some v => Some v
            | None => first_entry k (splitlines text)
            end.
Proof.
  intros Hput. destruct (load_env_lines_first putenv (splitlines text) environ Hput)
    as [Hok Hlook].
  split.
  - unfold _load_env_file.
    by destruct (load_env_lines putenv (splitlines text) environ) as [[[]|e] environ'].
  - intros k. by rewrite load_env_file_result.
Qed.

Lemma X4_load_env_first_wins_witness :
  (_load_env_file SampleEnv.putenv_ok (Present (Ok SampleEnv.text))
     {["S3_BUCKET" := "from-shell"]}).2 !! "REPLICATE_API_TOKEN" = Some "r8_file" /\
  (_load_env_file SampleEnv.putenv_ok (Present (Ok SampleEnv.text))
     {["S3_BUCKET" := "from-shell"]}).2 !! "S3_BUCKET" = Some "from-shell".
Proof.
  destruct (X4_load_env_first_wins SampleEnv.putenv_ok SampleEnv.text
              {["S3_BUCKET" := "from-shell"]} (fun _ _ => eq_refl)) as [_ Hlook].
  split; rewrite Hlook; vm_compute; reflexivity.
Defined.

Lemma load_env_lines_app putenv l1 l2 environ environ1 :
  load_env_lines putenv l1 environ = (Ok tt, environ1) ->
  load_env_lines putenv (l1 ++ l2) environ = load_env_lines putenv l2 environ1.
Proof.
  revert environ. induction l1 as [|raw rest IH]; intros environ Hl1.
  { simpl in Hl1. by simplify_eq. }
  change ((raw :: rest) ++ l2)%list with (raw :: (rest ++ l2))%list.
  rewrite load_env_lines_cons in *.
  destruct (env_entry raw) as [[k v]|]; [|by apply IH].
  destruct (environ_setdefault putenv k v environ) as [[[]|e] environ']; [by apply IH|done].
Qed.

(** X5. The loader fails soft, and stops at the failure: when the
    assignment of a line raises an Exception, nothing is raised, the lines
    before it are applied and the lines after it are not. *)
Theorem X5_load_env_stops_at_failure putenv text environ before raw after environ1 k v e :
  splitlines text = (before ++ raw :: after)%list ->
  load_env_lines putenv before environ = (Ok tt, environ1) ->
  env_entry raw = Some (k, v) ->
  environ1 !! k = None ->
  putenv k v = Some e ->
  is_Exception e = true ->
  _load_env_file putenv (Present (Ok text)) environ = (Ok tt, environ1).
Proof.
  intros Hlines Hbefore Hentry Hk Hput He. unfold _load_env_file. rewrite Hlines.
  rewrite (load_env_lines_app _ _ _ _ _ Hbefore), load_env_lines_cons, Hentry.
  unfold environ_setdefault, environ_set. rewrite Hk, Hput. simpl. by rewrite He.
Qed.

Lemma X5_load_env_stops_at_failure_witness :
  _load_env_file SampleEnv.putenv_strict (Present (Ok SampleEnv.broken)) ∅
  = (Ok tt, {["A" := "1"]}).
Proof.
  apply (X5_load_env_stops_at_failure SampleEnv.putenv_strict SampleEnv.broken ∅
           ["A=1"] "=oops" ["B=2"] {["A" := "1"]} "" "oops"
           (Exc "ValueError" "illegal environment variable name"));
    vm_compute; reflexivity.
Defined.
(** ** Start-up *)

Lemma getenv_truthy_Some environ k :
  getenv_truthy environ k = true <-> exists v, environ !! k = Some v /\ v <> "".
Proof.
  unfold getenv_truthy. destruct (environ !! k) as [v|]; simpl.
  - destruct (String.eqb_spec v ""); simpl; split; try done.
    + by intros (? & [= <-] & ?).
    + intros _. by exists v.
  - split; [done|]. by intros (? & ? & _).
Qed.

Lemma environ_set_keeps putenv k v environ k0 v0 :
  environ !! k0 = Some v0 -> k0 <> k ->
  (environ_set putenv k v environ).2 !! k0 = Some v0.
Proof.
  intros Hk0 Hne. unfold environ_set. destruct (putenv k v); simpl; [done|].
  by rewrite lookup_insert_ne.
Qed.

(** A variable survives the shims unless it is one of their two targets
    and was empty. *)
Lemma compatibility_shims_keeps putenv environ k v :
  environ !! k = Some v -> v <> "" \/ (k <> "HUGGINGFACE_HUB_TOKEN" /\ k <> "AWS_REGION") ->
  (compatibility_shims putenv environ).2 !! k = Some v.
Proof.
  intros Hk Hsafe. unfold compatibility_shims.
  assert (forall target source en,
            en !! k = Some v -> target = "HUGGINGFACE_HUB_TOKEN" \/ target = "AWS_REGION" ->
            (if getenv_truthy en source && negb (getenv_truthy en target)
             then environ_set putenv target (default "" (en !! source)) en
             else (Ok tt, en)).2 !! k = Some v) as Hstep.
  { intros target source en Hen Htarget.
    destruct (getenv_truthy en source); simpl; [|done].
    destruct (getenv_truthy en target) eqn:Ht; simpl; [done|].
    apply environ_set_keeps; [done|]. intros ->.
    destruct Hsafe as [Hv|[? ?]]; [|by destruct Htarget].
    assert (getenv_truthy en target = true); [|congruence].
    apply getenv_truthy_Some. by exists v. }
  pose proof (Hstep "HUGGINGFACE_HUB_TOKEN" "HF_TOKEN" environ Hk (or_introl eq_refl)) as H1.
  destruct (if getenv_truthy environ "HF_TOKEN" && _ then _ else _) as [[[]|e] en1];
    cbn [snd] in *; [|done].
  apply (Hstep "AWS_REGION" "AWS_DEFAULT_REGION" en1 H1). by right.
Qed.

Lemma load_env_file_keeps putenv file environ k v :
  environ !! k = Some v -> (_load_env_file putenv file environ).2 !! k = Some v.
Proof.
  intros Hk. rewrite load_env_file_result.
  destruct file as [|e0|[text|e]]; try done. by apply load_env_lines_keeps.
Qed.

Lemma startup_keeps putenv files environ k v :
  environ !! k = Some v -> v <> "" \/ (k <> "HUGGINGFACE_HUB_TOKEN" /\ k <> "AWS_REGION") ->
  (startup putenv files environ).2 !! k = Some v.
Proof.
  intros Hk Hsafe. unfold startup.
  pose proof (environ_setdefault_keeps putenv "HF_HOME" "/opt/hf-cache" environ k v Hk) as H1.
  destruct (environ_setdefault putenv "HF_HOME" "/opt/hf-cache" environ) as [[[]|e] en1];
    simpl in *; [|done].
  set (file := files (getenv_default en1 "ENV_FILE" "secrets.env")).
  pose proof (load_env_file_keeps putenv file en1 k v H1) as H2.
  destruct (_load_env_file putenv file en1) as [[[]|e] en2]; simpl in *; [|done].
  by apply compatibility_shims_keeps.
Qed.

(** X6. Start-up never changes a variable of the process environment that
    is set and not empty; a variable set to the empty string is kept too,
    unless it is HUGGINGFACE_HUB_TOKEN or AWS_REGION, which the shims may
    fill.  This holds whatever the environment file holds and whether or not
    start-up completes. *)
Theorem X6_startup_keeps_environment putenv files environ k v :
  environ !! k = Some v ->
  v <> "" \/ (k <> "HUGGINGFACE_HUB_TOKEN" /\ k <> "AWS_REGION") ->
  (startup putenv files environ).2 !! k = Some v.
Proof. apply startup_keeps. Qed.

Lemma X6_startup_keeps_environment_witness :
  (startup SampleEnv.putenv_ok (SampleEnv.files SampleEnv.text)
     {["S3_BUCKET" := "from-shell"]}).2 !! "S3_BUCKET" = Some "from-shell".
Proof.
  apply (X6_startup_keeps_environment SampleEnv.putenv_ok (SampleEnv.files SampleEnv.text)
           {["S3_BUCKET" := "from-shell"]}).
  - reflexivity.
  - left. discriminate.
Defined.

Lemma shim_step putenv environ source target en' :
  (if getenv_truthy environ source && negb (getenv_truthy environ target)
   then environ_set putenv target (default "" (environ !! source)) environ
   else (Ok tt, environ)) = (Ok tt, en') ->
  source <> target ->
  (getenv_truthy en' source = true -> getenv_truthy en' target = true) /\
  (forall k, k <> target -> en' !! k = environ !! k).
Proof.
  intros Hstep Hne.
  destruct (getenv_truthy environ source) eqn:Hs; simpl in Hstep.
  - destruct (getenv_truthy environ target) eqn:Ht; simpl in Hstep.
    + simplify_eq. split; [done|]. done.
    + unfold environ_set in Hstep.
      destruct (putenv target _); simplify_eq. split.
      * intros _. apply getenv_truthy_Some in Hs as (v & Hv & Hnon).
        apply getenv_truthy_Some. exists v. rewrite Hv. simpl.
        by rewrite lookup_insert_eq.
      * intros k Hk. by rewrite lookup_insert_ne.
  - simplify_eq. split; [|done]. congruence.
Qed.

(** X7. When start-up completes, HF_HOME is set, and the shims have done
    their work: a usable HF_TOKEN comes with a usable HUGGINGFACE_HUB_TOKEN,
    and a usable AWS_DEFAULT_REGION with a usable AWS_REGION (usable: set
    and not empty). *)
Theorem X7_startup_shims putenv files environ environ' :
  startup putenv files environ = (Ok tt, environ') ->
  is_Some (environ' !! "HF_HOME") /\
  (getenv_truthy environ' "HF_TOKEN" = true ->
   getenv_truthy environ' "HUGGINGFACE_HUB_TOKEN" = true) /\
  (getenv_truthy environ' "AWS_DEFAULT_REGION" = true ->
   getenv_truthy environ' "AWS_REGION" = true).
Proof.
  unfold startup. intros Hstart.
  destruct (environ_setdefault putenv "HF_HOME" "/opt/hf-cache" environ)
    as [[[]|e] en1] eqn:Hhome; [|done].
  assert (is_Some (en1 !! "HF_HOME")) as [home Hhome1].
  { unfold environ_setdefault, environ_set in Hhome.
    destruct (environ !! "HF_HOME") eqn:Hh; [by simplify_eq|].
    destruct (putenv "HF_HOME" "/opt/hf-cache"); simplify_eq.
    by rewrite lookup_insert_eq. }
  set (file := files (getenv_default en1 "ENV_FILE" "secrets.env")) in *.
  pose proof (load_env_file_keeps putenv file en1 "HF_HOME" home Hhome1) as Hhome2.
  destruct (_load_env_file putenv file en1) as [[[]|e] en2]; [|done].
  simpl in Hhome2. unfold compatibility_shims in Hstart.
  destruct (if getenv_truthy en2 "HF_TOKEN" && _ then _ else _) as [[[]|e] en3] eqn:H1;
    [|done].
  apply shim_step in H1 as [Hhf Hsame1]; [|done].
  apply shim_step in Hstart as [Haws Hsame2]; [|done].
  split; [|split].
  - rewrite Hsame2, Hsame1 by done. by rewrite Hhome2.
  - unfold getenv_truthy in *. by rewrite !Hsame2 by done.
  - done.
Qed.

Lemma X7_startup_shims_witness :
  getenv_truthy (startup SampleEnv.putenv_ok (SampleEnv.files SampleEnv.text) ∅).2
    "HUGGINGFACE_HUB_TOKEN" = true.
Proof.
  refine (proj1 (proj2 (X7_startup_shims SampleEnv.putenv_ok
                          (SampleEnv.files SampleEnv.text) ∅ _ _)) _);
    vm_compute; reflexivity.
Defined.

Lemma get_replicate_token_environ E environ w :
  get_replicate_token (with_environ E environ) w =
  match environ !! "REPLICATE_API_TOKEN" with
  | Some t => if decide (t = "") then
                (Raise (Exc "ValueError"
                   "Replicate API token not found. Set REPLICATE_API_TOKEN in your .env file or environment."), w)
              else (Ok t, w)
  | None => (Raise (Exc "ValueError"
               "Replicate API token not found. Set REPLICATE_API_TOKEN in your .env file or environment."), w)
  end.
Proof.
  unfold get_replicate_token. simpl.
  destruct (environ !! "REPLICATE_API_TOKEN") as [t|]; simpl; [|done].
  destruct (String.eqb_spec t ""); simpl; [by rewrite decide_True|by rewrite decide_False].
Qed.

(** X8. A token in the process environment decides, whatever the
    environment file says: when it is not empty it is the token the run
    uses; when it is the empty string the file cannot replace it and the
    run stops with the "token not found" ValueError. *)
Theorem X8_token_from_process_environment E putenv files environ t w :
  environ !! "REPLICATE_API_TOKEN" = Some t ->
  get_replicate_token (with_environ E (startup putenv files environ).2) w =
  if decide (t = "") then
    (Raise (Exc "ValueError"
       "Replicate API token not found. Set REPLICATE_API_TOKEN in your .env file or environment."), w)
  else (Ok t, w).
Proof.
  intros Ht. rewrite get_replicate_token_environ.
  by rewrite (startup_keeps putenv files environ _ t Ht) by (right; done).
Qed.

Lemma X8_token_from_process_environment_witness :
  exists e,
    get_replicate_token
      (with_environ Sample.E
         (startup SampleEnv.putenv_ok (SampleEnv.files SampleEnv.text)
            {["REPLICATE_API_TOKEN" := ""]}).2) Sample.w0
    = (Raise e, Sample.w0).
Proof.
  eexists.
  exact (X8_token_from_process_environment Sample.E SampleEnv.putenv_ok
           (SampleEnv.files SampleEnv.text) {["REPLICATE_API_TOKEN" := ""]} ""
           Sample.w0 eq_refl).
Defined.

(** X9. A token that only the environment file gives is the one the run
    uses: with no REPLICATE_API_TOKEN in the process environment and no
    failing assignment, the token is the value of the first line of the file
    (the one ENV_FILE names, secrets.env by default) that assigns it. *)
Theorem X9_token_from_file E putenv files environ text t w :
  (forall k v, putenv k v = None) ->
  environ !! "REPLICATE_API_TOKEN" = None ->
  files (getenv_default environ "ENV_FILE" "secrets.env") = Present (Ok text) ->
  first_entry "REPLICATE_API_TOKEN" (splitlines text) = Some t ->
  t <> "" ->
  get_replicate_token (with_environ E (startup putenv files environ).2) w = (Ok t, w).
Proof.
  intros Hput Hnone Hfile Hfirst Hnon. rewrite get_replicate_token_environ.
  assert ((startup putenv files environ).2 !! "REPLICATE_API_TOKEN" = Some t) as ->;
    [|by rewrite decide_False].
  unfold startup, environ_setdefault, environ_set. rewrite Hput.
  set (en1 := (match environ !! "HF_HOME" with
               | Some _ => (Ok tt, environ)
               | None => (Ok tt, <["HF_HOME":="/opt/hf-cache"]> environ)
               end).2).
  assert (en1 !! "REPLICATE_API_TOKEN" = None /\
          getenv_default en1 "ENV_FILE" "secrets.env" =
          getenv_default environ "ENV_FILE" "secrets.env") as [Hnone1 Hname].
  { subst en1. unfold getenv_default. destruct (environ !! "HF_HOME"); simpl; [done|].
    by rewrite !lookup_insert_ne by done. }
  replace (match environ !! "HF_HOME" with
           | Some _ => (Ok tt, environ)
           | None => (Ok tt, <["HF_HOME":="/opt/hf-cache"]> environ)
           end) with (@Ok unit tt, en1) by (subst en1; by destruct (environ !! "HF_HOME")).
  rewrite Hname, Hfile.
  destruct (load_env_lines_first putenv (splitlines text) en1 Hput) as [Hok Hlook].
  specialize (Hlook "REPLICATE_API_TOKEN"). rewrite Hnone1, Hfirst in Hlook.
  rewrite <- (load_env_file_result putenv (Present (Ok text)) en1) in Hlook.
  assert ((_load_env_file putenv (Present (Ok text)) en1).1 = Ok tt) as Hdone.
  { unfold _load_env_file.
    by destruct (load_env_lines putenv (splitlines text) en1) as [[[]|e] en']. }
  destruct (_load_env_file putenv (Present (Ok text)) en1) as [[[]|e] en2]; [|done].
  apply compatibility_shims_keeps; [done|by right].
Qed.

Lemma X9_token_from_file_witness :
  get_replicate_token
    (with_environ Sample.E
       (startup SampleEnv.putenv_ok (SampleEnv.files SampleEnv.text) ∅).2) Sample.w0
  = (Ok "r8_file", Sample.w0).
Proof.
  apply (X9_token_from_file Sample.E SampleEnv.putenv_ok (SampleEnv.files SampleEnv.text)
           ∅ SampleEnv.text "r8_file" Sample.w0).
  - reflexivity.
  - reflexivity.
  - vm_compute. reflexivity.
  - vm_compute. reflexivity.
  - discriminate.
Defined.
(** ** No action is repeated *)

Section AtMostOne.
Context (kind : event -> bool).

Lemma none_count evs :
  Forall (fun ev => kind ev = false) evs ->
  length (filter (fun ev => kind ev = true) evs) = 0%nat.
Proof.
  induction 1 as [|ev evs Hev _ IH]; [done|].
  rewrite filter_cons_False; [done|]. by rewrite Hev.
Qed.

Lemma one_of_none {A} (m : M A) : none_of kind m -> at_most_one kind m.
Proof.
  intros Hm w. destruct (Hm w) as (evs & Htr & Hall & _).
  exists evs. split; [done|]. rewrite none_count by done. lia.
Qed.

Lemma one_emit ev : at_most_one kind (emit ev).
Proof.
  intros w. exists [ev]. split; [done|].
  rewrite filter_cons. case_decide; simpl; lia.
Qed.

Lemma one_bind_l {A B} (m : M A) (k : A -> M B) :
  at_most_one kind m -> (forall a, none_of kind (k a)) -> at_most_one kind (bind m k).
Proof.
  intros Hm Hk w. unfold bind. destruct (Hm w) as (evs & Htr & Hlen).
  destruct (m w) as [[a|e] w1]; simpl in *; [|by exists evs].
  destruct (Hk a w1) as (evs' & Htr' & Hall & _).
  exists (evs ++ evs')%list. rewrite Htr', Htr, app_assoc. split; [done|].
  rewrite filter_app, length_app, (none_count evs') by done. lia.
Qed.

Lemma one_bind_r {A B} (m : M A) (k : A -> M B) :
  none_of kind m -> (forall a, at_most_one kind (k a)) -> at_most_one kind (bind m k).
Proof.
  intros Hm Hk w. unfold bind. destruct (Hm w) as (evs & Htr & Hall & _).
  destruct (m w) as [[a|e] w1]; simpl in *.
  - destruct (Hk a w1) as (evs' & Htr' & Hlen).
    exists (evs ++ evs')%list. rewrite Htr', Htr, app_assoc. split; [done|].
    rewrite filter_app, length_app, (none_count evs) by done. lia.
  - exists evs. split; [done|]. rewrite none_count by done. lia.
Qed.

Lemma one_try_except_Exception {A} (m : M A) h :
  at_most_one kind m -> (forall e, none_of kind (h e)) ->
  at_most_one kind (try_except_Exception m h).
Proof.
  intros Hm Hh w. unfold try_except_Exception. destruct (Hm w) as (evs & Htr & Hlen).
  destruct (m w) as [[a|e] w1]; simpl in *; [by exists evs|].
  destruct (is_Exception e); [|by exists evs].
  destruct (Hh e w1) as (evs' & Htr' & Hall & _).
  exists (evs ++ evs')%list. rewrite Htr', Htr, app_assoc. split; [done|].
  rewrite filter_app, length_app, (none_count evs') by done. lia.
Qed.

Lemma one_try_except_ClientError {A} (m : M A) h :
  at_most_one kind m -> (forall c e, none_of kind (h c e)) ->
  at_most_one kind (try_except_ClientError m h).
Proof.
  intros Hm Hh w. unfold try_except_ClientError. destruct (Hm w) as (evs & Htr & Hlen).
  destruct (m w) as [[a|[cls msg|code msg|]] w1]; simpl in *; try by exists evs.
  destruct (Hh code (ClientError code msg) w1) as (evs' & Htr' & Hall & _).
  exists (evs ++ evs')%list. rewrite Htr', Htr, app_assoc. split; [done|].
  rewrite filter_app, length_app, (none_count evs') by done. lia.
Qed.

End AtMostOne.

Lemma one_save_image kind E img path meta : at_most_one kind (save_image E img path meta).
Proof.
  intros w. unfold save_image. destruct (Image_save E img path meta); simpl.
  - exists []. rewrite app_nil_r. split; [done|]. simpl. lia.
  - eexists [_]. split; [done|]. rewrite filter_cons. case_decide; simpl; lia.
Qed.

Lemma one_unlink kind path : at_most_one kind (unlink path).
Proof.
  intros w. unfold unlink. destruct (fs w !! path); simpl.
  - eexists [_]. split; [done|]. rewrite filter_cons. case_decide; simpl; lia.
  - exists []. rewrite app_nil_r. split; [done|]. simpl. lia.
Qed.

(** A step of a proof that a computation performs no action of a kind. *)
Ltac none_step :=
  lazymatch goal with
  | |- spec (try_except_Exception _ _) _ _ =>
      apply spec_try_except_Exception; [|intros ?]
  | |- spec (try_except_ClientError _ _) _ _ =>
      apply spec_try_except_ClientError; [|intros ? ?]
  | |- spec (let '(_, _) := ?x in _) _ _ => destruct x
  | |- _ => spec_step
  end.
Ltac none_tac := solve [ unfold none_of; repeat none_step; done ].

(** A step of a proof that a computation performs at most one: the action
    is on one side of a bind, and not on the other. *)
Ltac one_step :=
  lazymatch goal with
  | |- at_most_one _ (bind _ _) =>
      first [ apply one_bind_r; [none_tac|intros ?]
            | apply one_bind_l; [|intros ?; none_tac] ]
  | |- at_most_one _ (try_except_Exception _ _) =>
      apply one_try_except_Exception; [|intros ?; none_tac]
  | |- at_most_one _ (try_except_ClientError _ _) =>
      apply one_try_except_ClientError; [|intros ? ?; none_tac]
  | |- at_most_one _ (if ?b then _ else _) => destruct b
  | |- at_most_one _ (let '(_, _) := ?x in _) => destruct x
  | |- at_most_one _ (match ?x with _ => _ end) => destruct x
  | |- at_most_one _ (emit _) => apply one_emit
  | |- at_most_one _ (save_image _ _ _ _) => apply one_save_image
  | |- at_most_one _ (unlink _) => apply one_unlink
  | |- at_most_one _ _ => apply one_of_none; none_tac
  end.

Ltac unfold_run :=
  unfold main_body, generate_image_with_replicate, get_replicate_token, normalize_output,
    on_generation_error, add_metadata_to_image, determine_s3_key, create_s3_key_organized,
    create_filename_with_date, upload_to_s3, print_summary, print, log_info, log_error.

Lemma main_body_one_provider_run E a : at_most_one is_provider_run (main_body E a).
Proof. unfold_run. repeat one_step. Qed.

Lemma main_body_one_http_get E a : at_most_one is_http_get (main_body E a).
Proof. unfold_run. repeat one_step. Qed.

Lemma main_body_one_file_write E a : at_most_one is_file_write (main_body E a).
Proof. unfold_run. repeat one_step. Qed.

Lemma main_body_one_upload E a : at_most_one is_upload (main_body E a).
Proof. unfold_run. repeat one_step. Qed.

Lemma main_body_one_unlink E a : at_most_one is_unlink (main_body E a).
Proof. unfold_run. repeat one_step. Qed.

Lemma main_at_most_one E a kind w :
  (forall m, kind (LogInfo m) = false) -> (forall m, kind (LogError m) = false) ->
  at_most_one kind (main_body E a) ->
  forall evs, trace (main E a w).2 = (trace w ++ evs)%list ->
              (count_of kind evs <= 1)%nat.
Proof.
  intros Hi He Hbody evs Htr. unfold count_of.
  assert (forall l, Forall (fun ev => kind ev = false) l ->
            length (filter (fun ev => kind ev = true) l) = 0%nat) as Hnone
    by apply none_count.
  unfold main in Htr. destruct (truthy_str (a_bucket a)); simpl in Htr.
  2: { rewrite <- (app_nil_r (trace w)) in Htr at 1.
       apply trace_suffix_unique in Htr as <-. simpl. lia. }
  match type of Htr with context [main_body E a ?w0] => set (w1 := w0) in * end.
  destruct (Hbody w1) as (evs1 & Htr1 & Hlen).
  set (start := (LogInfo ("Using bucket: " +:+ default "" (a_bucket a)) ::
                 (if truthy_str (a_region a) then []
                  else [LogInfo "No region via args/env; will fall back to eu-central-1 inside S3 client"]))).
  assert (Forall (fun ev => kind ev = false) start) as Hstart.
  { subst start. destruct (truthy_str (a_region a)); repeat constructor; apply Hi. }
  assert (trace w1 = (trace w ++ start)%list) as Hw1 by done.
  destruct (main_body E a w1) as [[code|e] w2]; simpl in *.
  - rewrite Htr1, Hw1, <- app_assoc in Htr. apply trace_suffix_unique in Htr as <-.
    rewrite filter_app, length_app, Hnone by done. lia.
  - set (final := match e with
                  | KeyboardInterrupt => LogInfo "Interrupted by user"
                  | _ => LogError ("Fatal error: " +:+ str_exn e)
                  end).
    assert (trace (match e with
                   | KeyboardInterrupt =>
                       (130, {| fs := fs w2; ticks := ticks w2;
                                trace := trace w2 ++ [LogInfo "Interrupted by user"] |})
                   | _ => (1, {| fs := fs w2; ticks := ticks w2;
                                 trace := trace w2 ++ [LogError ("Fatal error: " +:+ str_exn e)] |})
                   end).2 = (trace w2 ++ [final])%list) as Hfinal by (by destruct e).
    rewrite Hfinal, Htr1, Hw1, <- !app_assoc in Htr.
    apply trace_suffix_unique in Htr as <-.
    rewrite !filter_app, !length_app, (Hnone start), (Hnone [final]); [lia| |done].
    subst final. destruct e; repeat constructor; auto.
Qed.

(** X10. Nothing is retried or repeated: in every run, whatever the
    collaborators answer, the provider is called at most once, at most one
    URL is fetched, at most one file is written, [upload_file] is called at
    most once, and at most one file is removed. *)
Theorem X10_nothing_repeated E a w :
  exists evs, trace (main E a w).2 = (trace w ++ evs)%list /\
    (count_of is_provider_run evs <= 1)%nat /\
    (count_of is_http_get evs <= 1)%nat /\
    (count_of is_file_write evs <= 1)%nat /\
    (count_of is_upload evs <= 1)%nat /\
    (count_of is_unlink evs <= 1)%nat.
Proof.
  destruct (main_run_facts_any E a w) as (evs & Htr & _).
  exists evs. split; [done|].
  repeat split; apply (main_at_most_one E a _ w); try done.
  - apply main_body_one_provider_run.
  - apply main_body_one_http_get.
  - apply main_body_one_file_write.
  - apply main_body_one_upload.
  - apply main_body_one_unlink.
Qed.
(** ** Exit status *)





(** X12. Without a usable token (unset or empty) a run with a bucket stops
    before anything is attempted: the status is 1, the provider is not
    called, the clock is not read, no file is written, nothing is uploaded;
    the only trace is the log, ending with the fatal error. *)
Theorem X12_missing_token E a w :
  truthy_str (a_bucket a) = true ->
  truthy_str (getenv E "REPLICATE_API_TOKEN") = false ->
  (main E a w).1 = 1 /\
  fs (main E a w).2 = fs w /\
  ticks (main E a w).2 = ticks w /\
  exists logs, trace (main E a w).2 = (trace w ++ logs)%list /\
    Forall (fun ev => exists m, ev = LogInfo m \/ ev = LogError m) logs /\
    List.last logs (LogInfo "") =
      LogError "Fatal error: Replicate API token not found. Set REPLICATE_API_TOKEN in your .env file or environment.".
Proof.
  intros Hb Ht. unfold main, main_body, bind, get_replicate_token.
  rewrite Hb, Ht. simpl. repeat split.
  eexists. rewrite <- app_assoc. split; [done|].
  destruct (truthy_str (a_region a)); simpl; split; try done;
    repeat constructor; eauto.
Qed.

Lemma X12_missing_token_witness :
  (main (with_environ Sample.E ∅) Sample.a Sample.w0).1 = 1.
Proof.
  exact (proj1 (X12_missing_token (with_environ Sample.E ∅) Sample.a Sample.w0
                  eq_refl eq_refl)).
Defined.
(** ** The filesystem along a run *)

Lemma fs_after_app disk l1 l2 :
  fs_after disk (l1 ++ l2) = fs_after (fs_after disk l1) l2.
Proof. apply foldl_app. Qed.

Lemma finds_files_app disk l1 l2 :
  finds_files disk (l1 ++ l2) <->
  finds_files disk l1 /\ finds_files (fs_after disk l1) l2.
Proof.
  revert disk. induction l1 as [|ev l1 IH]; intros disk; simpl; [tauto|].
  rewrite IH. unfold fs_after. simpl. tauto.
Qed.

Lemma inert_fs_after disk evs : Forall inert evs -> fs_after disk evs = disk.
Proof.
  induction 1 as [|ev evs Hev _ IH]; [done|].
  unfold fs_after in *. simpl. by destruct ev.
Qed.

Lemma inert_finds_files disk evs : Forall inert evs -> finds_files disk evs.
Proof.
  intros Hall. revert disk. induction Hall as [|ev evs Hev _ IH]; [done|].
  intros disk. simpl. by destruct ev.
Qed.

Lemma inert_tmp_only evs : Forall inert evs -> Forall tmp_only evs.
Proof. intros Hall. eapply Forall_impl; [done|]. by intros []. Qed.

Lemma inert_no_write evs p f : Forall inert evs -> ~ (FileWrite p f ∈ evs).
Proof. rewrite Forall_forall. intros Hall Hin. apply (Hall _ Hin). Qed.

Lemma uploading_fs_after path disk evs :
  Forall (uploading path) evs -> fs_after disk evs = disk.
Proof.
  induction 1 as [|ev evs Hev _ IH]; [done|].
  unfold fs_after in *. simpl. by destruct ev.
Qed.

Lemma uploading_finds_files path disk evs :
  is_Some (disk !! path) -> Forall (uploading path) evs -> finds_files disk evs.
Proof.
  intros Hp. induction 1 as [|ev evs Hev _ IH]; [done|]. simpl.
  destruct ev; simpl in *; try done. by subst.
Qed.

Lemma uploading_tmp_only path evs : Forall (uploading path) evs -> Forall tmp_only evs.
Proof. intros Hall. eapply Forall_impl; [done|]. by intros []. Qed.

Lemma uploading_no_write path evs p f :
  Forall (uploading path) evs -> ~ (FileWrite p f ∈ evs).
Proof. rewrite Forall_forall. intros Hall Hin. apply (Hall _ Hin). Qed.

(** Log lines and the like, before or after, leave tidy events tidy. *)
Lemma tidy_inert ok l1 evs l2 :
  Forall inert l1 -> Forall inert l2 -> tidy ok evs -> tidy ok (l1 ++ evs ++ l2).
Proof.
  intros H1 H2 (Hfind & Htmp & Hend). split; [|split].
  - rewrite !finds_files_app. split; [by apply inert_finds_files|].
    rewrite (inert_fs_after _ l1) by done. split; [done|by apply inert_finds_files].
  - rewrite !Forall_app. auto using inert_tmp_only.
  - rewrite !fs_after_app, (inert_fs_after _ l1), (inert_fs_after _ l2) by done.
    destruct ok; [done|]. intros p f. rewrite !elem_of_app.
    intros [Hin|[Hin|Hin]]; [by apply inert_no_write in Hin|by apply Hend
                            |by apply inert_no_write in Hin].
Qed.

Lemma tidy_fail_inert evs : Forall inert evs -> tidy false evs.
Proof.
  intros Hall. split; [by apply inert_finds_files|]. split; [by apply inert_tmp_only|].
  intros p f Hin. by apply inert_no_write in Hin.
Qed.

Lemma inert_uploads evs : Forall inert evs -> uploads evs = [].
Proof.
  intros Hall. apply no_upload_uploads. eapply Forall_impl; [done|]. by intros [].
Qed.

Lemma not_uploaded_inert E a evs : Forall inert evs -> ~ uploaded E a evs.
Proof.
  intros Hall (p & k & x & Hin & _). rewrite inert_uploads in Hin by done.
  by apply elem_of_nil in Hin.
Qed.

Lemma uploaded_inert E a l1 evs l2 :
  Forall inert l1 -> Forall inert l2 ->
  uploaded E a (l1 ++ evs ++ l2) <-> uploaded E a evs.
Proof.
  intros H1 H2. unfold uploaded.
  by rewrite !uploads_app, (inert_uploads l1), (inert_uploads l2), app_nil_r.
Qed.

Lemma disk_outcome_raise {A} E a w e : @disk_outcome A E a w (Raise e, w).
Proof.
  exists [], false. rewrite app_nil_r. split; [done|]. split; [done|].
  split; [by apply tidy_fail_inert|]. split; [done|].
  split; [done|]. by intros ?%not_uploaded_inert.
Qed.

Lemma disk_outcome_prefix {A} E a w0 w1 evs1 (r : result A * world) :
  fs w1 = fs w0 -> trace w1 = (trace w0 ++ evs1)%list -> Forall inert evs1 ->
  disk_outcome E a w1 r -> disk_outcome E a w0 r.
Proof.
  intros Hfs Htr Hin (evs & removed & Htr' & Hfs' & Htidy & Hok & Hup).
  exists (evs1 ++ evs)%list, removed. rewrite Htr', Htr, app_assoc. split; [done|].
  rewrite fs_after_app, (inert_fs_after _ evs1), <- Hfs by done. split; [done|].
  rewrite <- (app_nil_r evs). split; [by apply tidy_inert|]. split; [done|].
  by rewrite uploaded_inert.
Qed.

Lemma disk_outcome_bind {A B} E a (m : M A) (k : A -> M B) w :
  spec m inert (fun _ => True) -> keeps_fs m ->
  (forall x w1, disk_outcome E a w1 (k x w1)) ->
  disk_outcome E a w (bind m k w).
Proof.
  intros Hm Hfs Hk. unfold bind.
  destruct (Hm w) as (evs1 & Htr & Hno & _). specialize (Hfs w).
  destruct (m w) as [[x|e] w1]; simpl in *.
  - by eapply disk_outcome_prefix.
  - eapply disk_outcome_prefix; [done..|]. apply disk_outcome_raise.
Qed.

Lemma generate_inert E prompt steps guidance seed width height fmt :
  spec (generate_image_with_replicate E prompt steps guidance seed width height fmt)
       inert (fun _ => True).
Proof.
  unfold generate_image_with_replicate, get_replicate_token, normalize_output,
    on_generation_error, log_info, log_error.
  repeat none_step; done.
Qed.

Lemma upload_to_s3_uploading E path bucket key prompt steps guidance seed region public :
  spec (upload_to_s3 E path bucket key prompt steps guidance seed region public)
       (uploading path) (fun _ => True).
Proof.
  unfold upload_to_s3, log_info, log_error. repeat none_step; done.
Qed.

Lemma tmp_path_under key : under_tmp (tmp_path_of key) = true.
Proof.
  unfold tmp_path_of, Path.tmp_joinpath, under_tmp. by case_decide.
Qed.

(** The events from the write of the temporary file on: the upload, and the
    removal when the run got that far. *)
Lemma tidy_tail key f evs (removed : bool) :
  Forall (uploading (tmp_path_of key)) evs ->
  tidy removed
    (FileWrite (tmp_path_of key) f :: evs ++
     if removed then [FileUnlink (tmp_path_of key); LogInfo "Temporary file deleted"]
     else [])%list.
Proof.
  intros Hup. set (p := tmp_path_of key).
  assert (is_Some ((<[p := f]> ∅ : gmap string file) !! p)) as Hp
    by (by rewrite lookup_insert_eq).
  split; [|split].
  - simpl. split; [done|]. apply finds_files_app.
    split; [by apply (uploading_finds_files p)|].
    rewrite (uploading_fs_after p _ evs) by done. by destruct removed.
  - constructor; [apply tmp_path_under|]. apply Forall_app.
    split; [by apply (uploading_tmp_only p)|].
    destruct removed; repeat constructor. apply tmp_path_under.
  - change (FileWrite p f :: ?l)%list with ([FileWrite p f] ++ l)%list.
    rewrite !fs_after_app, (uploading_fs_after p _ evs) by done.
    destruct removed.
    + unfold fs_after. simpl. by rewrite delete_insert_eq, delete_empty.
    + intros p' f'. rewrite app_nil_r. intros [Hin|Hin]%elem_of_app.
      * apply list_elem_of_singleton in Hin. simplify_eq.
        unfold fs_after. simpl. by rewrite lookup_insert_eq.
      * by apply (uploading_no_write p) in Hin.
Qed.

Lemma main_body_disk E a w : disk_outcome E a w (main_body E a w).
Proof.
  unfold main_body.
  apply disk_outcome_bind;
    [apply get_replicate_token_spec|unfold get_replicate_token; repeat keeps_step|].
  intros _ w1. clear w.
  apply disk_outcome_bind;
    [apply generate_inert|apply generate_keeps_fs|].
  intros img0 w2. clear w1.
  apply disk_outcome_bind;
    [eapply spec_weaken; [apply add_metadata_to_image_spec|done]
    |apply add_metadata_keeps_fs|].
  intros [img meta] w3. clear w2.
  apply disk_outcome_bind;
    [apply determine_s3_key_spec_any|apply determine_s3_key_keeps_fs|].
  intros key w. clear w3.
  unfold bind at 1, save_image.
  destruct (Image_save E img (tmp_path_of key) meta) as [e|];
    [apply disk_outcome_raise|].
  unfold bind at 1, log_info at 1, emit. cbn [fst snd fs ticks trace].
  match goal with |- context [FileWrite _ ?f0] => set (f := f0) end.
  set (p := tmp_path_of key).
  match goal with |- disk_outcome _ _ _ (bind _ _ ?w1) => set (w' := w1) end.
  unfold bind at 1.
  pose proof (upload_to_s3_keeps_fs E p (default "" (a_bucket a)) key
                (a_prompt a) (a_steps a) (a_guidance a) (a_seed a) (a_region a)
                (a_public a) w') as Hfs.
  destruct (upload_to_s3_uploading E p (default "" (a_bucket a)) key
              (a_prompt a) (a_steps a) (a_guidance a) (a_seed a) (a_region a)
              (a_public a) w') as (evs & Htr & Hall & _).
  destruct (upload_to_s3_outcome E p (default "" (a_bucket a)) key
              (a_prompt a) (a_steps a) (a_guidance a) (a_seed a) (a_region a)
              (a_public a) w') as (evs' & Htr0 & Hcases).
  cbv zeta in Htr0, Hcases. rewrite Htr in Htr0. apply app_inv_head in Htr0 as <-.
  set (saved := LogInfo ("Image saved temporarily to " +:+ p)).
  assert (Forall (uploading p) (saved :: evs)) as Hall' by (by constructor).
  assert (fs w' = <[p := f]> (fs w)) as Hw' by done.
  assert (trace w' = (trace w ++ [FileWrite p f; saved])%list) as Htr'.
  { subst w'. simpl. by rewrite <- app_assoc. }
  destruct (upload_to_s3 _ _ _ _ _ _ _ _ _ _ w') as [[res|e] w4];
    cbn [fst snd] in Hfs, Htr, Hcases |- *.
  - destruct Hcases as [[_ [e [=]]]|(extra & Hup & Hcall)].
    destruct (s3_upload_file E _ _ _ extra) as [e|] eqn:Hs3; [done|clear Hcall].
    unfold bind at 1, unlink. rewrite Hfs, Hw', lookup_insert_eq.
    unfold bind at 1, log_info, emit. cbn [fst snd fs ticks trace].
    match goal with |- disk_outcome _ _ _ (bind _ _ ?w1) =>
      destruct (print_then_return E res (a_public a) w1) as (r & -> & Hr) end.
    exists (FileWrite p f :: (saved :: evs) ++
            [FileUnlink p; LogInfo "Temporary file deleted"])%list, true.
    cbn [fst snd fs trace]. split; [|split; [|split; [|split]]].
    + rewrite Htr, Htr'. simpl. by rewrite <- !app_assoc.
    + change (FileWrite p f :: ?l)%list with ([FileWrite p f] ++ l)%list.
      by rewrite !fs_after_app, (uploading_fs_after p _ (saved :: evs)) by done.
    + by apply (tidy_tail key f (saved :: evs) true).
    + done.
    + split; [intros _|done]. exists p, key, extra. split; [|done].
      change (FileWrite p f :: (saved :: evs) ++ ?l)%list
        with ([FileWrite p f; saved] ++ evs ++ l)%list.
      rewrite !uploads_app, Hup. simpl. apply list_elem_of_here.
  - exists (FileWrite p f :: (saved :: evs) ++ [])%list, false. cbn [fst snd].
    split; [|split; [|split; [|split]]].
    + rewrite Htr, Htr', app_nil_r. by rewrite <- !app_assoc.
    + change (FileWrite p f :: ?l)%list with ([FileWrite p f] ++ l)%list.
      rewrite app_nil_r, fs_after_app, (uploading_fs_after p _ (saved :: evs)) by done.
      by rewrite Hfs, Hw'.
    + by apply (tidy_tail key f (saved :: evs) false).
    + done.
    + split; [done|]. intros (p' & k' & x' & Hin & Hnone).
      change (FileWrite p f :: (saved :: evs) ++ [])%list
        with ([FileWrite p f; saved] ++ evs ++ [])%list in Hin.
      rewrite !uploads_app in Hin. simpl in Hin. rewrite app_nil_r in Hin.
      destruct Hcases as [[Hup _]|(extra & Hup & Hcall)]; rewrite Hup in Hin.
      * by apply elem_of_nil in Hin.
      * apply list_elem_of_singleton in Hin. simplify_eq.
        rewrite Hnone in Hcall. by destruct Hcall.
Qed.

(** Every run: the filesystem it leaves is the replay of its file events,
    and the events are tidy; the run got as far as the removal when it ends
    with status 0, and exactly when [upload_file] returned. *)
Lemma main_disk E a w :
  exists evs removed, trace (main E a w).2 = (trace w ++ evs)%list /\
    fs (main E a w).2 = fs_after (fs w) evs /\
    tidy removed evs /\
    ((main E a w).1 = 0 -> removed = true) /\
    (removed = true <-> uploaded E a evs).
Proof.
  unfold main. destruct (truthy_str (a_bucket a)); simpl.
  2: { exists [], false. rewrite app_nil_r. split; [done|]. split; [done|].
       split; [by apply tidy_fail_inert|]. split; [done|].
       split; [done|]. by intros ?%not_uploaded_inert. }
  match goal with |- context [main_body E a ?w0] => set (w1 := w0) end.
  assert (disk_outcome E a w (main_body E a w1))
    as (evs & removed & Htr & Hfs & Htidy & Hok & Hup).
  { eapply (disk_outcome_prefix E a w w1); [done|done| |apply main_body_disk].
    destruct (truthy_str (a_region a)); by repeat constructor. }
  destruct (main_body E a w1) as [[code|e] w2]; cbn [fst snd is_ok] in *.
  - exists evs, removed. split; [done|]. split; [done|]. split; [done|].
    split; [by intros _; apply Hok|done].
  - set (final := match e with
                  | KeyboardInterrupt => LogInfo "Interrupted by user"
                  | _ => LogError ("Fatal error: " +:+ str_exn e)
                  end).
    assert (Forall inert [final]) as Hfinal by (by destruct e; repeat constructor).
    exists (evs ++ [final])%list, removed. split; [|split; [|split; [|split]]].
    + rewrite app_assoc, <- Htr. by destruct e.
    + rewrite fs_after_app, <- Hfs, (inert_fs_after _ [final]); by destruct e.
    + apply (tidy_inert removed [] evs [final]); done || constructor.
    + by destruct e.
    + by rewrite (uploaded_inert E a [] evs [final]).
Qed.

(** ** Replaying file events *)

Lemma fs_after_snoc disk evs ev :
  fs_after disk (evs ++ [ev]) = fs_step (fs_after disk evs) ev.
Proof. by rewrite fs_after_app. Qed.

(** A file found when the events are replayed from an empty disk was written
    by one of them, and is found whatever the disk was. *)
Lemma fs_after_own evs p f :
  fs_after ∅ evs !! p = Some f ->
  FileWrite p f ∈ evs /\ forall disk, fs_after disk evs !! p = Some f.
Proof.
  induction evs as [|ev evs IH] using rev_ind; [done|].
  rewrite fs_after_snoc. setoid_rewrite fs_after_snoc. setoid_rewrite elem_of_app.
  destruct ev as [| | | |path f0|path|]; simpl;
    try (intros [Hin Hall]%IH; split; [by left|done]).
  - destruct (decide (path = p)) as [->|Hne].
    + rewrite lookup_insert_eq. intros [= ->]. split; [right; by apply list_elem_of_singleton|].
      intros disk. by rewrite lookup_insert_eq.
    + rewrite lookup_insert_ne by done. intros [Hin Hall]%IH. split; [by left|].
      intros disk. by rewrite lookup_insert_ne.
  - destruct (decide (path = p)) as [->|Hne].
    + by rewrite lookup_delete_eq.
    + rewrite lookup_delete_ne by done. intros [Hin Hall]%IH. split; [by left|].
      intros disk. by rewrite lookup_delete_ne.
Qed.



Lemma finds_files_used disk pre ev post p :
  finds_files disk (pre ++ ev :: post) -> file_used ev = Some p ->
  is_Some (fs_after disk pre !! p).
Proof.
  intros [_ Hev]%finds_files_app Hp. simpl in Hev. rewrite Hp in Hev. tauto.
Qed.

(** X13. A run uploads and removes only its own file: whenever
    [upload_file] is called or a file is removed, the path is one the run
    has written to before, and the file on disk at that moment is the one
    the run wrote, not one it found there. *)
Theorem X13_own_file_only E a w pre ev post p :
  trace (main E a w).2 = (trace w ++ pre ++ ev :: post)%list ->
  file_used ev = Some p ->
  exists f, FileWrite p f ∈ pre /\ fs_after (fs w) pre !! p = Some f.
Proof.
  intros Htr Hp. destruct (main_disk E a w) as (evs & removed & Htr' & _ & (Hfind & _) & _).
  rewrite Htr in Htr'. apply app_inv_head in Htr' as <-.
  destruct (finds_files_used _ _ _ _ _ Hfind Hp) as [f Hf].
  apply fs_after_own in Hf as [Hin Hall]. by exists f.
Qed.

Lemma X13_own_file_only_witness :
  exists f, FileWrite "/tmp/sd3_2025-10-13.png" f ∈ take 7 SampleRun.events /\
    fs_after (fs SampleRun.w) (take 7 SampleRun.events) !! "/tmp/sd3_2025-10-13.png"
    = Some f.
Proof.
  apply (X13_own_file_only Sample.E Sample.a SampleRun.w (take 7 SampleRun.events)
           (nth 7 SampleRun.events (LogInfo "")) (drop 8 SampleRun.events)
           "/tmp/sd3_2025-10-13.png");
    vm_compute; reflexivity.
Defined.




(** ** The [--public] flag *)

Lemma same_when_printed_bind {A B} E (m : M A) (k k' : A -> M B) w :
  (forall x w1, same_when_printed E (k x w1) (k' x w1)) ->
  same_when_printed E (bind m k w) (bind m k' w).
Proof.
  intros Hk. unfold bind. destruct (m w) as [[x|e] w1]; [apply Hk|done].
Qed.

(** What follows the upload looks at the filesystem and, for the result,
    at the standard output only. *)
Lemma cleanup_same E path res res' b b' w w' :
  same_but_logs w w' ->
  same_when_printed E
    ((unlink path ;;; log_info "Temporary file deleted" ;;;
      print_summary E res b ;;; ret 0) w)
    ((unlink path ;;; log_info "Temporary file deleted" ;;;
      print_summary E res' b' ;;; ret 0) w').
Proof.
  intros (Hfs & Hticks & Htr). unfold bind at 1 4, unlink.
  rewrite <- Hfs. destruct (fs w !! path); [|by repeat split].
  unfold bind at 1 3, log_info, emit. cbn [fst snd fs ticks trace].
  match goal with |- same_when_printed _ (bind _ _ ?w1) (bind _ _ ?w2) =>
    destruct (print_then_return E res b w1) as (r & -> & Hr);
    destruct (print_then_return E res' b' w2) as (r' & -> & Hr') end.
  split; cbn [fst snd].
  - repeat split; simpl; [done|].
    rewrite !filter_app. by rewrite Htr.
  - intros Hout.
    destruct Hr as [->|(e & t & Ht & _)]; [|by rewrite Hout in Ht].
    destruct Hr' as [->|(e & t & Ht & _)]; [done|by rewrite Hout in Ht].
Qed.

(** The upload with the flag set to [b] and to [b']: the same call, the
    same failure if any, and worlds that differ by a log line at most. *)
Lemma upload_to_s3_public E path bucket key prompt steps guidance seed region b b' w :
  let r := upload_to_s3 E path bucket key prompt steps guidance seed region b w in
  let r' := upload_to_s3 E path bucket key prompt steps guidance seed region b' w in
  same_but_logs r.2 r'.2 /\
  match r.1, r'.1 with
  | Ok _, Ok _ => True
  | Raise e, Raise e' => e = e'
  | _, _ => False
  end.
Proof.
  cbv zeta. unfold upload_to_s3, bind at 1 3, lift_err at 1 3.
  generalize (slice_to 1024 prompt). intros short.
  destruct (boto3_client E region) as [e|]; [done|].
  unfold try_except_ClientError, bind, emit, log_info, log_error, lift_err, now, ret, raise.
  simpl.
  destruct (s3_upload_file E path bucket key _) as [e|]; simpl.
  - destruct e as [cls msg|code msg|]; simpl; [done| |done].
    by destruct (String.eqb code "NoSuchBucket"), (String.eqb code "AccessDenied").
  - destruct b, b'; simpl; (split; [|done]); repeat split; simpl;
      rewrite !filter_app; simpl; by rewrite ?app_nil_r.
Qed.

Lemma main_body_public E a b w :
  same_when_printed E (main_body E (with_public a b) w) (main_body E a w).
Proof.
  unfold main_body. change (a_bucket (with_public a b)) with (a_bucket a).
  change (a_prompt (with_public a b)) with (a_prompt a).
  change (a_steps (with_public a b)) with (a_steps a).
  change (a_guidance (with_public a b)) with (a_guidance a).
  change (a_seed (with_public a b)) with (a_seed a).
  change (a_region (with_public a b)) with (a_region a).
  change (a_public (with_public a b)) with b.
  apply same_when_printed_bind. intros _ w1.
  apply same_when_printed_bind. intros img0 w2.
  apply same_when_printed_bind. intros [img meta] w3.
  apply same_when_printed_bind. intros key w4.
  apply same_when_printed_bind. intros _ w5.
  apply same_when_printed_bind. intros _ w6.
  unfold bind at 1 5.
  match goal with |- context [upload_to_s3 E ?p ?bk ?k ?pr ?st ?g ?sd ?rg b w6] =>
    destruct (upload_to_s3_public E p bk k pr st g sd rg b (a_public a) w6) as [Hw Hr];
    destruct (upload_to_s3 E p bk k pr st g sd rg b w6) as [[res|e] w7];
    destruct (upload_to_s3 E p bk k pr st g sd rg (a_public a) w6) as [[res'|e'] w7']
  end; simpl in Hr, Hw; try done.
  - by apply cleanup_same.
  - by subst.
Qed.

Lemma uploads_but_logs tr :
  uploads (filter (fun ev => is_log ev = false) tr) = uploads tr.
Proof.
  induction tr as [|ev tr IH]; [done|].
  rewrite filter_cons. destruct ev; simpl; by rewrite ?IH.
Qed.

(** X16. The [--public] flag changes nothing but log lines and the text of
    the summary: with the flag set either way a run leaves the same files
    and does the same things in the same order (the same job sent, the same
    file written, the same [upload_file] call with the same [ExtraArgs], the
    same removal).  The object is stored the same way with and without it.
    The exit status is the same too once the standard output accepts every
    text; the summary of a public upload has lines of its own, and a run
    that cannot print one of them ends with status 1 where the other ends
    with 0. *)
Theorem X16_public_flag_only_logs E a b w :
  ((forall text, stdout_write E text = None) ->
   (main E (with_public a b) w).1 = (main E a w).1) /\
  fs (main E (with_public a b) w).2 = fs (main E a w).2 /\
  filter (fun ev => is_log ev = false) (trace (main E (with_public a b) w).2) =
  filter (fun ev => is_log ev = false) (trace (main E a w).2) /\
  uploads (trace (main E (with_public a b) w).2) = uploads (trace (main E a w).2).
Proof.
  assert (same_when_printed E (main E (with_public a b) w) (main E a w))
    as ((Hfs & _ & Htr) & Hst).
  { unfold main. change (a_bucket (with_public a b)) with (a_bucket a).
    change (a_region (with_public a b)) with (a_region a).
    destruct (truthy_str (a_bucket a)); [|done]. simpl.
    match goal with |- context [main_body E a ?w0] =>
      destruct (main_body_public E a b w0) as ((Hfs & Hticks & Htr) & Hr);
      destruct (main_body E (with_public a b) w0) as [r1 w1];
      destruct (main_body E a w0) as [r2 w2] end.
    cbn [fst snd] in *. split.
    - destruct r1 as [code|[]], r2 as [code'|[]]; repeat split; simpl; try done;
        rewrite ?filter_app; simpl; by rewrite ?app_nil_r, Htr.
    - intros Hout. rewrite (Hr Hout). by destruct r2 as [code|[]]. }
  repeat split; try done.
  by rewrite <- uploads_but_logs, Htr, uploads_but_logs.
Qed.

(** The exit status does depend on the flag when the standard output cannot
    take the line of the public URL. *)
Lemma X16_public_flag_only_logs_witness :
  (main Sample.E (with_public Sample.a true) Sample.w0).1 = (main Sample.E Sample.a Sample.w0).1 /\
  (main (Sample.E_stdout Sample.no_globe) (with_public Sample.a true) Sample.w0).1 = 1 /\
  (main (Sample.E_stdout Sample.no_globe) Sample.a Sample.w0).1 = 0.
Proof.
  split.
  - apply (X16_public_flag_only_logs Sample.E Sample.a true Sample.w0). reflexivity.
  - split; vm_compute; reflexivity.
Defined.

(** ** Failures of the upload *)

(** X17. A failure of [upload_to_s3] is the collaborator's own exception,
    never another one in its place.  When building the storage client
    raises, that exception comes out with nothing logged and nothing
    attempted, also when it is a ClientError.  When [upload_file] raises,
    that exception comes out after the one call; a ClientError adds one
    error line to the log, chosen by its code (NoSuchBucket names the bucket,
    AccessDenied points at the credentials, any other code shows the
    message), and any other exception adds none. *)
Theorem X17_upload_failure E path bucket key prompt steps guidance seed region public w e :
  (upload_to_s3 E path bucket key prompt steps guidance seed region public w).1 = Raise e ->
  (boto3_client E region = Some e /\
   (upload_to_s3 E path bucket key prompt steps guidance seed region public w).2 = w) \/
  (boto3_client E region = None /\
   exists extra,
     s3_upload_file E path bucket key extra = Some e /\
     trace (upload_to_s3 E path bucket key prompt steps guidance seed region public w).2 =
     (trace w ++
      [LogInfo ("Uploading to s3://" +:+ bucket +:+ "/" +:+ key);
       S3Upload path bucket key extra] ++
      match e with
      | ClientError code msg =>
          [LogError
             (if String.eqb code "NoSuchBucket"
              then "Bucket '" +:+ bucket +:+ "' does not exist"
              else if String.eqb code "AccessDenied"
                   then "Access denied. Check AWS credentials and bucket permissions"
                   else "S3 upload failed: " +:+ msg)]
      | _ => []
      end)%list).
Proof.
  unfold upload_to_s3, bind at 1 2 3, lift_err at 1 2 3.
  generalize (slice_to 1024 prompt). intros short.
  destruct (boto3_client E region) as [e0|]; simpl.
  { intros [= ->]. by left. }
  intros Hr. right. split; [done|]. revert Hr.
  unfold try_except_ClientError, bind, emit, log_info, log_error, lift_err, now, ret, raise.
  simpl.
  match goal with |- context [s3_upload_file E path bucket key ?x] =>
    set (extra := x); destruct (s3_upload_file E path bucket key extra) as [e0|] eqn:Hup
  end; simpl.
  - destruct e0 as [cls msg|code msg|]; simpl.
    + intros [= <-]. exists extra. split; [done|]. by simplify_list_eq.
    + destruct (String.eqb code "NoSuchBucket") eqn:Hb;
        [|destruct (String.eqb code "AccessDenied") eqn:Hd];
        simpl; intros [= <-]; exists extra; (split; [done|]);
        rewrite Hb, ?Hd; by simplify_list_eq.
    + intros [= <-]. exists extra. split; [done|]. by simplify_list_eq.
  - by destruct public.
Qed.

Lemma X17_upload_failure_witness :
  let e := ClientError "AccessDenied"
             "An error occurred (AccessDenied) when calling the PutObject operation" in
  let r := upload_to_s3 (Sample.E_upload_fails e) "/tmp/fox.png" "artipop" "fox.png"
             "a red fox" 28 3.5%float None None false Sample.w0 in
  exists extra,
    trace r.2 =
    [LogInfo "Uploading to s3://artipop/fox.png";
     S3Upload "/tmp/fox.png" "artipop" "fox.png" extra;
     LogError "Access denied. Check AWS credentials and bucket permissions"].
Proof.
  intros e r.
  destruct (X17_upload_failure (Sample.E_upload_fails e) "/tmp/fox.png" "artipop" "fox.png"
              "a red fox" 28 3.5%float None None false Sample.w0 e eq_refl)
    as [[Hc _]|(_ & extra & _ & Htr)]; [discriminate Hc|].
  exists extra. exact Htr.
Defined.

(** ** Failures of the download *)




(** ** An interrupt during the provider call *)

(** X19. An interrupt from the keyboard during the provider call is not
    treated as a provider error: it passes the handler of the call
    unclassified, whatever its message would match, and the run ends with
    status 130 after the line "Interrupted by user", with no error line, no
    file written and nothing uploaded. *)
Theorem X19_interrupted_provider_call E a w input :
  truthy_str (a_bucket a) = true ->
  truthy_str (getenv E "REPLICATE_API_TOKEN") = true ->
  job_description (a_prompt a) (a_steps a) (a_guidance a) (a_seed a)
    (a_width a) (a_height a) "png" = Ok input ->
  client_run E MODEL_ID input = Raise KeyboardInterrupt ->
  (main E a w).1 = 130 /\
  fs (main E a w).2 = fs w /\
  trace (main E a w).2 =
  (trace w ++
   [LogInfo ("Using bucket: " +:+ default "" (a_bucket a))] ++
   (if truthy_str (a_region a) then []
    else [LogInfo "No region via args/env; will fall back to eu-central-1 inside S3 client"]) ++
   [LogInfo ("Generating with cfg=" +:+ str_float E (a_guidance a)
             +:+ ", aspect_ratio=" +:+ shown_aspect_ratio input);
    ProviderRun MODEL_ID input;
    LogInfo "Interrupted by user"])%list.
Proof.
  intros Hb Ht Hjob Hrun. unfold main. rewrite Hb. cbn [negb].
  match goal with |- context [main_body E a ?w0] => set (w1 := w0) end.
  assert (main_body E a w1 =
          (Raise KeyboardInterrupt,
           {| fs := fs w; ticks := ticks w;
              trace := (trace w1 ++
                [LogInfo ("Generating with cfg=" +:+ str_float E (a_guidance a)
                          +:+ ", aspect_ratio=" +:+ shown_aspect_ratio input);
                 ProviderRun MODEL_ID input])%list |})) as ->.
  { unfold main_body. unfold bind at 1. rewrite token_present by done.
    unfold bind at 1. rewrite (generate_unfold _ _ _ _ _ _ _ _ _ input) by done.
    unfold try_except_Exception, bind, emit, lift. simpl. rewrite Hrun. simpl.
    by rewrite <- !app_assoc. }
  repeat split. simpl. destruct (truthy_str (a_region a)); by simplify_list_eq.
Qed.

Lemma X19_interrupted_provider_call_witness :
  (main SampleRun.E_interrupted Sample.a Sample.w0).1 = 130 /\
  List.last (trace (main SampleRun.E_interrupted Sample.a Sample.w0).2) (LogInfo "")
  = LogInfo "Interrupted by user".
Proof.
  destruct (job_description_total "a red fox" 28 3.5%float None 1024 1024 "png")
    as [input Hjob].
  destruct (X19_interrupted_provider_call SampleRun.E_interrupted Sample.a Sample.w0 input
              eq_refl eq_refl Hjob eq_refl) as (Hst & _ & Htr).
  split; [exact Hst|]. rewrite Htr. reflexivity.
Defined.

(** ** The organized key around midnight *)

(** X21. The organized key reads the clock twice: its directories
    (year, month, day) come from the first read and the date in its file name
    from the second, each as that read gives it, so that the two can name
    different days when midnight falls between them. *)
Theorem X21_organized_key_two_reads E a w :
  truthy_str (a_key a) = false -> a_organized a = true ->
  valid_date (clock E (ticks w)) -> valid_date (clock E (S (ticks w))) ->
  let d1 := clock E (ticks w) in
  let d2 := clock E (S (ticks w)) in
  (determine_s3_key E a w).1 =
    Ok ("images/" +:+ dec4 (year d1) +:+ "/" +:+ dec2 (month d1) +:+ "/" +:+
        dec2 (day d1) +:+ "/sd3_" +:+ date_text d2 +:+ ".png") /\
  ticks (determine_s3_key E a w).2 = S (S (ticks w)).
Proof.
  intros Hk Ho (Hy & Hm & Hd) Hv2 d1 d2. unfold determine_s3_key. rewrite Hk, Ho.
  split; [|done]. rewrite create_s3_key_organized_reads.
  rewrite strftime_Ymd_date_text by done.
  unfold strftime_Y, strftime_m, strftime_d.
  by rewrite str_int_dec4, !zfill_dec2 by lia.
Qed.

Lemma X21_organized_key_two_reads_witness :
  (determine_s3_key SampleRun.E_midnight (Sample.with_key None true) Sample.w0).1 =
  Ok "images/2025/12/31/sd3_2026-01-01.png".
Proof.
  apply (X21_organized_key_two_reads SampleRun.E_midnight (Sample.with_key None true)
           Sample.w0 eq_refl eq_refl);
    unfold valid_date; simpl; lia.
Defined.

(** ** Time stamps *)

Section TicksRules.
Context {A B : Type}.

Lemma ticks_ret (a : A) : keeps_ticks (ret a).
Proof. done. Qed.
Lemma ticks_raise (e : exn) : keeps_ticks (@raise A e).
Proof. done. Qed.
Lemma ticks_lift (r : result A) : keeps_ticks (lift r).
Proof. done. Qed.
Lemma ticks_bind (m : M A) (k : A -> M B) :
  keeps_ticks m -> (forall a, keeps_ticks (k a)) -> keeps_ticks (bind m k).
Proof.
  intros Hm Hk w. unfold bind. specialize (Hm w).
  destruct (m w) as [[a|e] w1]; simpl in *; [|done]. by rewrite Hk.
Qed.
Lemma ticks_try_except_Exception (m : M A) h :
  keeps_ticks m -> (forall e, keeps_ticks (h e)) -> keeps_ticks (try_except_Exception m h).
Proof.
  intros Hm Hh w. unfold try_except_Exception. specialize (Hm w).
  destruct (m w) as [[a|e] w1]; simpl in *; [done|].
  destruct (is_Exception e); [|done]. by rewrite Hh.
Qed.
End TicksRules.

Lemma ticks_emit ev : keeps_ticks (emit ev).
Proof. done. Qed.

Ltac ticks_step :=
  lazymatch goal with
  | |- keeps_ticks (bind _ _) => apply ticks_bind; [|intros ?]
  | |- keeps_ticks (if ?b then _ else _) => destruct b
  | |- keeps_ticks (match ?x with _ => _ end) => destruct x
  | |- keeps_ticks _ =>
      first [ apply ticks_ret | apply ticks_raise | apply ticks_lift | apply ticks_emit
            | apply ticks_try_except_Exception; [|intros ?] ]
  end.

Lemma generate_keeps_ticks E prompt steps guidance seed width height fmt :
  keeps_ticks (generate_image_with_replicate E prompt steps guidance seed width height fmt).
Proof.
  unfold generate_image_with_replicate, get_replicate_token, normalize_output,
    on_generation_error, log_info, log_error.
  repeat ticks_step.
Qed.

Lemma stamps_outcome_raise E a n w e : stamps_outcome E a n w (Raise e, w).
Proof.
  exists []. rewrite app_nil_r. split; [done|].
  split; [by intros ?? ?%elem_of_nil|]. split; [by intros ??? ?%elem_of_nil|].
  split; [done|]. split; [by intros ?? ?%elem_of_nil|by intros ??? ?%elem_of_nil].
Qed.

Lemma stamps_outcome_prefix E a n w0 w1 evs1 r :
  trace w1 = (trace w0 ++ evs1)%list -> Forall inert evs1 ->
  stamps_outcome E a n w1 r -> stamps_outcome E a n w0 r.
Proof.
  intros Htr Hin (evs & Htr' & Hw & Hu & Ht & Hkw & Hku).
  exists (evs1 ++ evs)%list. rewrite Htr', Htr, app_assoc. split; [done|].
  rewrite uploads_app, (inert_uploads evs1) by done.
  split; [|split; [done|split; [done|split; [|done]]]].
  - intros p f [Hin1|Hin2]%elem_of_app; [by apply inert_no_write in Hin1|by eapply Hw].
  - intros p f [Hin1|Hin2]%elem_of_app; [by apply inert_no_write in Hin1|by eapply Hkw].
Qed.

Lemma stamps_outcome_bind {A} E a n (m : M A) (k : A -> M Z) w :
  spec m inert (fun _ => True) -> keeps_ticks m ->
  (forall x w1, ticks w1 = ticks w -> stamps_outcome E a n w1 (k x w1)) ->
  stamps_outcome E a n w (bind m k w).
Proof.
  intros Hm Hticks Hk. unfold bind.
  destruct (Hm w) as (evs1 & Htr & Hno & _). specialize (Hticks w).
  destruct (m w) as [[x|e] w1]; simpl in *.
  - eapply stamps_outcome_prefix; [done..|]. by apply Hk.
  - eapply stamps_outcome_prefix; [done..|]. apply stamps_outcome_raise.
Qed.

(** The image is stamped with one read of the clock. *)
Lemma add_metadata_stamp E img prompt steps guidance seed w :
  exists meta,
    add_metadata_to_image E img prompt steps guidance seed w =
    (Ok (img, meta), {| fs := fs w; ticks := S (ticks w); trace := trace w |}) /\
    text_values "generated_at" meta = [isoformat (clock E (ticks w))].
Proof.
  unfold add_metadata_to_image, bind, now, ret. simpl. eexists. split; [done|].
  destruct (truthy_int seed); by rewrite !text_values_add_text.
Qed.

Lemma determine_s3_key_reads E a w :
  exists key,
    determine_s3_key E a w =
    (Ok key, {| fs := fs w; ticks := ticks w + key_reads a; trace := trace w |}).
Proof.
  unfold determine_s3_key, key_reads. destruct (truthy_str (a_key a)).
  - eexists. unfold ret. by rewrite Nat.add_0_r; destruct w.
  - destruct (a_organized a); eexists;
      unfold create_s3_key_organized, create_filename_with_date, bind, now, ret; simpl;
      do 2 f_equal; f_equal; lia.
Qed.

(** The key depends on the world through the clock only. *)
Lemma determine_s3_key_ticks E a w w' :
  ticks w = ticks w' -> (determine_s3_key E a w).1 = (determine_s3_key E a w').1.
Proof.
  intros Ht. unfold determine_s3_key.
  destruct (truthy_str (a_key a)); [done|].
  destruct (a_organized a);
    unfold create_s3_key_organized, create_filename_with_date, bind, now, ret; simpl;
    by rewrite Ht.
Qed.

(** The object is stamped with the first read of [upload_to_s3], the record
    it returns with the second. *)
Lemma upload_to_s3_stamps E path bucket key prompt steps guidance seed region public w :
  let r := upload_to_s3 E path bucket key prompt steps guidance seed region public w in
  exists evs, trace r.2 = (trace w ++ evs)%list /\
    Forall (uploading path) evs /\
    (forall p k x, (p, k, x) ∈ uploads evs ->
       Metadata x !! "generated-at" = Some (isoformat (clock E (ticks w)))) /\
    (forall res, r.1 = Ok res ->
       ticks r.2 = S (S (ticks w)) /\
       r_metadata res !! "generated-at" = Some (isoformat (clock E (ticks w))) /\
       r_generated_at res = isoformat (clock E (S (ticks w)))).
Proof.
  cbv zeta. unfold upload_to_s3, bind at 1 2 3 4 5, lift_err at 1 2 3 4 5.
  generalize (slice_to 1024 prompt). intros short.
  destruct (boto3_client E region) as [e|]; simpl.
  { exists []. rewrite app_nil_r. repeat split; try done. by intros ??? ?%elem_of_nil. }
  unfold try_except_ClientError, bind, emit, log_info, log_error, lift_err, now, ret, raise.
  simpl.
  match goal with |- context [s3_upload_file E path bucket key ?x] =>
    set (extra := x);
    assert (Metadata extra !! "generated-at" = Some (isoformat (clock E (ticks w)))) as Hx
      by (subst extra; simpl; destruct (truthy_int seed); by simplify_map_eq)
  end.
  set (start := LogInfo ("Uploading to s3://" +:+ bucket +:+ "/" +:+ key)).
  assert (forall l : list event, Forall inert l ->
            forall p k x, (p, k, x) ∈ uploads (start :: S3Upload path bucket key extra :: l) ->
            Metadata x !! "generated-at" = Some (isoformat (clock E (ticks w)))) as Hall.
  { intros l Hl p k x. simpl. intros [Heq|Hin]%elem_of_cons; [by simplify_eq|].
    apply list_elem_of_omap in Hin as (ev & Hev & Hup).
    rewrite Forall_forall in Hl. specialize (Hl _ Hev). by destruct ev. }
  assert (forall l : list event, Forall inert l ->
            Forall (uploading path) (start :: S3Upload path bucket key extra :: l)) as Hpath.
  { intros l Hl. repeat constructor. eapply Forall_impl; [done|]. by intros []. }
  destruct (s3_upload_file E path bucket key extra) as [e|]; simpl.
  - destruct e as [cls msg|code msg|]; simpl.
    + exists [start; S3Upload path bucket key extra]. split; [by simplify_list_eq|].
      split; [by apply Hpath|]. split; [by apply Hall|done].
    + destruct (String.eqb code "NoSuchBucket"); [|destruct (String.eqb code "AccessDenied")];
        simpl; (eexists (start :: S3Upload path bucket key extra :: [_]);
        split; [by simplify_list_eq|];
        split; [apply Hpath; by repeat constructor|];
        split; [apply Hall; by repeat constructor|done]).
    + exists [start; S3Upload path bucket key extra]. split; [by simplify_list_eq|].
      split; [by apply Hpath|]. split; [by apply Hall|done].
  - destruct public; simpl.
    + eexists (start :: S3Upload path bucket key extra :: [_; _]).
      split; [by simplify_list_eq|].
      split; [apply Hpath; by repeat constructor|].
      split; [apply Hall; by repeat constructor|].
      intros res [= <-]. simpl. split; [done|]. split; [|done].
      destruct (truthy_int seed); by simplify_map_eq.
    + eexists (start :: S3Upload path bucket key extra :: [_]).
      split; [by simplify_list_eq|].
      split; [apply Hpath; by repeat constructor|].
      split; [apply Hall; by repeat constructor|].
      intros res [= <-]. simpl. split; [done|]. split; [|done].
      destruct (truthy_int seed); by simplify_map_eq.
Qed.

(** From the write of the temporary file to the end of the [try] of [main]. *)
Lemma stamps_after_save E a n key f w :
  ticks w = (n + 1 + key_reads a)%nat ->
  derived_key E a (S n) key ->
  (if saved_as_png (tmp_path_of key)
   then text_values "generated_at" (f_text f) = [isoformat (clock E n)]
   else f_text f = []) ->
  stamps_outcome E a n
    {| fs := fs w; ticks := ticks w; trace := trace w |}
    ((result <- upload_to_s3 E (tmp_path_of key) (default "" (a_bucket a)) key (a_prompt a)
                  (a_steps a) (a_guidance a) (a_seed a) (a_region a) (a_public a) ;;
      unlink (tmp_path_of key) ;;;
      log_info "Temporary file deleted" ;;;
      print_summary E result (a_public a) ;;;
      ret 0)
       {| fs := <[tmp_path_of key := f]> (fs w); ticks := ticks w;
          trace := (trace w ++ [FileWrite (tmp_path_of key) f]) ++
                   [LogInfo ("Image saved temporarily to " +:+ tmp_path_of key)] |}).
Proof.
  intros Hn Hkey Hf. set (p := tmp_path_of key) in *.
  set (saved := LogInfo ("Image saved temporarily to " +:+ p)).
  match goal with |- stamps_outcome _ _ _ _ (bind _ _ ?w1) => set (w' := w1) end.
  unfold bind at 1.
  destruct (upload_to_s3_stamps E p (default "" (a_bucket a)) key
              (a_prompt a) (a_steps a) (a_guidance a) (a_seed a) (a_region a)
              (a_public a) w') as (evs & Htr & Hall & Hup & Hres).
  destruct (upload_to_s3_outcome E p (default "" (a_bucket a)) key
              (a_prompt a) (a_steps a) (a_guidance a) (a_seed a) (a_region a)
              (a_public a) w') as (evs' & Htr0 & Hcases).
  cbv zeta in Htr, Htr0, Hcases. rewrite Htr in Htr0. apply app_inv_head in Htr0 as <-.
  assert (forall p' k x, (p', k, x) ∈ uploads evs -> k = key /\ p' = p) as Hsent.
  { intros p' k x Hin. destruct Hcases as [[Hno _]|(extra & Hone & _)].
    - rewrite Hno in Hin. by apply elem_of_nil in Hin.
    - rewrite Hone in Hin. apply list_elem_of_singleton in Hin. by simplify_eq. }
  clear Hcases.
  assert (forall l, (forall p' f', ~ (FileWrite p' f' ∈ l)) -> forall p' f',
            FileWrite p' f' ∈ (FileWrite p f :: saved :: evs ++ l)%list ->
            p' = p /\ f' = f) as Hwrite.
  { intros l Hl p' f' [Heq|Hin]%elem_of_cons; [by simplify_eq|].
    apply elem_of_cons in Hin as [Heq|Hin]; [done|].
    apply elem_of_app in Hin as [Hin|Hin];
      [by apply (uploading_no_write p) in Hin|by apply Hl in Hin]. }
  assert (forall l, uploads l = [] -> forall p' k x,
            (p', k, x) ∈ uploads (FileWrite p f :: saved :: evs ++ l)%list ->
            (p', k, x) ∈ uploads evs) as Hmeta.
  { intros l Hl p' k x. simpl. by rewrite uploads_app, Hl, app_nil_r. }
  assert (trace w' = (trace w ++ [FileWrite p f; saved])%list) as Htr'
    by (subst w'; by simplify_list_eq).
  assert (ticks w' = ticks w) as Hticks' by done.
  assert (forall (r : result Z * world) l,
            (forall p' f', ~ (FileWrite p' f' ∈ l)) -> uploads l = [] ->
            trace r.2 = (trace w ++ FileWrite p f :: saved :: evs ++ l)%list ->
            (is_ok r.1 = true -> ticks r.2 = (n + 3 + key_reads a)%nat) ->
            stamps_outcome E a n {| fs := fs w; ticks := ticks w; trace := trace w |} r)
    as Hend.
  { intros r l Hl Hu Hr Hok. exists (FileWrite p f :: saved :: evs ++ l)%list.
    split; [done|]. split; [|split; [|split; [done|split]]].
    - intros p' f' Hin. by destruct (Hwrite l Hl p' f' Hin) as [-> ->].
    - intros p' k x Hin%(Hmeta l Hu). rewrite <- Hn. by eapply Hup.
    - intros p' f' Hin. destruct (Hwrite l Hl p' f' Hin) as [-> _]. by exists key.
    - intros p' k x Hin%(Hmeta l Hu). by destruct (Hsent _ _ _ Hin) as [-> ->]. }
  destruct (upload_to_s3 _ _ _ _ _ _ _ _ _ _ w') as [[res|e] w4];
    cbn [fst snd] in Htr, Hres |- *.
  - destruct (Hres res eq_refl) as (Hticks & _).
    unfold bind at 1, unlink.
    destruct (fs w4 !! p).
    + unfold bind at 1, log_info, emit. cbn [fst snd fs ticks trace].
      match goal with |- stamps_outcome _ _ _ _ (bind _ _ ?w1) =>
        destruct (print_then_return E res (a_public a) w1) as (r & -> & Hr) end.
      apply (Hend _ [FileUnlink p; LogInfo "Temporary file deleted"]); [|done| |].
      * intros p' f' Hin. apply elem_of_cons in Hin as [Heq|Hin]; [done|].
        by apply list_elem_of_singleton in Hin.
      * cbn [fst snd trace]. rewrite Htr, Htr'. by simplify_list_eq.
      * intros _. cbn [fst snd ticks]. rewrite Hticks, Hticks', Hn. lia.
    + apply (Hend _ []); [by intros ?? ?%elem_of_nil|done| |done].
      cbn [fst snd]. rewrite Htr, Htr'. by simplify_list_eq.
  - apply (Hend _ []); [by intros ?? ?%elem_of_nil|done| |done].
    cbn [fst snd]. rewrite Htr, Htr'. by simplify_list_eq.
Qed.

Lemma main_body_stamps E a w : stamps_outcome E a (ticks w) w (main_body E a w).
Proof.
  unfold main_body. set (n := ticks w). assert (ticks w = n) as Hn by done. clearbody n.
  apply stamps_outcome_bind;
    [apply get_replicate_token_spec|unfold get_replicate_token; repeat ticks_step|].
  intros _ w1 Hw1. rewrite Hn in Hw1. clear w Hn.
  apply stamps_outcome_bind; [apply generate_inert|apply generate_keeps_ticks|].
  intros img0 w2 Hw2. rewrite Hw1 in Hw2. clear w1 Hw1.
  unfold bind at 1.
  destruct (add_metadata_stamp E img0 (a_prompt a) (a_steps a) (a_guidance a) (a_seed a) w2)
    as (meta & -> & Hmeta).
  unfold bind at 1.
  match goal with |- context [determine_s3_key E a ?w0] =>
    pose proof (determine_s3_key_ticks E a w0) as Hsame;
    destruct (determine_s3_key_reads E a w0) as (key & Hkey) end.
  assert (derived_key E a (S n) key) as Hderived.
  { intros w' Hw'. rewrite <- Hsame, Hkey by (simpl; congruence). done. }
  rewrite Hkey. clear Hsame Hkey.
  cbn [fs ticks trace].
  unfold bind at 1, save_image.
  destruct (Image_save E img0 (tmp_path_of key) meta) as [e|].
  { exists []. rewrite app_nil_r. split; [done|].
    split; [by intros ?? ?%elem_of_nil|]. split; [by intros ??? ?%elem_of_nil|].
    split; [done|]. split; [by intros ?? ?%elem_of_nil|by intros ??? ?%elem_of_nil]. }
  unfold bind at 1, log_info at 1, emit. cbn [fs ticks trace].
  match goal with |- context [FileWrite _ ?f0] => set (f := f0) end.
  set (w := {| fs := fs w2; ticks := S (ticks w2) + key_reads a; trace := trace w2 |}).
  destruct (stamps_after_save E a n key f w) as (evs & Hrest);
    [subst w; simpl; lia|done
    |subst f; simpl; rewrite <- Hw2; by destruct (saved_as_png _)|].
  by exists evs.
Qed.

(** Every run, from its first read of the clock on. *)
Lemma main_stamps E a w :
  exists evs, trace (main E a w).2 = (trace w ++ evs)%list /\
    (forall p f, FileWrite p f ∈ evs ->
       if saved_as_png p
       then text_values "generated_at" (f_text f) = [isoformat (clock E (ticks w))]
       else f_text f = []) /\
    (forall p k x, (p, k, x) ∈ uploads evs ->
       Metadata x !! "generated-at"
       = Some (isoformat (clock E (ticks w + 1 + key_reads a)))) /\
    ((main E a w).1 = 0 -> ticks (main E a w).2 = (ticks w + 3 + key_reads a)%nat) /\
    (forall p f, FileWrite p f ∈ evs ->
       exists key, derived_key E a (S (ticks w)) key /\ p = tmp_path_of key) /\
    (forall p k x, (p, k, x) ∈ uploads evs ->
       derived_key E a (S (ticks w)) k /\ p = tmp_path_of k).
Proof.
  unfold main. destruct (truthy_str (a_bucket a)); simpl.
  2: { exists []. rewrite app_nil_r. split; [done|].
       split; [by intros ?? ?%elem_of_nil|]. split; [by intros ??? ?%elem_of_nil|].
       split; [done|]. split; [by intros ?? ?%elem_of_nil|by intros ??? ?%elem_of_nil]. }
  match goal with |- context [main_body E a ?w0] => set (w1 := w0) end.
  assert (stamps_outcome E a (ticks w) w (main_body E a w1))
    as (evs & Htr & Hw & Hu & Ht & Hkw & Hku).
  { eapply (stamps_outcome_prefix E a (ticks w) w w1); [done| |apply (main_body_stamps E a w1)].
    destruct (truthy_str (a_region a)); by repeat constructor. }
  destruct (main_body E a w1) as [[code|e] w2]; cbn [fst snd is_ok] in *.
  - exists evs. split; [done|]. split; [done|]. split; [done|].
    split; [by intros _; apply Ht|done].
  - set (final := match e with
                  | KeyboardInterrupt => LogInfo "Interrupted by user"
                  | _ => LogError ("Fatal error: " +:+ str_exn e)
                  end).
    assert (Forall inert [final]) as Hfinal by (by destruct e; repeat constructor).
    exists (evs ++ [final])%list.
    rewrite uploads_app, (inert_uploads [final]), app_nil_r by done.
    split; [|split; [|split; [done|split; [|split; [|done]]]]].
    + rewrite app_assoc, <- Htr. by destruct e.
    + intros p f [Hin|Hin]%elem_of_app; [by eapply Hw|].
      by apply inert_no_write in Hin.
    + by destruct e.
    + intros p f [Hin|Hin]%elem_of_app; [by eapply Hkw|].
      by apply inert_no_write in Hin.
Qed.

(** X20. The time stamps of a run come from separate reads of the clock,
    so they need not agree.  The "generated_at" chunk of an image written
    as PNG is the first read of the run (an image written in another format,
    under a key whose suffix asks for it, carries no text and so no stamp);
    the "generated-at" metadata of the object is the read after the key was
    chosen (the second read with a key on the command line, the third with
    the dated name, the fourth with the organized key); the "generated_at"
    of the record [upload_to_s3] returns is the read after that one.  A run
    that succeeds has read the clock three, four or five times. *)
Theorem X20_time_stamps E a w :
  (exists evs, trace (main E a w).2 = (trace w ++ evs)%list /\
     (forall p f, FileWrite p f ∈ evs ->
        if saved_as_png p
        then text_values "generated_at" (f_text f) = [isoformat (clock E (ticks w))]
        else f_text f = []) /\
     (forall p k x, (p, k, x) ∈ uploads evs ->
        Metadata x !! "generated-at"
        = Some (isoformat (clock E (ticks w + 1 + key_reads a)))) /\
     ((main E a w).1 = 0 -> ticks (main E a w).2 = (ticks w + 3 + key_reads a)%nat)) /\
  (forall path bucket key prompt steps guidance seed region public w1 res,
     (upload_to_s3 E path bucket key prompt steps guidance seed region public w1).1 = Ok res ->
     r_metadata res !! "generated-at" = Some (isoformat (clock E (ticks w1))) /\
     r_generated_at res = isoformat (clock E (S (ticks w1)))).
Proof.
  split.
  - destruct (main_stamps E a w) as (evs & Htr & Hw & Hu & Ht & _). by exists evs.
  - intros path bucket key prompt steps guidance seed region public w1 res Hres.
    destruct (upload_to_s3_stamps E path bucket key prompt steps guidance seed region
                public w1) as (_ & _ & _ & _ & Hok).
    by destruct (Hok res Hres) as (_ & ? & ?).
Qed.

(** ** From the provider's answer to the file *)

Lemma normalize_output_payload P E out :
  (forall u, P (HttpGet u)) ->
  spec (normalize_output E out) P
       (fun img => exists data, payload_of E out data /\ Image_open E data = Ok img).
Proof.
  intros Hget w.
  assert (forall fo, first_element out = Some fo ->
            (forall o, fo <> PyList o) ->
            normalize_output E out w = normalize_output E fo w /\
            first_element fo = Some fo) as Hfirst.
  { intros fo Hfo Hl. destruct out as [data|url|[|x l]|ty]; simplify_eq/=; try done.
    destruct fo; try done. by destruct (Hl items). }
  destruct (first_element out) as [fo|] eqn:Hfo.
  2: { destruct out as [| |[|]|]; simplify_eq/=. exists []. rewrite app_nil_r.
       by repeat split. }
  destruct fo as [[data|e]|url|items|ty].
  - destruct (Hfirst _ eq_refl ltac:(done)) as [-> _].
    unfold normalize_output, bind, ret, lift. simpl. exists []. rewrite app_nil_r.
    split; [by destruct (Image_open E data)|]. split; [constructor|].
    intros img Himg. exists data. split; [by left|]. by destruct (Image_open E data).
  - destruct (Hfirst _ eq_refl ltac:(done)) as [-> _].
    exists []. rewrite app_nil_r. by repeat split.
  - destruct (Hfirst _ eq_refl ltac:(done)) as [-> _].
    unfold normalize_output, bind, ret, lift, emit, raise. simpl.
    exists [HttpGet url]. destruct (requests_get E url) as [r|e] eqn:Hr; simpl.
    2: { by repeat split; [repeat constructor|]. }
    destruct ((400 <=? status_code r) && (status_code r <? 600))%Z eqn:Hst; simpl.
    { by repeat split; [repeat constructor|]. }
    split; [by destruct (Image_open E (content r))|]. split; [by repeat constructor|].
    intros img Himg. exists (content r). split.
    + right. exists url, r. repeat split; try done.
      apply andb_false_iff in Hst. lia.
    + by destruct (Image_open E (content r)).
  - assert (normalize_output E out w =
            (Raise (Exc "RuntimeError" "Unexpected output type: <class 'list'>"), w)) as ->.
    { destruct out as [| |[|x l]|]; simplify_eq/=; done. }
    exists []. rewrite app_nil_r. by repeat split.
  - destruct (Hfirst _ eq_refl ltac:(done)) as [-> _].
    exists []. rewrite app_nil_r. by repeat split.
Qed.

Lemma on_generation_error_never_returns {A} P e (Q : A -> Prop) :
  quiet P -> spec (@on_generation_error A e) P Q.
Proof.
  intros HP w. destruct (@on_generation_error_spec A P e HP w) as (evs & Htr & Hall & _).
  exists evs. split; [done|]. split; [done|]. intros x Hx.
  destruct (@on_generation_error_raises A e w) as [e' He']. congruence.
Qed.

Lemma writes_generated_quiet E a : quiet (writes_generated E a).
Proof. by repeat split. Qed.

Lemma generate_generated E a :
  spec (generate_image_with_replicate E (a_prompt a) (a_steps a) (a_guidance a)
          (a_seed a) (a_width a) (a_height a) "png")
       (writes_generated E a) (generated_by E a).
Proof.
  pose proof (writes_generated_quiet E a) as Hq.
  unfold generate_image_with_replicate.
  eapply spec_bind; [apply get_replicate_token_spec|]. intros _ _.
  eapply spec_bind; [spec_step|].
  intros input Hjob.
  eapply spec_bind; [by apply spec_emit|]. intros _ _.
  apply spec_try_except_Exception; [|intros e; by apply on_generation_error_never_returns].
  eapply spec_bind; [by apply spec_emit|]. intros _ _.
  eapply spec_bind; [spec_step|].
  intros out Hrun.
  eapply spec_weaken; [by apply normalize_output_payload|].
  intros img (data & Hdata & Himg). by exists input, out, data.
Qed.

Lemma main_body_generated E a :
  spec (main_body E a) (writes_generated E a) (fun _ => True).
Proof.
  pose proof (writes_generated_quiet E a) as Hq. unfold main_body.
  eapply spec_bind; [apply get_replicate_token_spec|]. intros _ _.
  eapply spec_bind; [apply generate_generated|]. intros img Himg.
  eapply spec_bind; [apply add_metadata_to_image_spec|].
  intros [img' meta] [Heq _]. simpl in Heq. subst img'.
  eapply spec_bind; [apply determine_s3_key_spec_any|]. intros key _.
  eapply spec_bind; [by apply spec_save_image|]. intros _ _.
  spec_step; [by spec_step|].
  spec_step; [by apply upload_to_s3_spec|].
  spec_step; [by spec_step|].
  spec_step; [by spec_step|].
  spec_step; [apply print_summary_spec|].
  by spec_step.
Qed.

(** A file write is not among a few log lines. *)
Ltac no_write_in H :=
  simpl in H;
  repeat (apply elem_of_cons in H as [H|H]; [discriminate H|]);
  by apply elem_of_nil in H.

(** X22. What a run writes is what the provider generated for it: every
    file written holds the image the codec decoded from the payload the
    provider returned for the job of this command line, that payload being
    the bytes of the stream the answer holds first or the body of the
    response, free of an HTTP error status, to fetching the URL it holds
    first.  Nothing else is ever written, and the image is not altered on
    its way to the file. *)
Theorem X22_written_image_is_generated E a w :
  exists evs, trace (main E a w).2 = (trace w ++ evs)%list /\
    forall p f, FileWrite p f ∈ evs ->
      exists input out data,
        job_description (a_prompt a) (a_steps a) (a_guidance a) (a_seed a)
          (a_width a) (a_height a) "png" = Ok input /\
        client_run E MODEL_ID input = Ok out /\
        payload_of E out data /\
        Image_open E data = Ok (f_image f).
Proof.
  unfold main. destruct (truthy_str (a_bucket a)); simpl.
  2: { exists []. rewrite app_nil_r. split; [done|]. by intros ?? ?%elem_of_nil. }
  match goal with |- context [main_body E a ?w0] =>
    destruct (main_body_generated E a w0) as (evs & Htr & Hall & _);
    destruct (main_body E a w0) as [[code|e] w2] end; simpl in *.
  - eexists. rewrite Htr, <- !app_assoc. split; [done|].
    intros p f Hin. rewrite Forall_forall in Hall.
    apply elem_of_app in Hin as [Hin|Hin]; [|by apply (Hall _ Hin)].
    destruct (truthy_str (a_region a)); no_write_in Hin.
  - exists (([LogInfo ("Using bucket: " +:+ default "" (a_bucket a))] ++
             (if truthy_str (a_region a) then []
              else [LogInfo "No region via args/env; will fall back to eu-central-1 inside S3 client"])) ++
            evs ++ [match e with
                    | KeyboardInterrupt => LogInfo "Interrupted by user"
                    | _ => LogError ("Fatal error: " +:+ str_exn e)
                    end])%list.
    split; [destruct e; simpl; rewrite Htr; by simplify_list_eq|].
    intros p f Hin. rewrite Forall_forall in Hall.
    apply elem_of_app in Hin as [Hin|Hin];
      [destruct (truthy_str (a_region a)); no_write_in Hin|].
    apply elem_of_app in Hin as [Hin|Hin]; [by apply (Hall _ Hin)|].
    destruct e; no_write_in Hin.
Qed.

(** ** The layout of the metadata *)

Lemma add_metadata_layout P E img prompt steps guidance seed :
  spec (add_metadata_to_image E img prompt steps guidance seed) P
       (fun r => r.1 = img /\ png_layout seed (str_float E guidance) r.2).
Proof.
  unfold add_metadata_to_image. repeat spec_step.
  split; [done|]. unfold png_layout, png_keys. simpl.
  destruct (truthy_int seed); rewrite !text_values_add_text; simpl;
    repeat case_decide; done.
Qed.

Lemma upload_to_s3_layout P E path bucket key prompt steps guidance seed region public :
  quiet P ->
  (forall extra, s3_layout seed (str_float E guidance) extra ->
                 P (S3Upload path bucket key extra)) ->
  spec (upload_to_s3 E path bucket key prompt steps guidance seed region public) P
       (fun _ => True).
Proof.
  intros (Hi & He & _ & _) Hup. unfold upload_to_s3.
  spec_step; [spec_step|]. spec_step; [spec_step|].
  generalize (slice_to 1024 prompt). intros short.
  match goal with |- context [Build_extra_args ?ct ?md ?cc] =>
    assert (s3_layout seed (str_float E guidance) (Build_extra_args ct md cc)) as Hmd end.
  { unfold s3_layout, s3_keys. simpl. split.
    - intros k.
      assert (~ is_Some ((∅ : gmap string string) !! k)) as Hempty
        by (rewrite lookup_empty; apply is_Some_None).
      destruct (truthy_int seed); simpl;
        rewrite !lookup_insert_is_Some', !elem_of_cons, elem_of_nil;
        intuition (subst; auto 12).
    - destruct (truthy_int seed); by simplify_map_eq. }
  apply spec_try_except_ClientError.
  - repeat spec_step; auto.
  - intros c e. repeat spec_step; auto.
Qed.

Lemma layout_ok_quiet E a : quiet (layout_ok E a).
Proof. by repeat split. Qed.

Lemma main_body_layout E a :
  spec (main_body E a) (layout_ok E a) (fun _ => True).
Proof.
  pose proof (layout_ok_quiet E a) as Hq. unfold main_body.
  spec_step; [apply get_replicate_token_spec|].
  spec_step; [by apply generate_image_with_replicate_spec|].
  eapply spec_bind; [apply add_metadata_layout|].
  intros [img meta] [_ Hpng]. simpl in Hpng.
  eapply spec_bind; [apply determine_s3_key_spec_any|]. intros key _.
  spec_step; [spec_step; simpl; by destruct (saved_as_png _)|].
  spec_step; [by spec_step|].
  spec_step; [by apply upload_to_s3_layout|].
  spec_step; [by spec_step|].
  spec_step; [by spec_step|].
  spec_step; [apply print_summary_spec|].
  by spec_step.
Qed.

(** X23. The layout of the metadata is fixed.  Every image a run writes
    as PNG has the text chunks prompt, steps, guidance_scale, seed (only for
    a seed other than 0), generated_at, model, generator, each once and in
    this order; an image written in another format, under a key whose suffix
    asks for it, has no text.  Every object the run uploads has the metadata
    prompt, steps, guidance, generated-at, model, generator, and seed under
    the same condition, and no other, with content type image/png, whatever
    the format of the file, and a cache lifetime of one year.  The guidance
    is written the same way in both, under two names, and the model and the
    generator are the same constants in both. *)
Theorem X23_metadata_layout E a w :
  exists evs, trace (main E a w).2 = (trace w ++ evs)%list /\
    (forall p f, FileWrite p f ∈ evs ->
       if saved_as_png p
       then (f_text f).*1 = png_keys (a_seed a) /\
            text_values "guidance_scale" (f_text f) = [str_float E (a_guidance a)] /\
            text_values "model" (f_text f) = ["stable-diffusion-3.5-large"] /\
            text_values "generator" (f_text f) = ["replicate-client"]
       else f_text f = []) /\
    (forall p k x, (p, k, x) ∈ uploads evs ->
       (forall name, is_Some (Metadata x !! name) <-> name ∈ s3_keys (a_seed a)) /\
       Metadata x !! "guidance" = Some (str_float E (a_guidance a)) /\
       Metadata x !! "model" = Some "stable-diffusion-3.5-large" /\
       Metadata x !! "generator" = Some "replicate-client" /\
       ContentType x = "image/png" /\
       CacheControl x = "public, max-age=31536000").
Proof.
  assert (exists evs, trace (main E a w).2 = (trace w ++ evs)%list /\
            Forall (layout_ok E a) evs) as (evs & Htr & Hall).
  { unfold main. destruct (truthy_str (a_bucket a)); simpl.
    2: { exists []. by rewrite app_nil_r. }
    match goal with |- context [main_body E a ?w1] =>
      destruct (main_body_layout E a w1) as (evs & Htr & Hall & _);
      destruct (main_body E a w1) as [[code|e] w2] end; simpl in *.
    - eexists. rewrite Htr, <- !app_assoc. split; [done|].
      apply Forall_app. split; [|done].
      destruct (truthy_str (a_region a)); by repeat constructor.
    - destruct e; simpl; eexists; rewrite Htr, <- !app_assoc; (split; [done|]);
        repeat (apply Forall_app; split); try done;
        destruct (truthy_str (a_region a)); by repeat constructor. }
  exists evs. split; [done|]. rewrite Forall_forall in Hall. split.
  - intros p f Hin. apply (Hall _ Hin).
  - intros p k x Hin. apply elem_of_uploads in Hin as [bucket Hin]. apply (Hall _ Hin).
Qed.

(** ** Runs, end to end *)

Lemma sent_jobs_elem model x evs : ProviderRun model x ∈ evs -> x ∈ sent_jobs evs.
Proof.
  intros Hin. unfold sent_jobs. apply list_elem_of_omap. by exists (ProviderRun model x).
Qed.

Lemma derived_key_unique E a n k k' :
  derived_key E a n k -> derived_key E a n k' -> k = k'.
Proof.
  intros Hk Hk'.
  specialize (Hk {| fs := ∅; ticks := n; trace := [] |} eq_refl).
  specialize (Hk' {| fs := ∅; ticks := n; trace := [] |} eq_refl).
  congruence.
Qed.

(** Without a key on the command line the key chosen is a dated name, in a
    directory or not, and its file in /tmp goes to the PNG writer. *)
Lemma default_key_png E a n key :
  truthy_str (a_key a) = false ->
  valid_date (clock E n) -> valid_date (clock E (S n)) ->
  derived_key E a n key ->
  exists d, valid_date d /\ tmp_path_of key = "/tmp/" +:+ flat_key d /\
            saved_as_png (tmp_path_of key) = true.
Proof.
  intros Hk Hv1 Hv2 Hkey.
  specialize (Hkey {| fs := ∅; ticks := n; trace := [] |} eq_refl).
  unfold determine_s3_key in Hkey. rewrite Hk in Hkey.
  destruct (a_organized a).
  - rewrite create_s3_key_organized_reads in Hkey. cbn [ticks] in Hkey.
    rewrite strftime_Ymd_date_text in Hkey by done. injection Hkey as <-.
    exists (clock E (S n)). split; [done|].
    pose proof (flat_key_file_name _ Hv2) as Hfile.
    set (d1 := clock E n). set (d2 := clock E (S n)) in *.
    replace ("images" +:+ "/" +:+ strftime_Y d1 +:+ "/" +:+ strftime_m d1 +:+ "/" +:+
             strftime_d d1 +:+ "/" +:+ "sd3" +:+ "_" +:+ date_text d2 +:+ ".png")
      with (("images" +:+ "/" +:+ strftime_Y d1 +:+ "/" +:+ strftime_m d1 +:+ "/" +:+
             strftime_d d1) +:+ "/" +:+ flat_key d2)
      by (unfold flat_key; by rewrite !append_assoc).
    rewrite tmp_path_of_join by done. split; [done|]. by apply flat_key_saved_as_png.
  - unfold create_filename_with_date, bind, now, ret in Hkey. cbn [fst snd ticks] in Hkey.
    rewrite strftime_Ymd_date_text in Hkey by done. injection Hkey as <-.
    exists (clock E n). split; [done|].
    change ("sd3" +:+ "_" +:+ date_text (clock E n) +:+ ".png") with (flat_key (clock E n)).
    rewrite tmp_path_of_base by (by apply flat_key_file_name).
    split; [done|]. by apply flat_key_saved_as_png.
Qed.

(** Every run, whatever the collaborators answer.  The jobs sent are the
    description of the command line; a file is written at /tmp joined with
    the name of the key the run chose, with the text chunks of the command
    line when the suffix of that name asks for PNG and with no text
    otherwise; an object is uploaded from that file under that key, with the
    metadata of the command line; and a run that ends with status 0 has
    sent a job, written a file and uploaded it. *)
Lemma main_run E a w :
  exists evs, trace (main E a w).2 = (trace w ++ evs)%list /\
    (forall x, x ∈ sent_jobs evs ->
       job_description (a_prompt a) (a_steps a) (a_guidance a) (a_seed a)
         (a_width a) (a_height a) "png" = Ok x) /\
    (forall path f, FileWrite path f ∈ evs ->
       (exists key, derived_key E a (S (ticks w)) key /\ path = tmp_path_of key) /\
       if saved_as_png path
       then png_text_ok (a_prompt a) (a_steps a) (a_seed a) (f_text f)
       else f_text f = []) /\
    (forall p k x, (p, k, x) ∈ uploads evs ->
       derived_key E a (S (ticks w)) k /\ p = tmp_path_of k /\
       mirror_ok (a_prompt a) (a_steps a) (a_seed a) (Metadata x) /\
       exists f, FileWrite p f ∈ evs) /\
    (truthy_str (a_key a) = false -> (forall n, valid_date (clock E n)) ->
     forall path f, FileWrite path f ∈ evs -> saved_as_png path = true) /\
    ((main E a w).1 = 0 ->
     exists input key f x,
       input ∈ sent_jobs evs /\ FileWrite (tmp_path_of key) f ∈ evs /\
       uploads evs = [(tmp_path_of key, key, x)]).
Proof.
  destruct (main_run_facts_any E a w) as (evs & Htr & Hj & Hw & Hu).
  destruct (main_stamps E a w) as (evs1 & Htr1 & _ & _ & _ & Hkw & Hku).
  rewrite Htr in Htr1. apply app_inv_head in Htr1 as <-.
  destruct (main_cleanup E a w) as (evs2 & Htr2 & Hcases).
  rewrite Htr in Htr2. apply app_inv_head in Htr2 as <-.
  exists evs. split; [done|]. split; [done|]. split; [|split; [|split]].
  - intros path f Hin. split; [by apply (Hkw _ _ Hin)|by apply (Hw _ _ Hin)].
  - intros p k x Hin. destruct (Hku _ _ _ Hin) as [Hk ->].
    split; [done|]. split; [done|]. split; [by apply (Hu _ _ _ Hin)|].
    destruct Hcases as [[Hno _]|(key & extra & f & Hf & Hone & _)].
    + rewrite Hno in Hin. by apply elem_of_nil in Hin.
    + rewrite Hone in Hin. apply list_elem_of_singleton in Hin. simplify_eq. by exists f.
  - intros Hk Hv path f Hin. destruct (Hkw _ _ Hin) as (key & Hkey & ->).
    by destruct (default_key_png E a (S (ticks w)) key Hk (Hv _) (Hv _) Hkey) as (_ & _ & _ & ?).
  - intros Hz. destruct (main_success E a w Hz)
      as (evs3 & input & key & f & x & Htr3 & _ & Hsent & Hf & Hone & _).
    rewrite Htr in Htr3. apply app_inv_head in Htr3 as <-.
    exists input, key, f, x. split; [by eapply sent_jobs_elem|done].
Qed.



Lemma sample_today : today Sample.E Sample.t0.
Proof. split; [unfold valid_date; simpl; lia|]. intros n. by repeat split. Qed.











(** C10. The image is written to, and uploaded from, /tmp joined with the
    last component of the storage key and nothing else of it: a key
    dir/base is kept at /tmp/base.  In every run the key is the one the run
    chose at its second read of the clock: the file is written at the path
    made from it, the upload reads that same path, and an upload has its
    file written before; with a key on the command line, that key.  A run
    that ends with status 0 has written the file and uploaded it.  So on the
    date [d] a run without a key on the command line, organized by date or
    not, uses /tmp/sd3_YYYY-MM-DD.png, and two such runs on that date (two
    runs with the default name among them) use the same path. *)
Theorem C10_tmp_path E a w :
  (forall dir base, file_name base ->
     tmp_path_of (dir +:+ "/" +:+ base) = "/tmp/" +:+ base /\
     tmp_path_of base = "/tmp/" +:+ base) /\
  tmp_path_of "a/b/c.png" = "/tmp/c.png" /\
  (exists evs, trace (main E a w).2 = (trace w ++ evs)%list /\
     (forall path f, FileWrite path f ∈ evs ->
        exists key, derived_key E a (S (ticks w)) key /\
                    path = Path.tmp_joinpath (Path.name key)) /\
     (forall p k x, (p, k, x) ∈ uploads evs ->
        derived_key E a (S (ticks w)) k /\ p = Path.tmp_joinpath (Path.name k) /\
        (exists f, FileWrite p f ∈ evs) /\
        forall path f, FileWrite path f ∈ evs -> path = p) /\
     (forall k, a_key a = Some k -> k <> "" ->
        forall path f, FileWrite path f ∈ evs -> path = Path.tmp_joinpath (Path.name k)) /\
     ((main E a w).1 = 0 ->
      exists key f x, FileWrite (Path.tmp_joinpath (Path.name key)) f ∈ evs /\
        uploads evs = [(Path.tmp_joinpath (Path.name key), key, x)])) /\
  (forall d, today E d -> truthy_str (a_key a) = false ->
     tmp_path_of (organized_key d) = "/tmp/" +:+ flat_key d /\
     tmp_path_of (flat_key d) = "/tmp/" +:+ flat_key d /\
     forall evs, trace (main E a w).2 = (trace w ++ evs)%list ->
       (forall path f, FileWrite path f ∈ evs -> path = "/tmp/" +:+ flat_key d) /\
       (forall p k x, (p, k, x) ∈ uploads evs -> p = "/tmp/" +:+ flat_key d) /\
       forall E' a' w' evs',
         today E' d -> truthy_str (a_key a') = false ->
         trace (main E' a' w').2 = (trace w' ++ evs')%list ->
         forall path f path' f',
           FileWrite path f ∈ evs -> FileWrite path' f' ∈ evs' -> path = path').
Proof.
  assert (forall E0 a0 w0 d evs,
            today E0 d -> truthy_str (a_key a0) = false ->
            trace (main E0 a0 w0).2 = (trace w0 ++ evs)%list ->
            (forall path f, FileWrite path f ∈ evs -> path = "/tmp/" +:+ flat_key d) /\
            (forall p k x, (p, k, x) ∈ uploads evs -> p = "/tmp/" +:+ flat_key d))
    as Hdated.
  { intros E0 a0 w0 d evs Hd Hk Htr.
    destruct (main_run_facts_today E0 a0 d w0 Hd) as (evs0 & Htr0 & Hw & Hu).
    rewrite Htr0 in Htr. apply trace_suffix_unique in Htr as <-.
    assert (tmp_path_of (expected_key a0 d) = "/tmp/" +:+ flat_key d) as Hpath.
    { destruct Hd as [Hv _]. pose proof (flat_key_file_name d Hv) as Hfile.
      destruct (expected_key_dated a0 d Hk) as [dir [-> | ->]];
        [by apply tmp_path_of_base|by apply tmp_path_of_join]. }
    split.
    - intros path f Hin. by rewrite (Hw _ _ Hin).
    - intros p k x Hin. by destruct (Hu _ _ _ Hin) as [_ ->]. }
  split; [|split; [|split]].
  - intros dir base Hb. split; [by apply tmp_path_of_join|by apply tmp_path_of_base].
  - vm_compute. reflexivity.
  - destruct (main_run E a w) as (evs & Htr & _ & Hw & Hu & _ & Hz).
    exists evs. split; [done|]. split; [|split; [|split]].
    + intros path f Hin. by destruct (Hw _ _ Hin) as [? _].
    + intros p k x Hin. destruct (Hu _ _ _ Hin) as (Hk & -> & _ & Hf).
      split; [done|]. split; [done|]. split; [done|].
      intros path f Hin'. destruct (Hw _ _ Hin') as [(key & Hkey & ->) _].
      by rewrite (derived_key_unique E a _ _ _ Hkey Hk).
    + intros k Hk Hne path f Hin. destruct (Hw _ _ Hin) as [(key & Hkey & ->) _].
      specialize (Hkey {| fs := ∅; ticks := S (ticks w); trace := [] |} eq_refl).
      rewrite determine_s3_key_explicit with (k := k) in Hkey by done.
      by simplify_eq/=.
    + intros Hst. destruct (Hz Hst) as (_ & key & f & x & _ & Hf & Hone).
      by exists key, f, x.
  - intros d Hd Hk. pose proof Hd as [Hv _].
    pose proof (flat_key_file_name d Hv) as Hfile.
    split; [|split].
    + replace (organized_key d) with
        (("images/" +:+ dec4 (year d) +:+ "/" +:+ dec2 (month d) +:+ "/" +:+ dec2 (day d))
         +:+ "/" +:+ flat_key d)
        by (unfold organized_key; by rewrite !append_assoc).
      by apply tmp_path_of_join.
    + by apply tmp_path_of_base.
    + intros evs Htr. destruct (Hdated E a w d evs Hd Hk Htr) as [Hw Hu].
      split; [done|]. split; [done|].
      intros E' a' w' evs' Hd' Hk' Htr' path f path' f' Hin Hin'.
      destruct (Hdated E' a' w' d evs' Hd' Hk' Htr') as [Hw' _].
      by rewrite (Hw _ _ Hin), (Hw' _ _ Hin').
Qed.

Lemma C10_tmp_path_witness :
  tmp_path_of "images/2025/10/13/sd3_2025-10-13.png" = "/tmp/sd3_2025-10-13.png" /\
  tmp_path_of "sd3_2025-10-13.png" = "/tmp/sd3_2025-10-13.png" /\
  exists evs key f x,
    trace (main Sample.E Sample.a Sample.w0).2 = (trace Sample.w0 ++ evs)%list /\
    FileWrite (Path.tmp_joinpath (Path.name key)) f ∈ evs /\
    uploads evs = [(Path.tmp_joinpath (Path.name key), key, x)].
Proof.
  destruct (proj2 (proj2 (proj2
              (C10_tmp_path Sample.E Sample.a Sample.w0))) Sample.t0 sample_today eq_refl)
    as (Ho & Hf & _).
  split; [exact Ho|]. split; [exact Hf|].
  destruct (proj1 (proj2 (proj2 (C10_tmp_path Sample.E Sample.a Sample.w0))))
    as (evs & Htr & _ & _ & _ & Hz).
  destruct Hz as (key & f & x & Hw & Hone); [vm_compute; reflexivity|].
  exists evs, key, f, x. split; [exact Htr|]. split; [exact Hw|exact Hone].
Defined.
